(** * Vexo dashboard: the live-log pipeline of [frontend/src/main.js]

    A shallow embedding of the WebSocket client with polling fallback
    ([initWebSocket], the 10 s [setInterval] callback), the deduplicating
    bounded log view ([addLogEntry]) and the autoscroll toggle, followed by
    the properties of the pipeline.

    The module-level variables of the script ([ws], [displayedLogIds],
    [autoscrollEnabled]), the [#logs] element and the pending timers are
    gathered in one record [Page]; every handler is a function from a page
    to an [Outcome]: the page it leaves behind, the calls it made to the
    outside world, and the exception it threw, if any.

    Two smaller parts of the script are embedded besides: the uptime
    label ([formatUptime]) and the paging of the library table
    ([renderLibraryPage], [changeLibraryPage], [updateLibraryList]). *)

From Stdlib Require Import ZArith String Ascii List Lia.
From stdpp Require Import base gmap strings list pretty.
Import ListNotations.

Set Warnings "-register-all,-clear-no-such-hyp".

Local Open Scope Z_scope.

(** ** JavaScript values

    What [JSON.parse] builds, and [undefined] for the property that is not
    there. Numbers are integers: timestamps are unix seconds. *)

Inductive JSValue :=
| JUndefined
| JNull
| JBool (b : bool)
| JNumber (n : Z)
| JString (s : string)
| JArray (items : list JSValue)
| JObject (fields : list (string * JSValue)).

Inductive JSError := SyntaxError | TypeError | DOMException.

(** An expression either yields a value or throws. *)
Inductive Completion (A : Type) :=
| Normal (a : A)
| Throw (e : JSError).
Arguments Normal {A} a.
Arguments Throw {A} e.

#[global] Instance Completion_ret : MRet Completion := @Normal.
#[global] Instance Completion_bind : MBind Completion := fun A B f c =>
  match c with
  | Normal a => f a
  | Throw e => Throw e
  end.

#[global] Instance JSError_eq_dec : EqDecision JSError.
Proof. solve_decision. Defined.

(** Own data property of an object literal. *)
Fixpoint own_property (k : string) (fields : list (string * JSValue))
  : option JSValue :=
  match fields with
  | [] => None
  | (k', v) :: rest => if String.eqb k k' then Some v else own_property k rest
  end.

(** [v.k] for the property names this script reads ([timestamp], [level],
    [message], [logs]): none of them exists on a prototype, so the lookup
    sees own properties only; reading a property of [null] or [undefined]
    throws. *)
Definition Get (v : JSValue) (k : string) : Completion JSValue :=
  match v with
  | JUndefined | JNull => Throw TypeError
  | JObject fields => Normal (default JUndefined (own_property k fields))
  | _ => Normal JUndefined
  end.

(** The string conversion of a template literal [`${v}`]. An integer
    prints in decimal (as the script prints it below [10 ^ 21], which
    covers unix seconds). An array joins its elements with commas; an
    object prints as [[object Object]] unless it carries an own [toString]
    data property, which is not callable and leaves no primitive to
    convert to. *)
Fixpoint ToString (v : JSValue) : Completion string :=
  match v with
  | JUndefined => Normal "undefined"
  | JNull => Normal "null"
  | JBool b => Normal (if b then "true" else "false")
  | JNumber n => Normal (pretty n)
  | JString s => Normal s
  | JArray items =>
      (fix join (l : list JSValue) : Completion string :=
         match l with
         | [] => Normal ""
         | x :: rest =>
             sx ← match x with
                  | JUndefined | JNull => Normal ""
                  | _ => ToString x
                  end;
             match rest with
             | [] => Normal sx
             | _ => sr ← join rest; Normal (sx +:+ "," +:+ sr)
             end
         end) items
  | JObject fields =>
      match own_property "toString" fields with
      | Some _ => Throw TypeError
      | None => Normal "[object Object]"
      end
  end.

(** The condition of an [if (v)]. *)
Definition ToBoolean (v : JSValue) : bool :=
  match v with
  | JUndefined | JNull => false
  | JBool b => b
  | JNumber n => negb (n =? 0)
  | JString s => negb (String.eqb s "")
  | JArray _ | JObject _ => true
  end.

(** [v.substring(0, 50)]: only a string has a callable [substring]. *)
Definition substring_0_50 (v : JSValue) : Completion string :=
  match v with
  | JString s => Normal (String.substring 0 50 s)
  | _ => Throw TypeError
  end.

(** ** Log events on the wire *)

Record LogEvent := {
  timestamp : Z;
  level : string;
  message : string
}.

Definition toJS (e : LogEvent) : JSValue :=
  JObject [("timestamp", JNumber (timestamp e));
           ("level", JString (level e));
           ("message", JString (message e))].

(** [`${log.timestamp}-${log.level}-${log.message.substring(0, 50)}`] *)
Definition logId_of (log : JSValue) : Completion string :=
  ts ← Get log "timestamp";
  ts_s ← ToString ts;
  lv ← Get log "level";
  lv_s ← ToString lv;
  msg ← Get log "message";
  m50 ← substring_0_50 msg;
  Normal (ts_s +:+ "-" +:+ lv_s +:+ "-" +:+ m50).

(** ** The [#logs] element *)

(** A rendered [div.log-entry]. [created_from] is the object handed to
    [addLogEntry] when the node was created; it stands for the identity of
    the node and is not read by the script. *)
Record Element := {
  created_from : JSValue;
  className : string;
  innerHTML : string
}.

(** The container: its element children, oldest first, and the part of
    its geometry the script reads. *)
Record LogsEl := {
  children : list Element;
  scrollTop : Z;
  clientHeight : Z
}.

Inductive ReadyState := CONNECTING | OPEN | CLOSING | CLOSED.

#[global] Instance ReadyState_eq_dec : EqDecision ReadyState.
Proof. solve_decision. Defined.

Inductive Callback := CbInitWebSocket | CbPoll.

#[global] Instance Callback_eq_dec : EqDecision Callback.
Proof. solve_decision. Defined.

(** A pending timer: [setTimeout] leaves [period = None], [setInterval]
    the period after which it is armed again. *)
Record Timer := {
  due : Z;
  callback : Callback;
  period : option Z
}.

(** Calls to the outside world, in program order. *)
Inductive Effect :=
| ConsoleLog (msg : string)
| ConsoleWarn (msg : string) (arg : string)
| ConsoleError (msg : string) (err : option JSError)
| NewWebSocket (url : string)
| SetTimeout (cb : Callback) (delay : Z)
| Fetch (url : string)
| AppendChild (e : Element)
| SetScrollTop (v : Z)
| RemoveChild (e : Element)
| ReportUncaught (err : JSError).

Record Page := {
  ws : option ReadyState;          (* let ws = null; the socket's readyState *)
  displayedLogIds : gset string;   (* let displayedLogIds = new Set() *)
  autoscrollEnabled : bool;        (* let autoscrollEnabled = true *)
  logsEl : option LogsEl;          (* document.getElementById('logs') *)
  now : Z;                         (* milliseconds since the script started *)
  timers : list Timer;
  inflight : nat                   (* fetches of /api/logs not yet settled *)
}.

Record Outcome := {
  post : Page;
  effects : list Effect;
  thrown : option JSError
}.

Definition returns (s : Page) (fx : list Effect) : Outcome :=
  {| post := s; effects := fx; thrown := None |}.

Definition throws (s : Page) (fx : list Effect) (e : JSError) : Outcome :=
  {| post := s; effects := fx; thrown := Some e |}.

Definition set_ws (r : option ReadyState) (s : Page) : Page :=
  {| ws := r; displayedLogIds := displayedLogIds s;
     autoscrollEnabled := autoscrollEnabled s; logsEl := logsEl s;
     now := now s; timers := timers s; inflight := inflight s |}.

Definition set_displayedLogIds (ids : gset string) (s : Page) : Page :=
  {| ws := ws s; displayedLogIds := ids;
     autoscrollEnabled := autoscrollEnabled s; logsEl := logsEl s;
     now := now s; timers := timers s; inflight := inflight s |}.

Definition set_autoscrollEnabled (b : bool) (s : Page) : Page :=
  {| ws := ws s; displayedLogIds := displayedLogIds s;
     autoscrollEnabled := b; logsEl := logsEl s;
     now := now s; timers := timers s; inflight := inflight s |}.

Definition set_logsEl (el : option LogsEl) (s : Page) : Page :=
  {| ws := ws s; displayedLogIds := displayedLogIds s;
     autoscrollEnabled := autoscrollEnabled s; logsEl := el;
     now := now s; timers := timers s; inflight := inflight s |}.

Definition set_now (t : Z) (s : Page) : Page :=
  {| ws := ws s; displayedLogIds := displayedLogIds s;
     autoscrollEnabled := autoscrollEnabled s; logsEl := logsEl s;
     now := t; timers := timers s; inflight := inflight s |}.

Definition set_timers (ts : list Timer) (s : Page) : Page :=
  {| ws := ws s; displayedLogIds := displayedLogIds s;
     autoscrollEnabled := autoscrollEnabled s; logsEl := logsEl s;
     now := now s; timers := ts; inflight := inflight s |}.

Definition set_inflight (n : nat) (s : Page) : Page :=
  {| ws := ws s; displayedLogIds := displayedLogIds s;
     autoscrollEnabled := autoscrollEnabled s; logsEl := logsEl s;
     now := now s; timers := timers s; inflight := n |}.

(** The DisplayBuffer: [logsEl.children], nothing when the element does
    not exist. *)
Definition buffer (s : Page) : list Element :=
  match logsEl s with
  | Some el => children el
  | None => []
  end.

Definition dquote : string := String (ascii_of_nat 34) EmptyString.

(** ** The uptime label *)

(** [parts.join(' ')] *)
Fixpoint join_space (parts : list string) : string :=
  match parts with
  | [] => ""
  | p :: rest =>
      match rest with
      | [] => p
      | _ => p +:+ " " +:+ join_space rest
      end
  end.

(** [function formatUptime(seconds)] for a whole number of seconds:
    [Math.floor(a / b)] is the floored quotient, [a % b] the remainder
    that takes the sign of [a]. The numbers of the script are doubles:
    the embedding computes what the script computes for seconds below
    [2 ^ 53] in absolute value, where the arithmetic is exact and a
    number prints in decimal (from [10 ^ 21] on it prints with an
    exponent). *)
Definition formatUptime (seconds : Z) : string :=
  if seconds =? 0 then "0s"
  else
    let days := seconds / (24 * 3600) in
    let seconds := Z.rem seconds (24 * 3600) in
    let hours := seconds / 3600 in
    let seconds := Z.rem seconds 3600 in
    let minutes := seconds / 60 in
    let secs := Z.rem seconds 60 in
    let parts := [] in
    let parts :=
      if 0 <? days then parts ++ [pretty days +:+ "d"] else parts in
    let parts :=
      if 0 <? hours then parts ++ [pretty hours +:+ "h"] else parts in
    let parts :=
      if 0 <? minutes then parts ++ [pretty minutes +:+ "m"] else parts in
    let parts :=
      if (0 <? secs) || (length parts =? 0)%nat
      then parts ++ [pretty secs +:+ "s"] else parts in
    join_space parts.

(** An uptime given by its days, hours, minutes and seconds. *)
Definition uptime_of (d h m s : Z) : Z :=
  d * 86400 + h * 3600 + m * 60 + s.

(** A number with its unit; nothing for zero. *)
Definition part (n : Z) (unit : string) : list string :=
  if 0 <? n then [pretty n +:+ unit] else [].

(** The label as a list of numbers with their units, for reading it
    back. *)
Definition token (t : Z * ascii) : string :=
  pretty (fst t) +:+ String (snd t) "".

Definition tok (n : Z) (unit : ascii) : list (Z * ascii) :=
  if 0 <? n then [(n, unit)] else [].

Definition uptime_tokens (d h m s : Z) : list (Z * ascii) :=
  let front := tok d "d" ++ tok h "h" ++ tok m "m" in
  if (0 <? s) || (length front =? 0)%nat
  then front ++ [(s, "s"%char)] else front.

(** The number in front of a unit, zero when the unit does not occur. *)
Fixpoint value_of (unit : ascii) (ts : list (Z * ascii)) : Z :=
  match ts with
  | [] => 0
  | (n, u) :: rest => if Ascii.eqb u unit then n else value_of unit rest
  end.

(** ** The library table

    [libraryData] and [libraryPage] are the two signals of the script,
    [library_list] and [library_pagination] what has been assigned to the
    [innerHTML] of [#library-list] and [#library-pagination] ([None] when
    the element does not exist). The library is an array. *)

Record Library := {
  libraryData : list JSValue;
  libraryPage : Z;
  library_list : option string;
  library_pagination : option string;
  library_table : bool                 (* #library-table exists *)
}.

Definition LIBRARY_PAGE_SIZE : Z := 50.

(** [a.slice(start, end)] for whole numbers: a negative index counts from
    the end of the array, and both are clamped to it. *)
Definition js_slice {A} (start end_ : Z) (a : list A) : list A :=
  let len := Z.of_nat (length a) in
  let k := if start <? 0 then Z.max (len + start) 0 else Z.min start len in
  let final := if end_ <? 0 then Z.max (len + end_) 0 else Z.min end_ len in
  take (Z.to_nat (final - k)) (drop (Z.to_nat k) a).

(** Lines 766-768: the items of a page. *)
Definition pageData (page : Z) (data : list JSValue) : list JSValue :=
  let start := (page - 1) * LIBRARY_PAGE_SIZE in
  let end_ := start + LIBRARY_PAGE_SIZE in
  js_slice start end_ data.

(** [Math.ceil(libraryData.value.length / LIBRARY_PAGE_SIZE)] *)
Definition totalPages (data : list JSValue) : Z :=
  - ((- Z.of_nat (length data)) / LIBRARY_PAGE_SIZE).

(** [items.map(row).join('')]: the first row that throws ends it. *)
Fixpoint map_join (row : JSValue -> Completion string) (items : list JSValue)
  : Completion string :=
  match items with
  | [] => Normal ""
  | x :: rest =>
      r ← row x;
      rs ← map_join row rest;
      Normal (r +:+ rs)
  end.

Definition newline : string := String (ascii_of_nat 10) EmptyString.

Definition empty_library_row : string :=
  "<tr><td colspan=" +:+ dquote +:+ "6" +:+ dquote +:+ " style=" +:+ dquote
  +:+ "text-align: center; color: var(--text-muted);" +:+ dquote
  +:+ ">Library is empty</td></tr>".

Definition page_button (disabled : bool) (delta label : string) : string :=
  "<button class=" +:+ dquote +:+ "page-btn" +:+ dquote +:+ " "
  +:+ (if disabled then "disabled" else "")
  +:+ " onclick=" +:+ dquote +:+ "changeLibraryPage(" +:+ delta +:+ ")"
  +:+ dquote +:+ ">" +:+ label +:+ "</button>".

(** Lines 789-793. *)
Definition pagination_html (page total count : Z) : string :=
  newline +:+ "        " +:+ page_button (page =? 1) "-1" "Previous"
  +:+ newline +:+ "        <span class=" +:+ dquote +:+ "page-info" +:+ dquote
  +:+ ">Page " +:+ pretty page +:+ " of " +:+ pretty total +:+ " ("
  +:+ pretty count +:+ " items)</span>"
  +:+ newline +:+ "        " +:+ page_button (page =? total) "1" "Next"
  +:+ newline +:+ "    ".

Definition set_library_html (list pagination : string) (v : Library)
  : Library :=
  {| libraryData := libraryData v; libraryPage := libraryPage v;
     library_list := Some list; library_pagination := Some pagination;
     library_table := library_table v |}.

(** [function renderLibraryPage()]; [row] is the template of one table
    row, which reads the properties of the item and may throw. When it
    does, nothing has been assigned yet. *)
Definition renderLibraryPage (row : JSValue -> Completion string)
           (v : Library) : Completion Library :=
  match library_list v, library_pagination v with
  | Some _, Some _ =>
      if (length (libraryData v) =? 0)%nat
      then Normal (set_library_html empty_library_row "" v)
      else
        rows ← map_join row (pageData (libraryPage v) (libraryData v));
        Normal (set_library_html rows
                  (pagination_html (libraryPage v)
                     (totalPages (libraryData v))
                     (Z.of_nat (length (libraryData v))))
                  v)
  | _, _ => Normal v
  end.

(** [function changeLibraryPage(delta)]: the page it leaves, and the
    [TypeError] of calling [scrollIntoView] on [null] when there is no
    [#library-table]. The function itself assigns no [innerHTML]; the
    rendering that the signal effect of line 46 performs when
    [libraryPage] changes is [renderLibraryPage] on the page it leaves. *)
Definition changeLibraryPage (delta : Z) (v : Library)
  : Library * option JSError :=
  ({| libraryData := libraryData v; libraryPage := libraryPage v + delta;
      library_list := library_list v;
      library_pagination := library_pagination v;
      library_table := library_table v |},
   if library_table v then None else Some TypeError).

(** [function updateLibraryList(library)] *)
Definition updateLibraryList (library : list JSValue) (v : Library)
  : Library :=
  {| libraryData := library; libraryPage := 1;
     library_list := library_list v;
     library_pagination := library_pagination v;
     library_table := library_table v |}.

(** ** The script *)

Section Pipeline.

Set Default Proof Using "Type".

(** [window.location.protocol] and [window.location.host]. *)
Variable location_protocol location_host : string.

(** [JSON.parse]: [None] when it throws a [SyntaxError]. *)
Variable JSON_parse : string -> option JSValue.

(** [new Date(v * 1000).toLocaleTimeString()], which depends on the
    locale and the time zone of the browser. For a value that the key
    derivation could convert to a string the product does not throw. *)
Variable localeTime : JSValue -> string.

(** The height the browser lays the entries out in. *)
Variable contentHeight : list Element -> Z.

(** [el.scrollHeight] is never below [el.clientHeight]. *)
Definition scrollHeight (el : LogsEl) : Z :=
  Z.max (clientHeight el) (contentHeight (children el)).

(** [el.scrollTop = v]: the browser clamps the offset to the scrollable
    range. *)
Definition assign_scrollTop (v : Z) (el : LogsEl) : LogsEl :=
  {| children := children el;
     scrollTop := Z.max 0 (Z.min v (scrollHeight el - clientHeight el));
     clientHeight := clientHeight el |}.

Definition appendChild (e : Element) (el : LogsEl) : LogsEl :=
  {| children := children el ++ [e];
     scrollTop := scrollTop el;
     clientHeight := clientHeight el |}.

Definition with_children (cs : list Element) (el : LogsEl) : LogsEl :=
  {| children := cs;
     scrollTop := scrollTop el;
     clientHeight := clientHeight el |}.

(** Lines 149-152: the [div] built for a log. *)
Definition createEntry (log : JSValue) : Completion Element :=
  ts ← Get log "timestamp";
  let time := localeTime ts in
  lv ← Get log "level";
  lv_s ← ToString lv;
  msg ← Get log "message";
  msg_s ← ToString msg;
  Normal {| created_from := log;
            className := "log-entry log-" +:+ lv_s;
            innerHTML := "<span class=" +:+ dquote +:+ "log-time" +:+ dquote
                         +:+ ">" +:+ time +:+ "</span> [" +:+ lv_s +:+ "] "
                         +:+ msg_s |}.

(** [while (logsEl.children.length > 500) logsEl.removeChild(logsEl.firstChild)]:
    what stays, and the removals in order. *)
Fixpoint evict (cs : list Element) : list Element * list Effect :=
  match cs with
  | [] => ([], [])
  | first :: rest =>
      if (500 <? length cs)%nat
      then let '(kept, fx) := evict rest in (kept, RemoveChild first :: fx)
      else (cs, [])
  end.

(** [function addLogEntry(log)] *)
Definition addLogEntry (log : JSValue) (s : Page) : Outcome :=
  match logsEl s with
  | None => returns s []
  | Some el =>
      let isAtBottom :=
        scrollHeight el - scrollTop el <=? clientHeight el + 100 in
      let isEmpty := (length (children el) =? 0)%nat in
      match logId_of log with
      | Throw e => throws s [] e
      | Normal logId =>
          if bool_decide (logId ∈ displayedLogIds s) then returns s []
          else
            let s1 := set_displayedLogIds ({[logId]} ∪ displayedLogIds s) s in
            match createEntry log with
            | Throw e => throws s1 [] e
            | Normal entry =>
                let el1 := appendChild entry el in
                let scroll := autoscrollEnabled s && (isAtBottom || isEmpty) in
                let el2 :=
                  if scroll then assign_scrollTop (scrollHeight el1) el1
                  else el1 in
                let fx2 :=
                  if scroll then [SetScrollTop (scrollHeight el1)] else [] in
                let '(kept, fx3) := evict (children el2) in
                returns (set_logsEl (Some (with_children kept el2)) s1)
                        (AppendChild entry :: fx2 ++ fx3)
            end
      end
  end.

(** [function initWebSocket()]; [ctor] is what [new WebSocket(wsUrl)]
    does: [None] when it returns the socket, [Some e] when it throws. *)
Definition wsUrl : string :=
  (if String.eqb location_protocol "https:" then "wss:" else "ws:")
  +:+ "//" +:+ location_host +:+ "/ws/logs".

Definition initWebSocket (ctor : option JSError) (s : Page) : Outcome :=
  let connecting :=
    ConsoleLog ("[Dashboard] Connecting to WebSocket: " +:+ wsUrl) in
  match ctor with
  | None => returns (set_ws (Some CONNECTING) s) [connecting; NewWebSocket wsUrl]
  | Some e =>
      returns s [connecting; NewWebSocket wsUrl;
                 ConsoleError "[Dashboard] WS Init Error" (Some e)]
  end.

Definition ws_onopen (s : Page) : Outcome :=
  returns s [ConsoleLog "[Dashboard] WebSocket connected"].

Definition ws_onmessage (data : string) (s : Page) : Outcome :=
  match JSON_parse data with
  | None => throws s [] SyntaxError
  | Some log => addLogEntry log s
  end.

Definition reconnect_timer (s : Page) : Timer :=
  {| due := now s + 3000; callback := CbInitWebSocket; period := None |}.

Definition ws_onclose (reason : string) (s : Page) : Outcome :=
  returns (set_timers (timers s ++ [reconnect_timer s]) s)
          [ConsoleWarn "[Dashboard] WebSocket closed, retrying in 3s..." reason;
           SetTimeout CbInitWebSocket 3000].

Definition ws_onerror (s : Page) : Outcome :=
  returns s [ConsoleError "[Dashboard] WebSocket error:" None].

(** *** Fallback polling *)

(** What [await fetch('/api/logs')] settles to: a rejection, or a
    response with its status and what [res.json()] settles to. *)
Inductive FetchResult :=
| Rejected (e : JSError)
| Response (status : Z) (json : Completion JSValue).

(** [res.ok] *)
Definition res_ok (status : Z) : bool :=
  (200 <=? status) && (status <=? 299).

(** [!ws || ws.readyState !== WebSocket.OPEN] *)
Definition poll_guard (s : Page) : bool :=
  match ws s with
  | None => true
  | Some r => negb (bool_decide (r = OPEN))
  end.

(** The callback up to its first [await]. *)
Definition poll_tick (s : Page) : Outcome :=
  if poll_guard s
  then returns (set_inflight (S (inflight s)) s) [Fetch "/api/logs"]
  else returns s [].

(** [items.forEach(log => addLogEntry(log))]: an exception ends the loop. *)
Fixpoint forEach_addLogEntry (items : list JSValue) (s : Page) : Outcome :=
  match items with
  | [] => returns s []
  | log :: rest =>
      let o := addLogEntry log s in
      match thrown o with
      | Some e => o
      | None =>
          let o' := forEach_addLogEntry rest (post o) in
          {| post := post o'; effects := effects o ++ effects o';
             thrown := thrown o' |}
      end
  end.

(** The [try] block after the fetch has settled. *)
Definition poll_try (r : FetchResult) (s : Page) : Outcome :=
  match r with
  | Rejected e => throws s [] e
  | Response status json =>
      if res_ok status then
        match json with
        | Throw e => throws s [] e
        | Normal data =>
            match Get data "logs" with
            | Throw e => throws s [] e
            | Normal logs =>
                if ToBoolean logs then
                  match logs with
                  | JArray items => forEach_addLogEntry items s
                  | _ => throws s [] TypeError
                  end
                else returns s []
            end
        end
      else returns s []
  end.

(** The rest of the callback, with its [catch]. *)
Definition poll_settled (r : FetchResult) (s : Page) : Outcome :=
  let o := poll_try r (set_inflight (Nat.pred (inflight s)) s) in
  match thrown o with
  | Some e =>
      returns (post o)
              (effects o ++ [ConsoleError "[Dashboard] Polling failed" (Some e)])
  | None => o
  end.

(** *** The autoscroll toggle *)

Definition toggle_onchange (checked : bool) (s : Page) : Outcome :=
  let s1 := set_autoscrollEnabled checked s in
  if checked then
    match logsEl s1 with
    | Some el =>
        returns (set_logsEl (Some (assign_scrollTop (scrollHeight el) el)) s1)
                [SetScrollTop (scrollHeight el)]
    | None => returns s1 []
    end
  else returns s1 [].

(** *** The event loop *)

Inductive Event :=
| Elapse (dt : Z)
| TimerFires (i : nat) (ctor : option JSError)
| SocketOpens
| SocketMessage (data : string)
| SocketError
| SocketCloses (reason : string)
| FetchSettles (r : FetchResult)
| ToggleChanges (checked : bool).

(** An exception that leaves a handler is reported on the console and
    the loop goes on. *)
Definition report (o : Outcome) : Page * list Effect :=
  (post o,
   effects o ++ match thrown o with
                | Some e => [ReportUncaught e]
                | None => []
                end).

Definition run_callback (cb : Callback) (ctor : option JSError) (s : Page)
  : Outcome :=
  match cb with
  | CbInitWebSocket => initWebSocket ctor s
  | CbPoll => poll_tick s
  end.

(** A timeout is dropped when it fires, an interval is armed again. *)
Definition rearm (i : nat) (t : Timer) (s : Page) : Page :=
  match period t with
  | None => set_timers (delete i (timers s)) s
  | Some p =>
      set_timers (<[i := {| due := now s + p; callback := callback t;
                            period := Some p |}]> (timers s)) s
  end.

(** One turn of the loop; [None] when the browser cannot deliver the
    event in this state (a timer before it is due, a frame on a socket
    that is not open, ...). *)
Definition dispatch (ev : Event) (s : Page) : option (Page * list Effect) :=
  match ev with
  | Elapse dt =>
      if 0 <=? dt then Some (set_now (now s + dt) s, []) else None
  | TimerFires i ctor =>
      match timers s !! i with
      | Some t =>
          if due t <=? now s
          then Some (report (run_callback (callback t) ctor (rearm i t s)))
          else None
      | None => None
      end
  | SocketOpens =>
      match ws s with
      | Some CONNECTING => Some (report (ws_onopen (set_ws (Some OPEN) s)))
      | _ => None
      end
  | SocketMessage data =>
      match ws s with
      | Some OPEN => Some (report (ws_onmessage data s))
      | _ => None
      end
  | SocketError =>
      match ws s with
      | Some CONNECTING | Some OPEN | Some CLOSING =>
          Some (report (ws_onerror s))
      | _ => None
      end
  | SocketCloses reason =>
      match ws s with
      | Some CONNECTING | Some OPEN | Some CLOSING =>
          Some (report (ws_onclose reason (set_ws (Some CLOSED) s)))
      | _ => None
      end
  | FetchSettles r =>
      match inflight s with
      | O => None
      | S _ => Some (report (poll_settled r s))
      end
  | ToggleChanges checked => Some (report (toggle_onchange checked s))
  end.

(** A run of the loop, with the effects of its turns in order. *)
Fixpoint run (evs : list Event) (s : Page) : option (Page * list Effect) :=
  match evs with
  | [] => Some (s, [])
  | ev :: rest =>
      match dispatch ev s with
      | None => None
      | Some (s1, fx1) =>
          match run rest s1 with
          | None => None
          | Some (s2, fx2) => Some (s2, fx1 ++ fx2)
          end
      end
  end.

(** The page once the script has been evaluated: the poll interval is
    armed, nothing else has happened. *)
Definition poll_interval : Timer :=
  {| due := 10000; callback := CbPoll; period := Some 10000 |}.

Definition script_loaded (logs : option LogsEl) : Page :=
  {| ws := None; displayedLogIds := ∅; autoscrollEnabled := true;
     logsEl := logs; now := 0; timers := [poll_interval]; inflight := 0 |}.

(** The first [DOMContentLoaded] listener calls [initWebSocket()]. *)
Definition DOMContentLoaded (ctor : option JSError) (s : Page) : Outcome :=
  initWebSocket ctor s.

(** *** Vocabulary of the properties *)

(** The derived key of a well-formed event. *)
Definition logId (e : LogEvent) : string :=
  pretty (timestamp e) +:+ "-" +:+ level e +:+ "-"
  +:+ String.substring 0 50 (message e).

(** The entry a well-formed event is rendered as. *)
Definition entry_of (e : LogEvent) : Element :=
  {| created_from := toJS e;
     className := "log-entry log-" +:+ level e;
     innerHTML := "<span class=" +:+ dquote +:+ "log-time" +:+ dquote
                  +:+ ">" +:+ localeTime (JNumber (timestamp e))
                  +:+ "</span> [" +:+ level e +:+ "] " +:+ message e |}.

(** Accepting a sequence of logs one after the other. *)
Definition accept_all (logs : list JSValue) (s : Page) : Page :=
  fold_left (fun s log => post (addLogEntry log s)) logs s.

(** The last [n] elements of a list. *)
Definition lastn {A} (n : nat) (l : list A) : list A :=
  drop (length l - n) l.

(** The viewport is within 100 pixels of the bottom. *)
Definition near_bottom (el : LogsEl) : Prop :=
  scrollHeight el - scrollTop el <= clientHeight el + 100.

(** The offset at which the last line is in view. *)
Definition bottom (el : LogsEl) : Z := scrollHeight el - clientHeight el.

Definition scrolled (fx : list Effect) : Prop :=
  exists v, In (SetScrollTop v) fx.

Definition is_connect (fx : Effect) : bool :=
  match fx with NewWebSocket _ => true | _ => false end.

Definition is_fetch (fx : Effect) : bool :=
  match fx with Fetch _ => true | _ => false end.

(** A socket on which the browser may still fire [close]. *)
Definition live (s : Page) : Prop :=
  ws s = Some CONNECTING \/ ws s = Some OPEN \/ ws s = Some CLOSING.

(** A pull that did not deliver: the fetch rejected, or the status is
    outside 200..299. *)
Definition fetch_failed (r : FetchResult) : Prop :=
  match r with
  | Rejected _ => True
  | Response status _ => res_ok status = false
  end.

(** The decision of line 156, taken on the element as it was before the
    entry was appended. *)
Definition will_scroll (s : Page) (el : LogsEl) : bool :=
  autoscrollEnabled s
  && ((scrollHeight el - scrollTop el <=? clientHeight el + 100)
      || (length (children el) =? 0)%nat).

(** The element after a novel entry went through lines 153-162. *)
Definition after_append (scroll : bool) (en : Element) (el : LogsEl)
  : LogsEl :=
  let el1 := appendChild en el in
  with_children (lastn 500 (children el1))
    (if scroll then assign_scrollTop (scrollHeight el1) el1 else el1).

(** Decimal digits, for the shape of a printed timestamp. *)
Definition is_digit (c : ascii) : bool :=
  (48 <=? nat_of_ascii c)%nat && (nat_of_ascii c <=? 57)%nat.

Fixpoint all_digits (s : string) : bool :=
  match s with
  | EmptyString => true
  | String c rest => is_digit c && all_digits rest
  end.

(** Timestamps strictly increasing along the list. *)
Fixpoint increasing (es : list LogEvent) : bool :=
  match es with
  | e1 :: rest =>
      match rest with
      | e2 :: _ => (timestamp e1 <? timestamp e2) && increasing rest
      | [] => true
      end
  | [] => true
  end.

(** How many sockets, and how many fetches, a list of effects opens. *)
Definition connects (fx : list Effect) : nat :=
  length (List.filter is_connect fx).

Definition fetches (fx : list Effect) : nat :=
  length (List.filter is_fetch fx).

(** The failure of a pull shows on the console. *)
Definition poll_failure_logged (r : FetchResult) (s : Page) : Prop :=
  exists msg err, In (ConsoleError msg err) (effects (poll_settled r s)).

(** Close, wait three seconds, let the reconnect timer (at index [i])
    fire; and [n] such rounds in a row. *)
Definition reconnect_round (i : nat) (reason : string) : list Event :=
  [SocketCloses reason; Elapse 3000; TimerFires i None].

Fixpoint reconnect_rounds (n i : nat) (reason : string) : list Event :=
  match n with
  | O => []
  | S n' => reconnect_round i reason ++ reconnect_rounds n' i reason
  end.

(** No reconnect is pending. *)
Definition no_reconnect_pending (s : Page) : Prop :=
  Forall (fun t => callback t <> CbInitWebSocket) (timers s).

(** Every pending reconnect is a one-shot timer due at [T] or later, and
    the clock has not gone back behind [T - 3000]. *)
Definition reconnects_not_before (T : Z) (s : Page) : Prop :=
  T - 3000 <= now s
  /\ Forall (fun t => callback t = CbInitWebSocket ->
                      period t = None /\ T <= due t) (timers s).

(** The poll interval due at [d], and a reconnect timeout due at [d]. *)
Definition poll_at (d : Z) : Timer :=
  {| due := d; callback := CbPoll; period := Some 10000 |}.

Definition reconnect_at (d : Z) : Timer :=
  {| due := d; callback := CbInitWebSocket; period := None |}.

(** The poll interval is armed (it is the first timer the script sets). *)
Definition poll_armed (s : Page) : Prop :=
  exists d, timers s !! 0%nat = Some (poll_at d).

(** The timers of a page reached from a load: the poll interval, followed
    by one reconnect timer while a closed socket waits to be replaced. *)
Definition timers_in_shape (s : Page) : Prop :=
  (exists d, timers s = [poll_at d])
  \/ (exists d d', timers s = [poll_at d; reconnect_at d']
                   /\ ws s = Some CLOSED).

(** The container is missing and nothing has been recorded. *)
Definition nothing_recorded (s : Page) : Prop :=
  logsEl s = None /\ displayedLogIds s = ∅.

(** The key of the log an entry was created from. *)
Definition entry_key (en : Element) : Completion string :=
  logId_of (created_from en).

(** Every displayed entry was created from a log with a key, that key is
    in the seen-set, and no two displayed entries have the same key. *)
Definition keys_consistent (s : Page) : Prop :=
  NoDup (map entry_key (buffer s))
  /\ Forall (fun en => exists k, entry_key en = Normal k
                                 /\ k ∈ displayedLogIds s) (buffer s).

(** A log the key derivation succeeds on. *)
Definition keyed (log : JSValue) : Prop :=
  exists k, logId_of log = Normal k.

Definition is_removal (fx : Effect) : bool :=
  match fx with RemoveChild _ => true | _ => false end.

Definition is_dash (c : ascii) : bool := Ascii.eqb c "-".

(** A string without the separator of the key. *)
Fixpoint no_dash (s : string) : bool :=
  match s with
  | EmptyString => true
  | String c rest => negb (is_dash c) && no_dash rest
  end.

(** A pull that hands logs to [addLogEntry]: a 2xx response whose body is
    an object with an array under [logs]. *)
Definition delivers (r : FetchResult) : option (list JSValue) :=
  match r with
  | Response status (Normal (JObject fields)) =>
      if res_ok status then
        match own_property "logs" fields with
        | Some (JArray items) => Some items
        | _ => None
        end
      else None
  | _ => None
  end.

(** The socket is gone for good: none is live and no reconnect is
    pending. *)
Definition given_up (s : Page) : Prop :=
  (ws s = None \/ ws s = Some CLOSED) /\ no_reconnect_pending s.

(** The scroll offset of the container, if there is one. *)
Definition scroll_offset (s : Page) : option Z :=
  match logsEl s with
  | Some el => Some (scrollTop el)
  | None => None
  end.

(** A token of the uptime label that can be read back: the number is
    not negative and the unit is not a digit. *)
Definition token_ok (t : Z * ascii) : Prop :=
  0 <= fst t /\ is_digit (snd t) = false.

(** *** Sample data *)

Definition event_A : LogEvent :=
  {| timestamp := 1000; level := "info"; message := "A" |}.

Definition fifty : string :=
  "0123456789012345678901234567890123456789012345678-".

Definition event_long1 : LogEvent :=
  {| timestamp := 1700000000; level := "error"; message := fifty +:+ "disk full" |}.

Definition event_long2 : LogEvent :=
  {| timestamp := 1700000000; level := "error"; message := fifty +:+ "quota reached" |}.

(** Event number [i]: timestamp [1000 + i] and a message of its own. *)
Definition event_nr (i : nat) : LogEvent :=
  {| timestamp := 1000 + Z.of_nat i; level := "info";
     message := "msg " +:+ pretty i |}.

Definition events_from (i n : nat) : list LogEvent :=
  map event_nr (seq i n).

(** A browser for the examples: every entry is 20 pixels high, the time
    of day is printed as the number itself, and the only frame that
    parses is the one carrying [event_A]. *)
Definition sample_height (cs : list Element) : Z := 20 * Z.of_nat (length cs).

Definition sample_time (v : JSValue) : string :=
  match v with JNumber n => pretty n | _ => "Invalid Date" end.

Definition quoted (s : string) : string := dquote +:+ s +:+ dquote.

Definition frame_A : string :=
  "{" +:+ quoted "timestamp" +:+ ":1000," +:+ quoted "level" +:+ ":"
  +:+ quoted "info" +:+ "," +:+ quoted "message" +:+ ":" +:+ quoted "A"
  +:+ "}".

Definition sample_parse (data : string) : option JSValue :=
  if String.eqb data frame_A then Some (toJS event_A) else None.

Definition empty_logs : LogsEl :=
  {| children := []; scrollTop := 0; clientHeight := 300 |}.

(** The entry of an event as that browser renders it. *)
Definition sample_entry (e : LogEvent) : Element :=
  {| created_from := toJS e;
     className := "log-entry log-" +:+ level e;
     innerHTML := "<span class=" +:+ quoted "log-time" +:+ ">"
                  +:+ pretty (timestamp e) +:+ "</span> [" +:+ level e
                  +:+ "] " +:+ message e |}.

(** Thirty entries, 600 pixels of them in a viewport of 300, and a reader
    who has scrolled back to the top. *)
Definition reading_logs : LogsEl :=
  {| children := map sample_entry (events_from 0 30);
     scrollTop := 0; clientHeight := 300 |}.

Definition reading_page : Page :=
  {| ws := Some OPEN;
     displayedLogIds := list_to_set (map logId (events_from 0 30));
     autoscrollEnabled := true; logsEl := Some reading_logs;
     now := 60000; timers := [poll_interval]; inflight := 0 |}.

(** A page whose socket is open, ten seconds after the script started. *)
Definition open_page : Page :=
  set_now 10000 (set_ws (Some OPEN) (script_loaded (Some empty_logs))).

(** A response with one event in its [logs] array. *)
Definition logs_response (status : Z) (e : LogEvent) : FetchResult :=
  Response status (Normal (JObject [("logs", JArray [toJS e])])).

(** The scenario of a redelivery: the socket opens and delivers
    [event_A], it closes, three seconds later the reconnect timer fires,
    at the ten second mark the poll interval fires while the new socket
    is still connecting, and the pull returns [event_A] again. *)
Definition redelivery : list Event :=
  [SocketOpens; SocketMessage frame_A; SocketCloses "gone";
   Elapse 3000; TimerFires 1 None; Elapse 7000; TimerFires 0 None;
   FetchSettles (logs_response 200 event_A)].

(** A log without a message. *)
Definition log_without_message : JSValue :=
  JObject [("timestamp", JNumber 1001); ("level", JString "info")].

(** A poll and what follows it on a page without a socket: ten seconds
    pass, the interval fires, the pull returns [event_A], and the reader
    unticks autoscroll. *)
Definition polling_alone : list Event :=
  [Elapse 10000; TimerFires 0 None; FetchSettles (logs_response 200 event_A);
   ToggleChanges false].

(** A library of 120 items, a row template that prints the item between
    [<tr>] tags, and the view on its third page. *)
Definition sample_library : list JSValue :=
  map (fun i => JNumber (Z.of_nat i)) (seq 0 120).

Definition sample_row (item : JSValue) : Completion string :=
  str ← ToString item; Normal ("<tr>" +:+ str +:+ "</tr>").

Definition sample_library_view : Library :=
  {| libraryData := sample_library; libraryPage := 3;
     library_list := Some ""; library_pagination := Some "";
     library_table := true |}.

(** A pull overtaken by the socket: the first tick finds the socket
    still connecting and starts a fetch; before the response is there
    the socket opens and delivers [event_A]. *)
Definition pull_overtaken : list Event :=
  [Elapse 10000; TimerFires 0 None; SocketOpens; SocketMessage frame_A].

(** ** Properties *)

(** Drops from the context the parameters of the browser that the goal
    does not speak of. *)
Ltac tidy :=
  try clear location_protocol; try clear location_host;
  try clear JSON_parse; try clear localeTime; try clear contentHeight.

(** *** The key and the entry of a well-formed event *)

Lemma logId_of_toJS (e : LogEvent) : logId_of (toJS e) = Normal (logId e).
Proof. reflexivity. Qed.

Lemma createEntry_toJS (e : LogEvent) :
  createEntry (toJS e) = Normal (entry_of e).
Proof. reflexivity. Qed.

Lemma toJS_inj (e1 e2 : LogEvent) : toJS e1 = toJS e2 -> e1 = e2.
Proof. destruct e1, e2. unfold toJS. cbn. intros H. congruence. Qed.

(** Once the key has been derived, building the entry cannot throw. *)
Lemma createEntry_total (log : JSValue) (k : string) :
  logId_of log = Normal k ->
  exists en, createEntry log = Normal en /\ created_from en = log.
Proof.
  unfold logId_of, createEntry. intros H.
  destruct (Get log "timestamp") as [ts|]; simpl in *; [|discriminate].
  destruct (ToString ts) as [ts_s|]; simpl in *; [|discriminate].
  destruct (Get log "level") as [lv|]; simpl in *; [|discriminate].
  destruct (ToString lv) as [lv_s|]; simpl in *; [|discriminate].
  destruct (Get log "message") as [msg|]; simpl in *; [|discriminate].
  destruct msg; simpl in *; try discriminate.
  eexists; split; reflexivity.
Qed.

(** *** The eviction loop *)

Lemma evict_kept (cs : list Element) :
  fst (evict cs) = lastn 500 cs.
Proof.
  unfold lastn. induction cs as [|x cs IH]; [reflexivity|].
  cbn [evict]. destruct (Nat.ltb_spec 500 (length (x :: cs))) as [Hlt|Hle].
  - destruct (evict cs) as [kept fx]. cbn [fst] in *. rewrite IH.
    cbn [length] in *.
    replace (S (length cs) - 500)%nat with (S (length cs - 500)) by lia.
    reflexivity.
  - cbn [fst]. replace (length (x :: cs) - 500)%nat with 0%nat by lia.
    reflexivity.
Qed.

Lemma evict_removed (cs : list Element) :
  snd (evict cs) = map RemoveChild (take (length cs - 500) cs).
Proof.
  induction cs as [|x cs IH]; [reflexivity|].
  cbn [evict]. destruct (Nat.ltb_spec 500 (length (x :: cs))) as [Hlt|Hle].
  - destruct (evict cs) as [kept fx]. cbn [snd] in *. rewrite IH.
    cbn [length] in *.
    replace (S (length cs) - 500)%nat with (S (length cs - 500)) by lia.
    reflexivity.
  - cbn [snd]. replace (length (x :: cs) - 500)%nat with 0%nat by lia.
    reflexivity.
Qed.

Lemma length_lastn {A} (n : nat) (l : list A) :
  length (lastn n l) = Nat.min (length l) n.
Proof. unfold lastn. rewrite length_drop. lia. Qed.

Lemma lastn_short {A} (n : nat) (l : list A) :
  (length l <= n)%nat -> lastn n l = l.
Proof.
  intros H. unfold lastn. replace (length l - n)%nat with 0%nat by lia.
  reflexivity.
Qed.

(** *** The four ways through [addLogEntry] *)

Lemma addLogEntry_absent (log : JSValue) (s : Page) :
  logsEl s = None -> addLogEntry log s = returns s [].
Proof. intros H. unfold addLogEntry. rewrite H. reflexivity. Qed.

Lemma addLogEntry_throw (log : JSValue) (s : Page) (el : LogsEl) (e : JSError) :
  logsEl s = Some el -> logId_of log = Throw e ->
  addLogEntry log s = throws s [] e.
Proof. intros H1 H2. unfold addLogEntry. rewrite H1, H2. reflexivity. Qed.

Lemma addLogEntry_seen (log : JSValue) (s : Page) (el : LogsEl) (k : string) :
  logsEl s = Some el -> logId_of log = Normal k -> k ∈ displayedLogIds s ->
  addLogEntry log s = returns s [].
Proof.
  intros H1 H2 H3. unfold addLogEntry. rewrite H1, H2.
  rewrite bool_decide_eq_true_2 by assumption. reflexivity.
Qed.

Lemma addLogEntry_novel (log : JSValue) (s : Page) (el : LogsEl) (k : string)
      (en : Element) :
  logsEl s = Some el -> logId_of log = Normal k -> k ∉ displayedLogIds s ->
  createEntry log = Normal en ->
  addLogEntry log s =
  returns (set_logsEl (Some (after_append (will_scroll s el) en el))
                      (set_displayedLogIds ({[k]} ∪ displayedLogIds s) s))
          (AppendChild en
           :: (if will_scroll s el
               then [SetScrollTop (scrollHeight (appendChild en el))]
               else [])
           ++ map RemoveChild
                (take (length (children el ++ [en]) - 500)
                      (children el ++ [en]))).
Proof.
  intros H1 H2 H3 H4. unfold addLogEntry. rewrite H1, H2, H4.
  rewrite bool_decide_eq_false_2 by assumption.
  fold (will_scroll s el). unfold after_append.
  set (el1 := appendChild en el).
  set (el2 := if will_scroll s el then assign_scrollTop (scrollHeight el1) el1
              else el1).
  assert (Hc : children el2 = children el ++ [en]).
  { unfold el2. destruct (will_scroll s el); reflexivity. }
  pose proof (evict_kept (children el2)) as Hk.
  pose proof (evict_removed (children el2)) as Hr.
  destruct (evict (children el2)) as [kept fx3]. cbn [fst snd] in Hk, Hr.
  subst kept fx3. rewrite Hc. reflexivity.
Qed.

Lemma lastn_app_lastn {A} (n : nat) (l k : list A) :
  lastn n (lastn n l ++ k) = lastn n (l ++ k).
Proof.
  destruct (Nat.le_gt_cases (length l) n) as [Hle|Hgt].
  - rewrite (lastn_short n l) by assumption. reflexivity.
  - unfold lastn. rewrite !length_app, length_drop.
    destruct (Nat.le_gt_cases (length k) n) as [Hk|Hk].
    + rewrite !drop_app_le by (rewrite ?length_drop; lia).
      rewrite drop_drop. do 2 f_equal. lia.
    + rewrite !drop_app_ge by (rewrite ?length_drop; lia).
      rewrite length_drop. f_equal. lia.
Qed.

Lemma children_after_append (scroll : bool) (en : Element) (el : LogsEl) :
  children (after_append scroll en el) = lastn 500 (children el ++ [en]).
Proof. destruct scroll; reflexivity. Qed.

(** Every call either leaves the page as it was, or is the novel case. *)
Lemma addLogEntry_cases (log : JSValue) (s : Page) :
  (post (addLogEntry log s) = s /\ effects (addLogEntry log s) = [])
  \/ exists el k en,
      logsEl s = Some el /\ logId_of log = Normal k
      /\ (k ∉ displayedLogIds s) /\ createEntry log = Normal en
      /\ created_from en = log
      /\ post (addLogEntry log s) =
         set_logsEl (Some (after_append (will_scroll s el) en el))
                    (set_displayedLogIds ({[k]} ∪ displayedLogIds s) s).
Proof.
  destruct (logsEl s) as [el|] eqn:Hel.
  2: { left. rewrite addLogEntry_absent by assumption. split; reflexivity. }
  destruct (logId_of log) as [k|e] eqn:Hk.
  2: { left. rewrite (addLogEntry_throw log s el e) by assumption.
       split; reflexivity. }
  destruct (decide (k ∈ displayedLogIds s)) as [Hin|Hnin].
  { left. rewrite (addLogEntry_seen log s el k) by assumption.
    split; reflexivity. }
  destruct (createEntry_total log k Hk) as (en & Hen & Hfrom).
  right. exists el, k, en. repeat split; try assumption.
  rewrite (addLogEntry_novel log s el k en) by assumption. reflexivity.
Qed.

(** A key that is in the seen-set is discarded, container or not. *)
Lemma addLogEntry_known (log : JSValue) (s : Page) (k : string) :
  logId_of log = Normal k -> k ∈ displayedLogIds s ->
  addLogEntry log s = returns s [].
Proof.
  intros Hk Hin. destruct (logsEl s) as [el|] eqn:Hel.
  - apply (addLogEntry_seen log s el k); assumption.
  - apply addLogEntry_absent; assumption.
Qed.

(** With the container in place the key of an accepted log is in the
    seen-set afterwards. *)
Lemma addLogEntry_records (log : JSValue) (s : Page) (el : LogsEl) (k : string) :
  logsEl s = Some el -> logId_of log = Normal k ->
  k ∈ displayedLogIds (post (addLogEntry log s)).
Proof.
  intros Hel Hk. destruct (decide (k ∈ displayedLogIds s)) as [Hin|Hnin].
  - rewrite (addLogEntry_seen log s el k) by assumption. exact Hin.
  - destruct (createEntry_total log k Hk) as (en & Hen & _).
    rewrite (addLogEntry_novel log s el k en) by assumption.
    cbn. apply elem_of_union_l, elem_of_singleton_2. reflexivity.
Qed.

(** The seen-set only grows. *)
Lemma addLogEntry_seen_mono (log : JSValue) (s : Page) :
  displayedLogIds s ⊆ displayedLogIds (post (addLogEntry log s)).
Proof.
  destruct (addLogEntry_cases log s) as [[-> _]|(el & k & en & _ & _ & _ & _ & _ & ->)].
  - reflexivity.
  - cbn. apply union_subseteq_r.
Qed.

Lemma addLogEntry_same_key (l1 l2 : JSValue) (k : string) (s : Page) :
  logId_of l1 = Normal k -> logId_of l2 = Normal k ->
  addLogEntry l2 (post (addLogEntry l1 s)) = returns (post (addLogEntry l1 s)) [].
Proof.
  intros H1 H2. destruct (logsEl s) as [el|] eqn:Hel.
  - apply (addLogEntry_known l2 _ k); [assumption|].
    apply (addLogEntry_records l1 s el k); assumption.
  - rewrite (addLogEntry_absent l1 s) by assumption. cbn.
    apply addLogEntry_absent; assumption.
Qed.

(** The bound is kept by every call, whatever the log. *)
Lemma addLogEntry_bound (log : JSValue) (s : Page) :
  (length (buffer s) <= 500)%nat ->
  (length (buffer (post (addLogEntry log s))) <= 500)%nat.
Proof.
  intros H.
  destruct (addLogEntry_cases log s) as [[-> _]|(el & k & en & _ & _ & _ & _ & _ & ->)].
  - exact H.
  - unfold buffer. cbn [logsEl set_logsEl].
    rewrite children_after_append, length_lastn. lia.
Qed.

Lemma accept_all_bound (logs : list JSValue) (s : Page) :
  (length (buffer s) <= 500)%nat ->
  (length (buffer (accept_all logs s)) <= 500)%nat.
Proof.
  revert s. induction logs as [|log logs IH]; intros s H; [exact H|].
  cbn. apply IH, addLogEntry_bound, H.
Qed.

(** *** The key determines the timestamp *)

Lemma string_app_cons (x : ascii) (a b : string) :
  String x a +:+ b = String x (a +:+ b).
Proof. reflexivity. Qed.

Lemma string_app_assoc (a b c : string) : (a +:+ b) +:+ c = a +:+ (b +:+ c).
Proof.
  induction a as [|x a IH]; [reflexivity|].
  rewrite !string_app_cons, IH. reflexivity.
Qed.

Lemma string_app_nil_r (a : string) : a +:+ "" = a.
Proof.
  induction a as [|x a IH]; [reflexivity|].
  rewrite string_app_cons, IH. reflexivity.
Qed.

Lemma all_digits_app (a b : string) :
  all_digits (a +:+ b) = all_digits a && all_digits b.
Proof.
  induction a as [|c a IH]; [reflexivity|].
  rewrite string_app_cons. cbn [all_digits]. rewrite IH. apply andb_assoc.
Qed.

Lemma pretty_N_char_digit (x : N) : is_digit (pretty_N_char x) = true.
Proof. unfold pretty_N_char. repeat case_match; reflexivity. Qed.

Lemma pretty_N_go_digits (x : N) (s : string) :
  exists d, pretty_N_go x s = d +:+ s /\ all_digits d = true
            /\ ((0 < x)%N -> d <> "").
Proof.
  revert s. induction (N.lt_wf_0 x) as [x _ IH]. intros s.
  destruct (N.eq_0_gt_0_cases x) as [->|Hpos].
  - exists "". rewrite pretty_N_go_0. repeat split. intros H. lia.
  - rewrite pretty_N_go_step by assumption.
    destruct (IH (x `div` 10)%N (N.div_lt x 10 Hpos eq_refl)
                 (String (pretty_N_char (x `mod` 10)) s))
      as (d & -> & Hd & _).
    exists (d +:+ String (pretty_N_char (x `mod` 10)) "").
    split; [|split].
    + rewrite string_app_assoc. reflexivity.
    + rewrite all_digits_app, Hd. cbn [all_digits].
      rewrite pretty_N_char_digit. reflexivity.
    + intros _. destruct d; discriminate.
Qed.

Lemma pretty_N_digits (x : N) :
  all_digits (pretty x) = true /\ pretty x <> "".
Proof.
  unfold pretty, pretty_N. case_decide as Hx.
  - split; [reflexivity|discriminate].
  - destruct (pretty_N_go_digits x "") as (d & -> & Hd & Hne).
    rewrite string_app_nil_r. split; [assumption|].
    apply Hne. lia.
Qed.

Lemma digits_dash_inj (d1 d2 r1 r2 : string) :
  all_digits d1 = true -> all_digits d2 = true ->
  d1 +:+ String "-" r1 = d2 +:+ String "-" r2 -> d1 = d2.
Proof.
  revert d2. induction d1 as [|c1 d1 IH]; intros [|c2 d2] H1 H2 Heq.
  - reflexivity.
  - rewrite string_app_cons in Heq. injection Heq as <- _.
    cbn in H2. discriminate.
  - rewrite string_app_cons in Heq. injection Heq as -> _.
    cbn in H1. discriminate.
  - rewrite !string_app_cons in Heq. injection Heq as <- Heq.
    cbn [all_digits] in H1, H2.
    apply andb_prop in H1 as [_ H1]. apply andb_prop in H2 as [_ H2].
    f_equal. exact (IH d2 H1 H2 Heq).
Qed.

(** A printed integer is a non-empty run of digits, after a minus sign
    when it is negative. *)
Lemma pretty_Z_shape (z : Z) :
  (all_digits (pretty z) = true /\ pretty z <> "")
  \/ exists d, pretty z = String "-" d /\ all_digits d = true /\ d <> "".
Proof.
  destruct z as [|p|p].
  - left. split; [reflexivity|discriminate].
  - left. exact (pretty_N_digits (Npos p)).
  - right. exists (pretty (Npos p)). split; [reflexivity|].
    exact (pretty_N_digits (Npos p)).
Qed.

Lemma pretty_Z_dash_inj (z1 z2 : Z) (r1 r2 : string) :
  pretty z1 +:+ String "-" r1 = pretty z2 +:+ String "-" r2 -> z1 = z2.
Proof.
  intros Heq. apply (inj pretty).
  destruct (pretty_Z_shape z1) as [[Hd1 Hn1]|(d1 & E1 & Hd1 & Hn1)];
    destruct (pretty_Z_shape z2) as [[Hd2 Hn2]|(d2 & E2 & Hd2 & Hn2)].
  - exact (digits_dash_inj _ _ _ _ Hd1 Hd2 Heq).
  - rewrite E2 in Heq. destruct (pretty z1) as [|c d]; [congruence|].
    rewrite !string_app_cons in Heq. injection Heq as -> _.
    cbn in Hd1. discriminate.
  - rewrite E1 in Heq. destruct (pretty z2) as [|c d]; [congruence|].
    rewrite !string_app_cons in Heq. injection Heq as <- _.
    cbn in Hd2. discriminate.
  - rewrite E1, E2 in *. rewrite !string_app_cons in Heq.
    injection Heq as Heq. f_equal.
    exact (digits_dash_inj _ _ _ _ Hd1 Hd2 Heq).
Qed.

(** Events with different timestamps have different keys. *)
Lemma logId_timestamp (e1 e2 : LogEvent) :
  logId e1 = logId e2 -> timestamp e1 = timestamp e2.
Proof. unfold logId. apply pretty_Z_dash_inj. Qed.

(** *** Sequences of novel events *)

Lemma accept_all_cons (log : JSValue) (logs : list JSValue) (s : Page) :
  accept_all (log :: logs) s = accept_all logs (post (addLogEntry log s)).
Proof. reflexivity. Qed.

Lemma increasing_tail (e : LogEvent) (es : list LogEvent) :
  increasing (e :: es) = true -> increasing es = true.
Proof.
  destruct es as [|e2 es]; [reflexivity|]. cbn [increasing].
  intros H. apply andb_prop in H as [_ H]. exact H.
Qed.

Lemma increasing_head (e : LogEvent) (es : list LogEvent) :
  increasing (e :: es) = true ->
  forall e', e' ∈ es -> timestamp e < timestamp e'.
Proof.
  revert e. induction es as [|e2 es IH]; intros e H e' Hin.
  - inversion Hin.
  - pose proof (increasing_tail _ _ H) as Ht.
    cbn [increasing] in H. apply andb_prop in H as [Hlt _].
    apply Z.ltb_lt in Hlt.
    apply elem_of_cons in Hin as [->|Hin]; [exact Hlt|].
    specialize (IH e2 Ht e' Hin). lia.
Qed.

Lemma increasing_NoDup (es : list LogEvent) :
  increasing es = true -> NoDup (map logId es).
Proof.
  induction es as [|e es IH]; intros H; [constructor|].
  cbn [map]. apply NoDup_cons. split.
  - intros Hin. apply list_elem_of_fmap in Hin as (e' & Hk & Hin).
    apply logId_timestamp in Hk.
    pose proof (increasing_head e es H e' Hin). lia.
  - apply IH. exact (increasing_tail _ _ H).
Qed.

(** The entry of the first of a run of events with increasing timestamps
    is none of the entries of the later ones. *)
Lemma head_entry_not_later (e0 : LogEvent) (es : list LogEvent) :
  increasing (e0 :: es) = true -> entry_of e0 ∉ map entry_of es.
Proof.
  intros Hinc Hin. apply list_elem_of_fmap in Hin as (e & Heq & Hin).
  assert (e0 = e) by (apply toJS_inj; exact (f_equal created_from Heq)).
  subst e. pose proof (increasing_head e0 es Hinc e0 Hin). lia.
Qed.

(** From a container of at most 500 entries, accepting events with
    pairwise different keys, none of them seen before, leaves the 500
    most recent entries, in arrival order. *)
Lemma accept_all_novel (es : list LogEvent) (s : Page) (el : LogsEl) :
  logsEl s = Some el -> (length (children el) <= 500)%nat ->
  NoDup (map logId es) ->
  (forall e, e ∈ es -> logId e ∉ displayedLogIds s) ->
  buffer (accept_all (map toJS es) s)
  = lastn 500 (children el ++ map entry_of es)
  /\ displayedLogIds (accept_all (map toJS es) s)
     = list_to_set (map logId es) ∪ displayedLogIds s.
Proof.
  revert s el. induction es as [|e es IH]; intros s el Hel Hlen Hnd Hnew.
  - cbn. unfold buffer. rewrite Hel, app_nil_r, lastn_short by assumption.
    split; [reflexivity|]. cbn. symmetry. apply (left_id_L ∅ (∪)).
  - cbn [map] in Hnd. apply NoDup_cons in Hnd as [Hne Hnd].
    assert (Hk : logId e ∉ displayedLogIds s) by (apply Hnew; left).
    cbn [map]. rewrite !accept_all_cons.
    rewrite (addLogEntry_novel (toJS e) s el (logId e) (entry_of e) Hel
               (logId_of_toJS e) Hk (createEntry_toJS e)).
    cbn [post returns].
    set (el1 := after_append (will_scroll s el) (entry_of e) el).
    set (s1 := set_logsEl (Some el1) _).
    assert (Hc1 : children el1 = lastn 500 (children el ++ [entry_of e]))
      by apply children_after_append.
    destruct (IH s1 el1) as [Hb Hs].
    + reflexivity.
    + rewrite Hc1, length_lastn. lia.
    + exact Hnd.
    + intros e' Hin. cbn. intros Hx.
      apply elem_of_union in Hx as [Hx|Hx].
      * apply elem_of_singleton in Hx. apply Hne.
        apply list_elem_of_fmap. exists e'. split; [congruence|exact Hin].
      * revert Hx. apply Hnew. right. exact Hin.
    + split.
      * rewrite Hb, Hc1, lastn_app_lastn, <- app_assoc. reflexivity.
      * rewrite Hs. cbn. clear. set_solver.
Qed.

(** A page that has the container and the seen-set of the page left by
    accepting [l1] discards every log with the key of [l1]. *)
Lemma discarded_after (l1 l2 : JSValue) (k : string) (s s' : Page) :
  logId_of l1 = Normal k -> logId_of l2 = Normal k ->
  logsEl s' = logsEl (post (addLogEntry l1 s)) ->
  displayedLogIds s' = displayedLogIds (post (addLogEntry l1 s)) ->
  addLogEntry l2 s' = returns s' [].
Proof.
  intros H1 H2 Hel Hids. destruct (logsEl s) as [el|] eqn:E.
  - apply (addLogEntry_known l2 s' k H2). rewrite Hids.
    apply (addLogEntry_records l1 s el k); assumption.
  - rewrite (addLogEntry_absent l1 s E) in Hel. cbn in Hel. rewrite E in Hel.
    apply addLogEntry_absent. exact Hel.
Qed.

Lemma poll_try_logs (status : Z) (items : list JSValue) (s : Page) :
  res_ok status = true ->
  poll_try (Response status (Normal (JObject [("logs", JArray items)]))) s
  = forEach_addLogEntry items s.
Proof. intros H. unfold poll_try. rewrite H. reflexivity. Qed.

Lemma lastn_map {A B} (f : A -> B) (n : nat) (l : list A) :
  lastn n (map f l) = map f (lastn n l).
Proof. unfold lastn. rewrite length_map. symmetry. apply fmap_drop. Qed.

Lemma lastn_all_but_first {A} (n : nat) (l : list A) :
  length l = S n -> lastn n l = tail l.
Proof.
  intros H. unfold lastn. rewrite H.
  replace (S n - n)%nat with 1%nat by lia.
  destruct l; reflexivity.
Qed.

(** *** Autoscroll *)

Lemma will_scroll_spec (s : Page) (el : LogsEl) :
  will_scroll s el = true
  <-> autoscrollEnabled s = true /\ (near_bottom el \/ children el = []).
Proof.
  tidy.
  unfold will_scroll, near_bottom.
  rewrite andb_true_iff, orb_true_iff, Z.leb_le, Nat.eqb_eq.
  destruct (children el); cbn [length]; intuition (discriminate || lia).
Qed.

(** With a non-negative offset, the viewport of an empty container whose
    content fits is at the bottom. *)
Lemma empty_is_near_bottom (el : LogsEl) :
  children el = [] -> 0 <= scrollTop el -> contentHeight [] <= clientHeight el ->
  near_bottom el.
Proof.
  tidy.
  intros Hc Htop Hfit. unfold near_bottom, scrollHeight. rewrite Hc. lia.
Qed.

Lemma scrolled_novel (en : Element) (b : bool) (v : Z) (cs : list Element) :
  scrolled (AppendChild en :: (if b then [SetScrollTop v] else [])
            ++ map RemoveChild cs)
  <-> b = true.
Proof.
  unfold scrolled. split.
  - intros [w Hin]. destruct b; [reflexivity|]. exfalso.
    cbn in Hin. destruct Hin as [Hin|Hin]; [discriminate|].
    apply in_map_iff in Hin as (x & Hx & _). discriminate.
  - intros ->. exists v. cbn. right. left. reflexivity.
Qed.

Lemma scrollTop_after_append (b : bool) (en : Element) (el : LogsEl) :
  0 <= clientHeight el ->
  scrollTop (after_append b en el)
  = if b then bottom (appendChild en el) else scrollTop el.
Proof.
  intros H. destruct b; [|reflexivity].
  unfold after_append, bottom. cbn [scrollTop with_children assign_scrollTop].
  unfold scrollHeight. cbn [clientHeight appendChild]. lia.
Qed.

(** *** The seen-set and the container *)

Lemma accept_all_seen_mono (logs : list JSValue) (s : Page) :
  displayedLogIds s ⊆ displayedLogIds (accept_all logs s).
Proof.
  revert s. induction logs as [|log logs IH]; intros s; [reflexivity|].
  rewrite accept_all_cons. etrans; [apply (addLogEntry_seen_mono log)|apply IH].
Qed.

Lemma last_lastn_snoc {A} (n : nat) (l : list A) (x : A) :
  last (lastn (S n) (l ++ [x])) = Some x.
Proof.
  unfold lastn. rewrite length_app. cbn [length].
  destruct (Nat.le_gt_cases (length l) n) as [Hle|Hgt].
  - replace (length l + 1 - S n)%nat with 0%nat by lia. apply last_snoc.
  - rewrite drop_app_le by lia. apply last_snoc.
Qed.

(** *** What the handlers leave alone *)

Lemma connects_app (a b : list Effect) :
  connects (a ++ b) = (connects a + connects b)%nat.
Proof. unfold connects. rewrite List.filter_app, length_app. reflexivity. Qed.

Lemma fetches_app (a b : list Effect) :
  fetches (a ++ b) = (fetches a + fetches b)%nat.
Proof. unfold fetches. rewrite List.filter_app, length_app. reflexivity. Qed.

Lemma connects_removals (cs : list Element) :
  connects (map RemoveChild cs) = 0%nat.
Proof. induction cs as [|c cs IH]; [reflexivity|exact IH]. Qed.

Lemma fetches_removals (cs : list Element) :
  fetches (map RemoveChild cs) = 0%nat.
Proof. induction cs as [|c cs IH]; [reflexivity|exact IH]. Qed.

(** [addLogEntry] touches the seen-set and the container only, and its
    effects are on the container. *)
Lemma addLogEntry_frame (log : JSValue) (s : Page) :
  ws (post (addLogEntry log s)) = ws s
  /\ autoscrollEnabled (post (addLogEntry log s)) = autoscrollEnabled s
  /\ now (post (addLogEntry log s)) = now s
  /\ timers (post (addLogEntry log s)) = timers s
  /\ inflight (post (addLogEntry log s)) = inflight s.
Proof.
  destruct (addLogEntry_cases log s)
    as [[-> _]|(el & k & en & _ & _ & _ & _ & _ & ->)];
    repeat split; reflexivity.
Qed.

Lemma addLogEntry_quiet (log : JSValue) (s : Page) :
  connects (effects (addLogEntry log s)) = 0%nat
  /\ fetches (effects (addLogEntry log s)) = 0%nat.
Proof.
  destruct (addLogEntry_cases log s)
    as [[_ ->]|(el & k & en & Hel & Hk & Hnew & Hen & _ & _)];
    [split; reflexivity|].
  rewrite (addLogEntry_novel log s el k en) by assumption.
  cbn [effects returns].
  change (AppendChild en :: ?l) with ([AppendChild en] ++ l).
  rewrite !connects_app, !fetches_app, connects_removals, fetches_removals.
  destruct (will_scroll s el); split; reflexivity.
Qed.

Lemma forEach_frame (items : list JSValue) (s : Page) :
  ws (post (forEach_addLogEntry items s)) = ws s
  /\ autoscrollEnabled (post (forEach_addLogEntry items s)) = autoscrollEnabled s
  /\ now (post (forEach_addLogEntry items s)) = now s
  /\ timers (post (forEach_addLogEntry items s)) = timers s
  /\ inflight (post (forEach_addLogEntry items s)) = inflight s.
Proof.
  revert s. induction items as [|log items IH]; intros s;
    [repeat split; reflexivity|].
  cbn [forEach_addLogEntry].
  pose proof (addLogEntry_frame log s) as (H1 & H2 & H3 & H4 & H5).
  destruct (thrown (addLogEntry log s)); [repeat split; assumption|].
  cbn [post].
  destruct (IH (post (addLogEntry log s))) as (G1 & G2 & G3 & G4 & G5).
  repeat split; congruence.
Qed.

Lemma forEach_quiet (items : list JSValue) (s : Page) :
  connects (effects (forEach_addLogEntry items s)) = 0%nat
  /\ fetches (effects (forEach_addLogEntry items s)) = 0%nat.
Proof.
  revert s. induction items as [|log items IH]; intros s;
    [split; reflexivity|].
  cbn [forEach_addLogEntry].
  pose proof (addLogEntry_quiet log s) as [H1 H2].
  destruct (thrown (addLogEntry log s)); [split; assumption|].
  cbn [effects]. rewrite connects_app, fetches_app, H1, H2.
  exact (IH (post (addLogEntry log s))).
Qed.

Lemma forEach_seen_mono (items : list JSValue) (s : Page) :
  displayedLogIds s ⊆ displayedLogIds (post (forEach_addLogEntry items s)).
Proof.
  revert s. induction items as [|log items IH]; intros s; [reflexivity|].
  cbn [forEach_addLogEntry].
  pose proof (addLogEntry_seen_mono log s) as H.
  destruct (thrown (addLogEntry log s)); [exact H|].
  cbn [post]. etrans; [exact H|apply IH].
Qed.

(** The [try] block of the poll callback either ran the [forEach] or
    left the page as it was, without any effect. *)
Lemma poll_try_cases (r : FetchResult) (s : Page) :
  (post (poll_try r s) = s /\ effects (poll_try r s) = [])
  \/ exists items, poll_try r s = forEach_addLogEntry items s.
Proof.
  unfold poll_try. destruct r as [e|status json]; [left; split; reflexivity|].
  destruct (res_ok status); [|left; split; reflexivity].
  destruct json as [data|e]; [|left; split; reflexivity].
  destruct (Get data "logs") as [logs|e]; [|left; split; reflexivity].
  destruct (ToBoolean logs); [|left; split; reflexivity].
  destruct logs; try (left; split; reflexivity).
  right. eexists. reflexivity.
Qed.

Lemma poll_settled_post (r : FetchResult) (s : Page) :
  post (poll_settled r s)
  = post (poll_try r (set_inflight (Nat.pred (inflight s)) s)).
Proof. unfold poll_settled. destruct (thrown _); reflexivity. Qed.

Lemma poll_settled_frame (r : FetchResult) (s : Page) :
  ws (post (poll_settled r s)) = ws s
  /\ autoscrollEnabled (post (poll_settled r s)) = autoscrollEnabled s
  /\ now (post (poll_settled r s)) = now s
  /\ timers (post (poll_settled r s)) = timers s
  /\ thrown (poll_settled r s) = None
  /\ connects (effects (poll_settled r s)) = 0%nat
  /\ fetches (effects (poll_settled r s)) = 0%nat.
Proof.
  set (s0 := set_inflight (Nat.pred (inflight s)) s).
  assert (Hq : connects (effects (poll_try r s0)) = 0%nat
               /\ fetches (effects (poll_try r s0)) = 0%nat).
  { destruct (poll_try_cases r s0) as [[_ ->]|[items ->]];
      [split; reflexivity|apply forEach_quiet]. }
  assert (Hf : ws (post (poll_try r s0)) = ws s
               /\ autoscrollEnabled (post (poll_try r s0)) = autoscrollEnabled s
               /\ now (post (poll_try r s0)) = now s
               /\ timers (post (poll_try r s0)) = timers s).
  { destruct (poll_try_cases r s0) as [[-> _]|[items ->]];
      [repeat split; reflexivity|].
    destruct (forEach_frame items s0) as (H1 & H2 & H3 & H4 & _).
    repeat split; assumption. }
  rewrite poll_settled_post. fold s0.
  destruct Hf as (H1 & H2 & H3 & H4). destruct Hq as [Q1 Q2].
  repeat split; try assumption; unfold poll_settled; fold s0;
    destruct (thrown (poll_try r s0)) eqn:E; try reflexivity; try assumption;
    cbn [effects returns]; rewrite ?connects_app, ?fetches_app, ?Q1, ?Q2;
    reflexivity.
Qed.

(** *** Turns of the event loop *)

Lemma report_post (o : Outcome) : fst (report o) = post o.
Proof. reflexivity. Qed.

Lemma report_connects (o : Outcome) :
  connects (snd (report o)) = connects (effects o).
Proof.
  unfold report. cbn [snd]. rewrite connects_app.
  destruct (thrown o); cbn; lia.
Qed.

Lemma report_fetches (o : Outcome) :
  fetches (snd (report o)) = fetches (effects o).
Proof.
  unfold report. cbn [snd]. rewrite fetches_app.
  destruct (thrown o); cbn; lia.
Qed.

Lemma ws_onmessage_frame (data : string) (s : Page) :
  ws (post (ws_onmessage data s)) = ws s
  /\ now (post (ws_onmessage data s)) = now s
  /\ timers (post (ws_onmessage data s)) = timers s
  /\ connects (effects (ws_onmessage data s)) = 0%nat
  /\ fetches (effects (ws_onmessage data s)) = 0%nat.
Proof.
  unfold ws_onmessage. destruct (JSON_parse data) as [log|];
    [|repeat split; reflexivity].
  destruct (addLogEntry_frame log s) as (H1 & _ & H3 & H4 & _).
  destruct (addLogEntry_quiet log s) as [Q1 Q2].
  repeat split; assumption.
Qed.

Lemma toggle_frame (checked : bool) (s : Page) :
  ws (post (toggle_onchange checked s)) = ws s
  /\ now (post (toggle_onchange checked s)) = now s
  /\ timers (post (toggle_onchange checked s)) = timers s
  /\ connects (effects (toggle_onchange checked s)) = 0%nat
  /\ fetches (effects (toggle_onchange checked s)) = 0%nat.
Proof.
  unfold toggle_onchange. destruct checked; [|repeat split; reflexivity].
  cbn [logsEl set_autoscrollEnabled].
  destruct (logsEl s); repeat split; reflexivity.
Qed.

Lemma run_callback_frame (cb : Callback) (ctor : option JSError) (s : Page) :
  now (post (run_callback cb ctor s)) = now s
  /\ timers (post (run_callback cb ctor s)) = timers s
  /\ thrown (run_callback cb ctor s) = None
  /\ connects (effects (run_callback cb ctor s))
     = (if decide (cb = CbInitWebSocket) then 1 else 0)%nat.
Proof.
  destruct cb; cbn [run_callback].
  - unfold initWebSocket. destruct ctor; repeat split; reflexivity.
  - unfold poll_tick. destruct (poll_guard s); repeat split; reflexivity.
Qed.

Lemma rearm_frame (i : nat) (t : Timer) (s : Page) :
  now (rearm i t s) = now s /\ ws (rearm i t s) = ws s.
Proof. unfold rearm. destruct (period t); split; reflexivity. Qed.

(** The clock never goes back. *)
Lemma dispatch_clock (ev : Event) (s s' : Page) (fx : list Effect) :
  dispatch ev s = Some (s', fx) -> now s <= now s'.
Proof.
  destruct ev as [dt|i ctor| |data| |reason|r|checked]; cbn [dispatch]; intros H.
  - destruct (Z.leb_spec 0 dt); [|discriminate]. injection H as <- _. cbn. lia.
  - destruct (timers s !! i) as [t|]; [|discriminate].
    destruct (due t <=? now s); [|discriminate]. injection H as <- _.
    destruct (run_callback_frame (callback t) ctor (rearm i t s)) as (-> & _).
    destruct (rearm_frame i t s) as [-> _]. lia.
  - destruct (ws s) as [[]|]; try discriminate. injection H as <- _. cbn. lia.
  - destruct (ws s) as [[]|]; try discriminate. injection H as <- _.
    destruct (ws_onmessage_frame data s) as (_ & -> & _). lia.
  - destruct (ws s) as [[]|]; try discriminate; injection H as <- _; cbn; lia.
  - destruct (ws s) as [[]|]; try discriminate; injection H as <- _; cbn; lia.
  - destruct (inflight s); [discriminate|]. injection H as <- _.
    destruct (poll_settled_frame r s) as (_ & _ & -> & _). lia.
  - injection H as <- _.
    destruct (toggle_frame checked s) as (_ & -> & _). lia.
Qed.

Lemma run_clock (evs : list Event) (s s' : Page) (fx : list Effect) :
  run evs s = Some (s', fx) -> now s <= now s'.
Proof.
  revert s fx. induction evs as [|ev evs IH]; intros s fx H; cbn [run] in H.
  - injection H as <- _. lia.
  - destruct (dispatch ev s) as [[s1 fx1]|] eqn:E1; [|discriminate].
    destruct (run evs s1) as [[s2 fx2]|] eqn:E2; [|discriminate].
    injection H as <- _. apply dispatch_clock in E1. apply IH in E2. lia.
Qed.

(** From a turn that ran the handler outcome [o]: the page and the
    counts of its effects. *)
Ltac reported H o :=
  let Hr := fresh "Hr" in
  match type of H with
  | Some _ = Some (?s', ?fx) =>
      assert (Hr : report o = (s', fx)) by congruence;
      pose proof (report_post o) as Hpost;
      pose proof (report_connects o) as Hconn;
      pose proof (report_fetches o) as Hfetch;
      rewrite Hr in Hpost, Hconn, Hfetch;
      cbn [fst snd] in Hpost, Hconn, Hfetch; clear Hr H; subst s'
  end.

(** Reconnect timers are not brought forward, and a socket is opened
    only by one of them firing. *)
Lemma dispatch_reconnects (T : Z) (ev : Event) (s s' : Page) (fx : list Effect) :
  reconnects_not_before T s -> dispatch ev s = Some (s', fx) ->
  reconnects_not_before T s' /\ ((0 < connects fx)%nat -> T <= now s').
Proof.
  intros [Hnow Hall] H. unfold reconnects_not_before.
  destruct ev as [dt|i ctor| |data| |reason|r|checked]; cbn [dispatch] in H.
  - destruct (Z.leb_spec 0 dt); [|discriminate]. injection H as <- <-.
    cbn. repeat split; [lia|exact Hall|lia].
  - destruct (timers s !! i) as [t|] eqn:Et; [|discriminate].
    destruct (Z.leb_spec (due t) (now s)) as [Hdue|]; [|discriminate].
    reported H (run_callback (callback t) ctor (rearm i t s)).
    destruct (run_callback_frame (callback t) ctor (rearm i t s))
      as (-> & -> & _ & Hc).
    rewrite Hc in Hconn. rewrite Hconn.
    destruct (rearm_frame i t s) as [-> _].
    pose proof (Forall_lookup_1 _ _ _ _ Hall Et) as Ht.
    repeat split; [exact Hnow| |].
    + unfold rearm. destruct (period t) as [p|] eqn:Ep; cbn [timers set_timers].
      * apply Forall_insert; [exact Hall|]. cbn. intros Hcb.
        destruct (Ht Hcb) as [? _]. congruence.
      * apply Forall_delete. exact Hall.
    + case_decide as Hcb; [|lia]. intros _. destruct (Ht Hcb). lia.
  - destruct (ws s) as [[]|]; try discriminate. injection H as <- <-.
    cbn. repeat split; [exact Hnow|exact Hall|lia].
  - destruct (ws s) as [[]|]; try discriminate.
    reported H (ws_onmessage data s).
    destruct (ws_onmessage_frame data s) as (_ & -> & -> & Hc & _).
    rewrite Hc in Hconn. rewrite Hconn. repeat split; [exact Hnow|exact Hall|lia].
  - destruct (ws s) as [[]|]; try discriminate; injection H as <- <-;
      cbn; repeat split; (exact Hnow || exact Hall || lia).
  - assert (Hclose : forall s0, now s0 = now s -> timers s0 = timers s ->
              Forall (fun t => callback t = CbInitWebSocket ->
                               period t = None /\ T <= due t)
                     (timers s0 ++ [reconnect_timer s0])).
    { intros s0 E1 E2. rewrite E2. apply Forall_app. split; [exact Hall|].
      apply Forall_singleton. cbn. rewrite E1. intros _. split; [reflexivity|lia]. }
    destruct (ws s) as [[]|]; try discriminate; injection H as <- <-;
      (split;
       [split;
        [exact Hnow|exact (Hclose (set_ws (Some CLOSED) s) eq_refl eq_refl)]
       |cbn; lia]).
  - destruct (inflight s); [discriminate|].
    reported H (poll_settled r s).
    destruct (poll_settled_frame r s) as (_ & _ & -> & -> & _ & Hc & _).
    rewrite Hc in Hconn. rewrite Hconn. repeat split; [exact Hnow|exact Hall|lia].
  - reported H (toggle_onchange checked s).
    destruct (toggle_frame checked s) as (_ & -> & -> & Hc & _).
    rewrite Hc in Hconn. rewrite Hconn. repeat split; [exact Hnow|exact Hall|lia].
Qed.

Lemma run_reconnects (T : Z) (evs : list Event) (s s' : Page)
      (fx : list Effect) :
  reconnects_not_before T s -> run evs s = Some (s', fx) ->
  (0 < connects fx)%nat -> T <= now s'.
Proof.
  revert s fx. induction evs as [|ev evs IH]; intros s fx HJ H Hc; cbn [run] in H.
  - injection H as <- <-. cbn in Hc. lia.
  - destruct (dispatch ev s) as [[s1 fx1]|] eqn:E1; [|discriminate].
    destruct (run evs s1) as [[s2 fx2]|] eqn:E2; [|discriminate].
    injection H as <- <-. rewrite connects_app in Hc.
    destruct (dispatch_reconnects T ev s s1 fx1 HJ E1) as [HJ1 Hnow1].
    destruct (Nat.eq_0_gt_0_cases (connects fx2)) as [Hz|Hpos].
    + apply run_clock in E2. assert (T <= now s1) by (apply Hnow1; lia). lia.
    + exact (IH s1 fx2 HJ1 E2 Hpos).
Qed.

(** No turn of the loop takes a key out of the seen-set. *)
Lemma dispatch_seen_mono (ev : Event) (s s' : Page) (fx : list Effect) :
  dispatch ev s = Some (s', fx) -> displayedLogIds s ⊆ displayedLogIds s'.
Proof.
  destruct ev as [dt|i ctor| |data| |reason|r|checked]; cbn [dispatch]; intros H.
  - destruct (0 <=? dt); [|discriminate]. injection H as <- _. reflexivity.
  - destruct (timers s !! i) as [t|]; [|discriminate].
    destruct (due t <=? now s); [|discriminate]. injection H as <- _.
    unfold rearm, run_callback, initWebSocket, poll_tick.
    destruct (callback t), (period t), ctor; cbn;
      try destruct (poll_guard _); reflexivity.
  - destruct (ws s) as [[]|]; try discriminate. injection H as <- _. reflexivity.
  - destruct (ws s) as [[]|]; try discriminate. injection H as <- _.
    unfold ws_onmessage. destruct (JSON_parse data) as [log|]; [|reflexivity].
    apply addLogEntry_seen_mono.
  - destruct (ws s) as [[]|]; try discriminate; injection H as <- _; reflexivity.
  - destruct (ws s) as [[]|]; try discriminate; injection H as <- _; reflexivity.
  - destruct (inflight s); [discriminate|]. injection H as <- _.
    rewrite poll_settled_post. set (s0 := set_inflight _ s).
    destruct (poll_try_cases r s0) as [[-> _]|[items ->]]; [reflexivity|].
    apply (forEach_seen_mono items s0).
  - injection H as <- _. unfold toggle_onchange.
    destruct checked; cbn [logsEl set_autoscrollEnabled]; [|reflexivity].
    destruct (logsEl s); reflexivity.
Qed.

(** *** Pages reached from a load *)

Lemma poll_tick_frame (s : Page) :
  timers (post (poll_tick s)) = timers s /\ ws (post (poll_tick s)) = ws s.
Proof. unfold poll_tick. destruct (poll_guard s); split; reflexivity. Qed.

Lemma loaded_in_shape (c : option JSError) (logs : option LogsEl) :
  timers_in_shape (post (DOMContentLoaded c (script_loaded logs))).
Proof.
  left. exists 10000. unfold DOMContentLoaded, initWebSocket.
  destruct c; reflexivity.
Qed.

Lemma dispatch_in_shape (ev : Event) (s s' : Page) (fx : list Effect) :
  timers_in_shape s -> dispatch ev s = Some (s', fx) -> timers_in_shape s'.
Proof.
  intros Hs H.
  destruct ev as [dt|i ctor| |data| |reason|r|checked]; cbn [dispatch] in H.
  - destruct (0 <=? dt); [|discriminate]. injection H as <- _. exact Hs.
  - destruct (timers s !! i) as [t|] eqn:Et; [|discriminate].
    destruct (due t <=? now s); [|discriminate]. injection H as <- _.
    unfold timers_in_shape.
    destruct Hs as [[d Hd]|(d & d' & Hd & Hws)]; rewrite Hd in Et.
    + destruct i as [|i]; [|destruct i; discriminate].
      injection Et as <-. left. exists (now s + 10000).
      cbn [callback poll_at run_callback].
      rewrite (proj1 (poll_tick_frame _)). unfold rearm. cbn. rewrite Hd.
      reflexivity.
    + destruct i as [|[|i]]; [| |destruct i; discriminate].
      * injection Et as <-. right. exists (now s + 10000), d'.
        cbn [callback poll_at run_callback].
        rewrite (proj1 (poll_tick_frame _)), (proj2 (poll_tick_frame _)).
        unfold rearm. cbn. rewrite Hd, Hws. split; reflexivity.
      * injection Et as <-. left. exists d.
        cbn [callback reconnect_at run_callback].
        unfold initWebSocket, rearm. destruct ctor; cbn; rewrite Hd; reflexivity.
  - destruct (ws s) as [[]|] eqn:Ews; try discriminate. injection H as <- _.
    destruct Hs as [Hs|(d & d' & _ & Hc)]; [left; exact Hs|congruence].
  - destruct (ws s) as [[]|] eqn:Ews; try discriminate.
    reported H (ws_onmessage data s).
    destruct (ws_onmessage_frame data s) as (Hw & _ & Ht & _).
    unfold timers_in_shape. rewrite Hw, Ht. exact Hs.
  - destruct (ws s) as [[]|]; try discriminate; injection H as <- _; exact Hs.
  - assert (Hlive : ws s <> Some CLOSED ->
              timers_in_shape (post (ws_onclose reason (set_ws (Some CLOSED) s)))).
    { intros Hne. destruct Hs as [[d Hd]|(d & d' & _ & Hc)]; [|congruence].
      right. exists d, (now s + 3000). cbn. rewrite Hd. split; reflexivity. }
    destruct (ws s) as [[]|]; try discriminate; injection H as <- _;
      apply Hlive; discriminate.
  - destruct (inflight s); [discriminate|].
    reported H (poll_settled r s).
    destruct (poll_settled_frame r s) as (Hw & _ & _ & Ht & _).
    unfold timers_in_shape. rewrite Hw, Ht. exact Hs.
  - reported H (toggle_onchange checked s).
    destruct (toggle_frame checked s) as (Hw & _ & Ht & _).
    unfold timers_in_shape. rewrite Hw, Ht. exact Hs.
Qed.

Lemma run_in_shape (evs : list Event) (s s' : Page) (fx : list Effect) :
  timers_in_shape s -> run evs s = Some (s', fx) -> timers_in_shape s'.
Proof.
  revert s fx. induction evs as [|ev evs IH]; intros s fx Hs H; cbn [run] in H.
  - injection H as <- _. exact Hs.
  - destruct (dispatch ev s) as [[s1 fx1]|] eqn:E1; [|discriminate].
    destruct (run evs s1) as [[s2 fx2]|] eqn:E2; [|discriminate].
    injection H as <- _.
    exact (IH s1 fx2 (dispatch_in_shape ev s s1 fx1 Hs E1) E2).
Qed.

(** On a page reached from a load, a socket that can still close has no
    reconnect pending. *)
Lemma live_has_no_reconnect_pending (c : option JSError) (logs : option LogsEl)
      (evs : list Event) (s : Page) (fx : list Effect) :
  run evs (post (DOMContentLoaded c (script_loaded logs))) = Some (s, fx) ->
  live s -> no_reconnect_pending s.
Proof.
  intros Hrun Hlive.
  pose proof (run_in_shape evs _ s fx (loaded_in_shape c logs) Hrun) as Hs.
  unfold no_reconnect_pending.
  destruct Hs as [[d ->]|(d & d' & _ & Hc)].
  - repeat constructor. discriminate.
  - destruct Hlive as [H|[H|H]]; congruence.
Qed.

(** Without the container nothing is ever recorded. *)
Lemma forEach_nothing_recorded (items : list JSValue) (s : Page) :
  logsEl s = None ->
  post (forEach_addLogEntry items s) = s.
Proof.
  intros Hel. induction items as [|log items IH]; [reflexivity|].
  cbn [forEach_addLogEntry]. rewrite (addLogEntry_absent log s Hel).
  cbn [thrown returns post]. exact IH.
Qed.

Lemma dispatch_nothing_recorded (ev : Event) (s s' : Page) (fx : list Effect) :
  nothing_recorded s -> dispatch ev s = Some (s', fx) -> nothing_recorded s'.
Proof.
  intros [Hel Hids] H. unfold nothing_recorded.
  destruct ev as [dt|i ctor| |data| |reason|r|checked]; cbn [dispatch] in H.
  - destruct (0 <=? dt); [|discriminate]. injection H as <- _. split; assumption.
  - destruct (timers s !! i) as [t|] eqn:Et; [|discriminate].
    destruct (due t <=? now s); [|discriminate]. injection H as <- _.
    unfold rearm, run_callback, initWebSocket, poll_tick.
    destruct (callback t), (period t), ctor; cbn;
      try destruct (poll_guard _); split; assumption.
  - destruct (ws s) as [[]|]; try discriminate. injection H as <- _.
    split; assumption.
  - destruct (ws s) as [[]|]; try discriminate. injection H as <- _.
    unfold ws_onmessage. destruct (JSON_parse data) as [log|]; [|split; assumption].
    rewrite (addLogEntry_absent log s Hel). split; assumption.
  - destruct (ws s) as [[]|]; try discriminate; injection H as <- _;
      split; assumption.
  - destruct (ws s) as [[]|]; try discriminate; injection H as <- _;
      split; assumption.
  - destruct (inflight s); [discriminate|]. injection H as <- _.
    rewrite poll_settled_post.
    set (s0 := set_inflight _ s).
    destruct (poll_try_cases r s0) as [[-> _]|[items ->]]; [split; assumption|].
    rewrite (forEach_nothing_recorded items s0 Hel). split; assumption.
  - injection H as <- _. unfold toggle_onchange.
    destruct checked; cbn [logsEl set_autoscrollEnabled]; [rewrite Hel|];
      split; assumption.
Qed.

Lemma run_nothing_recorded (evs : list Event) (s s' : Page) (fx : list Effect) :
  nothing_recorded s -> run evs s = Some (s', fx) -> nothing_recorded s'.
Proof.
  revert s fx. induction evs as [|ev evs IH]; intros s fx Hs H; cbn [run] in H.
  - injection H as <- _. exact Hs.
  - destruct (dispatch ev s) as [[s1 fx1]|] eqn:E1; [|discriminate].
    destruct (run evs s1) as [[s2 fx2]|] eqn:E2; [|discriminate].
    injection H as <- _.
    exact (IH s1 fx2 (dispatch_nothing_recorded ev s s1 fx1 Hs E1) E2).
Qed.

(** *** Reconnecting *)

Lemma run_app (a b : list Event) (s : Page) :
  run (a ++ b) s
  = match run a s with
    | Some (s1, fx1) =>
        match run b s1 with
        | Some (s2, fx2) => Some (s2, fx1 ++ fx2)
        | None => None
        end
    | None => None
    end.
Proof.
  revert s. induction a as [|ev a IH]; intros s.
  - cbn. destruct (run b s) as [[s2 fx2]|]; reflexivity.
  - cbn [app run]. destruct (dispatch ev s) as [[s1 fx1]|]; [|reflexivity].
    rewrite IH. destruct (run a s1) as [[s2 fx2]|]; [|reflexivity].
    destruct (run b s2) as [[s3 fx3]|]; [|reflexivity].
    rewrite app_assoc. reflexivity.
Qed.

Lemma dispatch_close (reason : string) (s : Page) :
  live s ->
  dispatch (SocketCloses reason) s
  = Some (report (ws_onclose reason (set_ws (Some CLOSED) s))).
Proof.
  intros [H|[H|H]]; cbn [dispatch]; rewrite H; reflexivity.
Qed.

(** One round: the socket closes, three seconds pass, the timer fires
    and a new socket is being connected; nothing else has changed. *)
Lemma reconnect_round_run (reason : string) (s : Page) :
  live s ->
  run (reconnect_round (length (timers s)) reason) s
  = Some (set_ws (Some CONNECTING) (set_now (now s + 3000) s),
          [ConsoleWarn "[Dashboard] WebSocket closed, retrying in 3s..." reason;
           SetTimeout CbInitWebSocket 3000;
           ConsoleLog ("[Dashboard] Connecting to WebSocket: " +:+ wsUrl);
           NewWebSocket wsUrl]).
Proof.
  intros Hlive. unfold reconnect_round. cbn [run].
  rewrite (dispatch_close reason s Hlive).
  cbn [report ws_onclose returns post effects thrown app].
  cbn [dispatch set_timers set_ws set_now now timers Z.leb].
  replace (0 <=? 3000) with true by reflexivity.
  cbn [dispatch set_timers set_ws set_now now timers].
  rewrite list_lookup_middle by reflexivity.
  cbn [due reconnect_timer now set_ws].
  rewrite Z.leb_refl.
  unfold rearm. cbn [period reconnect_timer callback run_callback timers
                     set_timers set_now].
  assert (Hdel : delete (length (timers s)) (timers s ++ [reconnect_timer (set_ws (Some CLOSED) s)]) = timers s).
  { induction (timers s) as [|t ts IH]; [reflexivity|].
    cbn [length app]. cbn. f_equal. exact IH. }
  rewrite Hdel. reflexivity.
Qed.

Lemma reconnect_rounds_run (n : nat) (reason : string) (s : Page) :
  live s ->
  exists s' fx,
    run (reconnect_rounds n (length (timers s)) reason) s = Some (s', fx)
    /\ connects fx = n
    /\ now s' = now s + 3000 * Z.of_nat n
    /\ timers s' = timers s
    /\ live s'.
Proof.
  revert s. induction n as [|n IH]; intros s Hlive.
  - exists s, []. cbn. repeat split; [lia|exact Hlive].
  - cbn [reconnect_rounds]. rewrite run_app.
    rewrite (reconnect_round_run reason s Hlive).
    set (s1 := set_ws (Some CONNECTING) (set_now (now s + 3000) s)).
    destruct (IH s1) as (s' & fx & Hrun & Hc & Hnow & Htim & Hl).
    { left. reflexivity. }
    change (length (timers s1)) with (length (timers s)) in Hrun.
    rewrite Hrun. eexists _, _. split; [reflexivity|].
    rewrite connects_app, Hc, Hnow, Htim.
    repeat split; [cbn; lia|exact Hl].
Qed.

(** *** Polling *)

Lemma poll_guard_spec (s : Page) :
  poll_guard s = true <-> ws s <> Some OPEN.
Proof.
  unfold poll_guard. destruct (ws s) as [r|]; [|split; [discriminate|reflexivity]].
  rewrite negb_true_iff, bool_decide_eq_false. split; intros H; congruence.
Qed.

Lemma poll_tick_open (s : Page) :
  ws s = Some OPEN -> poll_tick s = returns s [].
Proof. intros H. unfold poll_tick, poll_guard. rewrite H. reflexivity. Qed.

Lemma poll_tick_not_open (s : Page) :
  ws s <> Some OPEN ->
  poll_tick s = returns (set_inflight (S (inflight s)) s) [Fetch "/api/logs"].
Proof.
  intros H. unfold poll_tick. apply poll_guard_spec in H. rewrite H. reflexivity.
Qed.

Lemma run_callback_fetches (cb : Callback) (ctor : option JSError) (s : Page) :
  (0 < fetches (effects (run_callback cb ctor s)))%nat -> ws s <> Some OPEN.
Proof.
  destruct cb; cbn [run_callback].
  - unfold initWebSocket. destruct ctor; cbn; lia.
  - intros H Hopen. rewrite (poll_tick_open s Hopen) in H. cbn in H. lia.
Qed.

(** A fetch is started only in a turn that found the channel not open. *)
Lemma dispatch_fetch_guarded (ev : Event) (s s' : Page) (fx : list Effect) :
  dispatch ev s = Some (s', fx) -> (0 < fetches fx)%nat -> ws s <> Some OPEN.
Proof.
  destruct ev as [dt|i ctor| |data| |reason|r|checked]; cbn [dispatch]; intros H Hf.
  - destruct (0 <=? dt); [|discriminate]. injection H as <- <-. cbn in Hf. lia.
  - destruct (timers s !! i) as [t|] eqn:Et; [|discriminate].
    destruct (due t <=? now s); [|discriminate].
    reported H (run_callback (callback t) ctor (rearm i t s)).
    rewrite Hfetch in Hf. apply run_callback_fetches in Hf.
    destruct (rearm_frame i t s) as [_ E]. rewrite E in Hf. exact Hf.
  - destruct (ws s) as [[]|]; try discriminate; injection H as <- <-;
      cbn in Hf; lia.
  - destruct (ws s) as [[]|]; try discriminate.
    reported H (ws_onmessage data s).
    destruct (ws_onmessage_frame data s) as (_ & _ & _ & _ & E).
    rewrite Hfetch, E in Hf. lia.
  - destruct (ws s) as [[]|]; try discriminate; injection H as <- <-;
      cbn in Hf; lia.
  - destruct (ws s) as [[]|]; try discriminate; injection H as <- <-;
      cbn in Hf; lia.
  - destruct (inflight s); [discriminate|].
    reported H (poll_settled r s).
    destruct (poll_settled_frame r s) as (_ & _ & _ & _ & _ & _ & E).
    rewrite Hfetch, E in Hf. lia.
  - reported H (toggle_onchange checked s).
    destruct (toggle_frame checked s) as (_ & _ & _ & _ & E).
    rewrite Hfetch, E in Hf. lia.
Qed.

(** The poll interval stays armed through every turn. *)
Lemma dispatch_poll_armed (ev : Event) (s s' : Page) (fx : list Effect) :
  poll_armed s -> dispatch ev s = Some (s', fx) -> poll_armed s'.
Proof.
  intros [d Hd] H. unfold poll_armed.
  destruct ev as [dt|i ctor| |data| |reason|r|checked]; cbn [dispatch] in H.
  - destruct (0 <=? dt); [|discriminate]. injection H as <- _. exists d. exact Hd.
  - destruct (timers s !! i) as [t|] eqn:Et; [|discriminate].
    destruct (due t <=? now s); [|discriminate].
    reported H (run_callback (callback t) ctor (rearm i t s)).
    destruct (run_callback_frame (callback t) ctor (rearm i t s)) as (_ & -> & _).
    unfold rearm. destruct i as [|i].
    + rewrite Hd in Et. injection Et as <-. cbn [period timers set_timers callback].
      eexists. apply list_lookup_insert_eq. apply lookup_lt_Some in Hd. exact Hd.
    + exists d. destruct (period t); cbn [timers set_timers].
      * rewrite list_lookup_insert_ne by lia. exact Hd.
      * rewrite list_lookup_delete_lt by lia. exact Hd.
  - destruct (ws s) as [[]|]; try discriminate. injection H as <- _.
    exists d. exact Hd.
  - destruct (ws s) as [[]|]; try discriminate.
    reported H (ws_onmessage data s).
    destruct (ws_onmessage_frame data s) as (_ & _ & -> & _). exists d. exact Hd.
  - destruct (ws s) as [[]|]; try discriminate; injection H as <- _;
      exists d; exact Hd.
  - destruct (ws s) as [[]|]; try discriminate; injection H as <- _;
      exists d; cbn; (rewrite lookup_app_l by (apply lookup_lt_Some in Hd; exact Hd));
      exact Hd.
  - destruct (inflight s); [discriminate|].
    reported H (poll_settled r s).
    destruct (poll_settled_frame r s) as (_ & _ & _ & -> & _). exists d. exact Hd.
  - reported H (toggle_onchange checked s).
    destruct (toggle_frame checked s) as (_ & _ & -> & _). exists d. exact Hd.
Qed.

Lemma run_poll_armed (evs : list Event) (s s' : Page) (fx : list Effect) :
  poll_armed s -> run evs s = Some (s', fx) -> poll_armed s'.
Proof.
  revert s fx. induction evs as [|ev evs IH]; intros s fx Ha H; cbn [run] in H.
  - injection H as <- _. exact Ha.
  - destruct (dispatch ev s) as [[s1 fx1]|] eqn:E1; [|discriminate].
    destruct (run evs s1) as [[s2 fx2]|] eqn:E2; [|discriminate].
    injection H as <- _.
    exact (IH s1 fx2 (dispatch_poll_armed ev s s1 fx1 Ha E1) E2).
Qed.

(** Without the container a sequence of calls leaves the page alone. *)
Lemma accept_all_absent (logs : list JSValue) (s : Page) :
  logsEl s = None -> accept_all logs s = s.
Proof.
  intros Hel. induction logs as [|log logs IH]; [reflexivity|].
  rewrite accept_all_cons, (addLogEntry_absent log s Hel). exact IH.
Qed.

(** A log with the key of one accepted earlier is discarded, whatever
    was accepted in between. *)
Lemma addLogEntry_same_key_later (l1 l2 : JSValue) (k : string)
      (between : list JSValue) (s : Page) :
  logId_of l1 = Normal k -> logId_of l2 = Normal k ->
  addLogEntry l2 (accept_all (l1 :: between) s)
  = returns (accept_all (l1 :: between) s) [].
Proof.
  intros H1 H2. destruct (logsEl s) as [el|] eqn:Hel.
  - apply (addLogEntry_known l2 _ k H2).
    rewrite accept_all_cons. apply accept_all_seen_mono.
    apply (addLogEntry_records l1 s el k); assumption.
  - rewrite (accept_all_absent (l1 :: between) s Hel).
    apply addLogEntry_absent. exact Hel.
Qed.

(** The guard is evaluated when the tick fires and not again when the
    fetch has settled: a pull that is in flight delivers its logs
    whatever the state of the socket is by then. *)
Lemma late_pull_is_appended (status : Z) (e : LogEvent) (s : Page)
      (el : LogsEl) (n : nat) :
  inflight s = S n -> logsEl s = Some el -> res_ok status = true ->
  logId e ∉ displayedLogIds s ->
  exists s1 fx1,
    dispatch (FetchSettles (logs_response status e)) s = Some (s1, fx1)
    /\ ws s1 = ws s
    /\ In (AppendChild (entry_of e)) fx1
    /\ last (buffer s1) = Some (entry_of e).
Proof.
  intros Hin El Hok Hout.
  set (s0 := set_inflight (Nat.pred (inflight s)) s).
  assert (Hadd : addLogEntry (toJS e) s0
                 = returns (set_logsEl
                              (Some (after_append (will_scroll s0 el)
                                       (entry_of e) el))
                              (set_displayedLogIds
                                 ({[logId e]} ∪ displayedLogIds s0) s0))
                           (AppendChild (entry_of e)
                            :: (if will_scroll s0 el
                                then [SetScrollTop
                                        (scrollHeight
                                           (appendChild (entry_of e) el))]
                                else [])
                            ++ map RemoveChild
                                 (take (length (children el ++ [entry_of e])
                                        - 500)
                                       (children el ++ [entry_of e])))).
  { apply (addLogEntry_novel (toJS e) s0 el (logId e) (entry_of e)).
    - exact El.
    - apply logId_of_toJS.
    - exact Hout.
    - apply createEntry_toJS. }
  assert (Hps : post (poll_settled (logs_response status e) s)
                = post (addLogEntry (toJS e) s0)
                /\ effects (poll_settled (logs_response status e) s)
                   = effects (addLogEntry (toJS e) s0) ++ []
                /\ thrown (poll_settled (logs_response status e) s) = None).
  { unfold poll_settled, logs_response. fold s0.
    rewrite (poll_try_logs status [toJS e] s0 Hok).
    cbn [forEach_addLogEntry]. rewrite Hadd.
    cbn [thrown post effects returns]. repeat split. }
  destruct Hps as (Hpost & Hfx & Hthrown).
  exists (post (poll_settled (logs_response status e) s)),
         (effects (poll_settled (logs_response status e) s) ++ []).
  split.
  { cbn [dispatch]. rewrite Hin. unfold report. rewrite Hthrown.
    reflexivity. }
  rewrite Hpost, Hfx, Hadd. cbn [post effects returns].
  split; [reflexivity|]. split; [left; reflexivity|].
  unfold buffer. cbn [logsEl set_logsEl].
  rewrite children_after_append. apply (last_lastn_snoc 499).
Qed.

(** ** The claims *)

(** C1. Accepting an event a second time changes nothing: the call
    returns at the duplicate check with the page, and so the length of the
    DisplayBuffer, as the first call left it. The same holds when the
    second delivery is a frame on the socket, and when it comes from the
    poll fallback as the only element of the [logs] array of a response. *)
Theorem accept_twice_same_length (e : LogEvent) (s : Page) :
  let s1 := post (addLogEntry (toJS e) s) in
  length (buffer (post (addLogEntry (toJS e) s1))) = length (buffer s1)
  /\ addLogEntry (toJS e) s1 = returns s1 []
  /\ (forall data, JSON_parse data = Some (toJS e) ->
       ws_onmessage data s1 = returns s1 [])
  /\ forall status,
      length (buffer (post (poll_settled (logs_response status e) s1)))
      = length (buffer s1).
Proof.
  cbv zeta. set (s1 := post (addLogEntry (toJS e) s)).
  assert (H : addLogEntry (toJS e) s1 = returns s1 []).
  { apply (addLogEntry_same_key (toJS e) (toJS e) (logId e) s);
      apply logId_of_toJS. }
  split; [rewrite H; reflexivity|]. split; [exact H|].
  split; [intros data Hd; unfold ws_onmessage; rewrite Hd; exact H|].
  intros status. unfold poll_settled, logs_response.
  destruct (res_ok status) eqn:Hok;
    [|unfold poll_try; rewrite Hok; reflexivity].
  rewrite poll_try_logs by assumption. cbn [forEach_addLogEntry].
  set (s1' := set_inflight (Nat.pred (inflight s1)) s1).
  rewrite (discarded_after (toJS e) (toJS e) (logId e) s s1'
             (logId_of_toJS e) (logId_of_toJS e) eq_refl eq_refl).
  reflexivity.
Qed.

(** C2. Events with strictly increasing timestamps, none of them seen
    before, are accepted into a container of at most 500 entries. After
    every one of them the DisplayBuffer holds at most 500 entries (as it
    does after any sequence of calls that starts within the bound); at the
    end it holds the 500 most recent of the old entries followed by the
    new ones, in arrival order, so what was evicted was taken from the
    head. For 501 events into an empty container exactly 500 entries are
    left, those of the events after the first, and the entry of the
    first event, whose timestamp is the lowest, is gone. *)
Theorem buffer_bounded_fifo (es : list LogEvent) (s : Page) (el : LogsEl) :
  logsEl s = Some el -> (length (children el) <= 500)%nat ->
  (forall e, e ∈ es -> logId e ∉ displayedLogIds s) ->
  increasing es = true ->
  let final := accept_all (map toJS es) s in
  (forall n,
      (length (buffer (accept_all (map toJS (take n es)) s)) <= 500)%nat)
  /\ (forall logs s', (length (buffer s') <= 500)%nat ->
                      (length (buffer (accept_all logs s')) <= 500)%nat)
  /\ buffer final = lastn 500 (children el ++ map entry_of es)
  /\ (children el = [] -> length es = 501%nat ->
      length (buffer final) = 500%nat
      /\ buffer final = map entry_of (tail es)
      /\ forall e0, head es = Some e0 ->
           (entry_of e0 ∉ buffer final)
           /\ Forall (fun en => exists e, created_from en = toJS e
                                          /\ timestamp e0 < timestamp e)
                     (buffer final)).
Proof.
  intros Hel Hlen Hnew Hinc final.
  destruct (accept_all_novel es s el Hel Hlen (increasing_NoDup es Hinc) Hnew)
    as [Hbuf _]. fold final in Hbuf.
  split; [|split; [|split; [exact Hbuf|]]].
  - intros n. apply accept_all_bound. unfold buffer. rewrite Hel. exact Hlen.
  - intros logs s'. apply accept_all_bound.
  - intros Hempty H501.
    assert (Htl : buffer final = map entry_of (tail es)).
    { rewrite Hbuf, Hempty, app_nil_l, lastn_map.
      rewrite (lastn_all_but_first 500 es H501). reflexivity. }
    split; [|split; [exact Htl|]].
    + rewrite Htl, length_map. destruct es; cbn in *; lia.
    + intros e0 Hhd. destruct es as [|e es']; [discriminate|].
      cbn in Hhd. injection Hhd as ->. cbn [tail] in Htl.
      pose proof (increasing_head e0 es' Hinc) as Hlt.
      rewrite Htl. split.
      * intros Hin. apply list_elem_of_fmap in Hin as (e & Heq & Hin).
        assert (e0 = e) by (apply toJS_inj; exact (f_equal created_from Heq)).
        subst e. specialize (Hlt e0 Hin). lia.
      * apply Forall_forall. intros en Hin.
        apply list_elem_of_fmap in Hin as (e & -> & Hin).
        exists e. split; [reflexivity|]. exact (Hlt e Hin).
Qed.

(** C3. Two events that agree on the timestamp, the level and the first
    50 characters of the message have the same key, so the second to
    arrive -- at once or after other logs -- is discarded at the duplicate
    check: the page, and with it the DisplayBuffer, stays as it was,
    whatever follows the 50th character. *)
Theorem same_prefix_is_duplicate (e1 e2 : LogEvent) (between : list JSValue)
        (s : Page) :
  timestamp e1 = timestamp e2 ->
  level e1 = level e2 ->
  String.substring 0 50 (message e1) = String.substring 0 50 (message e2) ->
  let s1 := accept_all (toJS e1 :: between) s in
  logId e1 = logId e2
  /\ addLogEntry (toJS e2) s1 = returns s1 []
  /\ buffer (post (addLogEntry (toJS e2) s1)) = buffer s1
  /\ displayedLogIds (post (addLogEntry (toJS e2) s1)) = displayedLogIds s1.
Proof.
  intros Hts Hlv Hmsg s1.
  assert (Hk : logId e1 = logId e2).
  { unfold logId. rewrite Hts, Hlv, Hmsg. reflexivity. }
  assert (H : addLogEntry (toJS e2) s1 = returns s1 []).
  { apply (addLogEntry_same_key_later (toJS e1) (toJS e2) (logId e1) between s).
    - apply logId_of_toJS.
    - rewrite Hk. apply logId_of_toJS. }
  rewrite H. repeat split; assumption || reflexivity.
Qed.

(** C4. For a novel entry the script assigns [scrollTop] exactly when
    autoscroll is enabled and the viewport was within 100 pixels of the
    bottom, or the container was empty, before the entry was appended.
    When it does, the viewport is at the bottom of the container as it is
    right after the append; when it does not, the offset is left as it
    was. So with autoscroll enabled, a reader who is not near the bottom
    is not moved -- of a non-empty container, which is the only kind one
    can be away from the bottom of when offsets are not negative and an
    empty container has nothing to scroll -- and a reader at or near the
    bottom is taken to the bottom. *)
Theorem autoscroll_decision (log : JSValue) (s : Page) (el : LogsEl)
        (k : string) :
  logsEl s = Some el -> logId_of log = Normal k -> k ∉ displayedLogIds s ->
  0 <= clientHeight el ->
  exists en el',
    createEntry log = Normal en
    /\ logsEl (post (addLogEntry log s)) = Some el'
    /\ (scrolled (effects (addLogEntry log s))
        <-> autoscrollEnabled s = true
            /\ (near_bottom el \/ children el = []))
    /\ (scrolled (effects (addLogEntry log s)) ->
        scrollTop el' = bottom (appendChild en el))
    /\ (~ scrolled (effects (addLogEntry log s)) ->
        scrollTop el' = scrollTop el)
    /\ (autoscrollEnabled s = true -> ~ near_bottom el -> children el <> [] ->
        ~ scrolled (effects (addLogEntry log s))
        /\ scrollTop el' = scrollTop el)
    /\ (autoscrollEnabled s = true -> ~ near_bottom el ->
        0 <= scrollTop el -> contentHeight [] <= clientHeight el ->
        ~ scrolled (effects (addLogEntry log s))
        /\ scrollTop el' = scrollTop el)
    /\ (autoscrollEnabled s = true -> near_bottom el ->
        scrolled (effects (addLogEntry log s))
        /\ scrollTop el' = bottom (appendChild en el)).
Proof.
  tidy.
  intros Hel Hk Hnew Hch.
  destruct (createEntry_total log k Hk) as (en & Hen & _).
  exists en, (after_append (will_scroll s el) en el).
  rewrite (addLogEntry_novel log s el k en Hel Hk Hnew Hen).
  cbn [post effects returns logsEl set_logsEl].
  rewrite scrolled_novel, scrollTop_after_append by assumption.
  pose proof (will_scroll_spec s el) as Hspec.
  pose proof (empty_is_near_bottom el) as Hempty.
  destruct (will_scroll s el); intuition (discriminate || congruence).
Qed.

(** C5. When the socket closes, for whatever reason, the handler sets one
    timer that calls [initWebSocket] again, due exactly 3000 ms after the
    close. Whatever happens next, no socket is opened before those three
    seconds have passed. The handler keeps no count of attempts and the
    delay is a constant: however many times the socket has closed
    before, the next close is followed, after the same three seconds, by
    one more attempt. The two premises hold whenever a socket closes on a
    page reached from a load: only a live socket closes, and a live socket
    has no reconnect pending. *)
Theorem reconnect_after_three_seconds (reason : string) (s : Page) :
  live s -> no_reconnect_pending s ->
  (exists s1 fx1,
      dispatch (SocketCloses reason) s = Some (s1, fx1)
      /\ ws s1 = Some CLOSED
      /\ timers s1
         = timers s ++ [{| due := now s + 3000; callback := CbInitWebSocket;
                           period := None |}]
      /\ In (SetTimeout CbInitWebSocket 3000) fx1
      /\ connects fx1 = 0%nat)
  /\ (forall evs s2 fx,
         run (SocketCloses reason :: evs) s = Some (s2, fx) ->
         (0 < connects fx)%nat -> now s + 3000 <= now s2)
  /\ (forall n, exists s' fx,
         run (reconnect_rounds n (length (timers s)) reason) s = Some (s', fx)
         /\ connects fx = n
         /\ now s' = now s + 3000 * Z.of_nat n
         /\ live s')
  /\ (forall c logs evs s0 fx0,
         run evs (post (DOMContentLoaded c (script_loaded logs)))
         = Some (s0, fx0) ->
         live s0 -> no_reconnect_pending s0).
Proof.
  intros Hlive Hnone.
  pose proof (dispatch_close reason s Hlive) as Hd.
  split; [|split; [|split]].
  - eexists _, _. split; [exact Hd|]. cbn. repeat split. right. left. reflexivity.
  - intros evs s2 fx Hrun Hc. cbn [run] in Hrun. rewrite Hd in Hrun.
    cbn [report ws_onclose returns post effects thrown] in Hrun.
    set (s1 := set_timers _ _) in Hrun.
    destruct (run evs s1) as [[s2' fx2]|] eqn:E; [|discriminate].
    injection Hrun as <- <-.
    apply (run_reconnects (now s + 3000) evs s1 s2' fx2).
    + split; [cbn; lia|]. cbn [timers s1 set_timers]. apply Forall_app. split.
      * eapply Forall_impl; [exact Hnone|]. cbn. intros t Hne Hcb. contradiction.
      * apply Forall_singleton. cbn. intros _. split; [reflexivity|lia].
    + exact E.
    + unfold connects in *. cbn in Hc. exact Hc.
  - intros n.
    destruct (reconnect_rounds_run n reason s Hlive)
      as (s' & fx & Hrun & Hc & Hnow & _ & Hl).
    exists s', fx. repeat split; assumption.
  - intros c logs evs s0 fx0. apply live_has_no_reconnect_pending.
Qed.

(** C6, as the script has it. The poll interval fires whatever the
    state of the channel and is armed again for 10 s later; from the
    moment the page has loaded it is never dropped. A tick that finds the
    channel open does nothing: no fetch, no effect at all, and apart from
    the timer being armed again the page (DisplayBuffer and seen-set
    included) is unchanged. A tick that finds it not open starts one
    fetch. In no turn of the loop is a fetch started while the channel is
    open. The guard is not evaluated again once the fetch has settled: a
    pull that is in flight when the channel opens still delivers, and a
    novel event it carries is appended while the channel is open. *)
Theorem poll_idle_while_open (i : nat) (d : Z) (ctor : option JSError)
        (s : Page) :
  timers s !! i = Some (poll_at d) -> d <= now s ->
  exists s' fx,
    dispatch (TimerFires i ctor) s = Some (s', fx)
    /\ timers s' !! i = Some (poll_at (now s + 10000))
    /\ (ws s = Some OPEN -> fx = [] /\ s' = set_timers (timers s') s)
    /\ (ws s <> Some OPEN ->
        fx = [Fetch "/api/logs"]
        /\ s' = set_inflight (S (inflight s)) (set_timers (timers s') s))
    /\ buffer s' = buffer s
    /\ displayedLogIds s' = displayedLogIds s
    /\ (forall ev s0 s1 fx1,
           dispatch ev s0 = Some (s1, fx1) -> (0 < fetches fx1)%nat ->
           ws s0 <> Some OPEN)
    /\ (forall logs c evs s2 fx2,
           run evs (post (DOMContentLoaded c (script_loaded logs)))
           = Some (s2, fx2) ->
           poll_armed s2)
    /\ (forall status e s0 el n,
           ws s0 = Some OPEN -> inflight s0 = S n -> logsEl s0 = Some el ->
           res_ok status = true -> logId e ∉ displayedLogIds s0 ->
           exists s1 fx1,
             dispatch (FetchSettles (logs_response status e)) s0
             = Some (s1, fx1)
             /\ ws s1 = Some OPEN
             /\ In (AppendChild (entry_of e)) fx1
             /\ last (buffer s1) = Some (entry_of e)).
Proof.
  intros Ht Hdue.
  set (t' := poll_at (now s + 10000)).
  set (s1 := set_timers (<[i := t']> (timers s)) s).
  assert (Hre : rearm i (poll_at d) s = s1) by reflexivity.
  assert (Hd : dispatch (TimerFires i ctor) s = Some (report (poll_tick s1))).
  { cbn [dispatch]. rewrite Ht. cbn [due callback poll_at].
    apply Z.leb_le in Hdue. rewrite Hdue, Hre. reflexivity. }
  assert (Hlk : <[i := t']> (timers s) !! i = Some t').
  { apply list_lookup_insert_eq. apply lookup_lt_Some in Ht. exact Ht. }
  assert (Hlast : forall logs c evs s2 fx2,
             run evs (post (DOMContentLoaded c (script_loaded logs)))
             = Some (s2, fx2) -> poll_armed s2).
  { intros logs c evs s2 fx2. apply run_poll_armed.
    unfold DOMContentLoaded, initWebSocket.
    destruct c; eexists; reflexivity. }
  assert (Hlate : forall status e s0 el n,
             ws s0 = Some OPEN -> inflight s0 = S n -> logsEl s0 = Some el ->
             res_ok status = true -> logId e ∉ displayedLogIds s0 ->
             exists s2 fx2,
               dispatch (FetchSettles (logs_response status e)) s0
               = Some (s2, fx2)
               /\ ws s2 = Some OPEN
               /\ In (AppendChild (entry_of e)) fx2
               /\ last (buffer s2) = Some (entry_of e)).
  { intros status e s0 el n Hopen Hin El Hok Hout.
    destruct (late_pull_is_appended status e s0 el n Hin El Hok Hout)
      as (s2 & fx2 & Hdis & Hws & Happ & Hlst).
    exists s2, fx2. rewrite Hws. repeat split; assumption. }
  destruct (decide (ws s = Some OPEN)) as [Hopen|Hnot].
  - exists s1, []. rewrite Hd, (poll_tick_open s1 Hopen).
    split; [reflexivity|]. split; [exact Hlk|].
    split; [intros _; split; reflexivity|].
    split; [intros H; contradiction|].
    split; [reflexivity|]. split; [reflexivity|].
    split; [apply dispatch_fetch_guarded|].
    split; [exact Hlast|exact Hlate].
  - exists (set_inflight (S (inflight s)) s1), [Fetch "/api/logs"].
    rewrite Hd, (poll_tick_not_open s1 Hnot).
    split; [reflexivity|]. split; [exact Hlk|].
    split; [intros H; contradiction|].
    split; [intros _; split; reflexivity|].
    split; [reflexivity|]. split; [reflexivity|].
    split; [apply dispatch_fetch_guarded|].
    split; [exact Hlast|exact Hlate].
Qed.

(** C7. A frame that [JSON.parse] rejects makes the message handler throw
    before it has touched anything: no entry is added and the page is
    the one it was. The exception leaves the handler and is reported on
    the console; the loop goes on, and everything that arrives afterwards
    is handled exactly as if the frame had never come. *)
Theorem malformed_frame_dropped (data : string) (s : Page) :
  JSON_parse data = None -> ws s = Some OPEN ->
  ws_onmessage data s = throws s [] SyntaxError
  /\ dispatch (SocketMessage data) s = Some (s, [ReportUncaught SyntaxError])
  /\ forall rest,
      run (SocketMessage data :: rest) s
      = match run rest s with
        | Some (s2, fx) => Some (s2, ReportUncaught SyntaxError :: fx)
        | None => None
        end.
Proof.
  intros Hparse Hopen.
  assert (H1 : ws_onmessage data s = throws s [] SyntaxError).
  { unfold ws_onmessage. rewrite Hparse. reflexivity. }
  assert (H2 : dispatch (SocketMessage data) s
               = Some (s, [ReportUncaught SyntaxError])).
  { cbn [dispatch]. rewrite Hopen, H1. reflexivity. }
  split; [exact H1|]. split; [exact H2|].
  intros rest. cbn [run]. rewrite H2.
  destruct (run rest s) as [[s2 fx]|]; reflexivity.
Qed.

(** C8, as the script has it. A pull that fails leaves the page as it
    was but for the fetch no longer being in flight: nothing is appended,
    the DisplayBuffer and the seen-set are unchanged, no exception leaves
    the callback and no second fetch is started. A rejected fetch writes
    one line to the console with [console.error]; a response whose status
    is outside 200..299 is skipped without writing anything. *)
Theorem failed_poll_skips_tick (r : FetchResult) (s : Page) :
  fetch_failed r ->
  post (poll_settled r s) = set_inflight (Nat.pred (inflight s)) s
  /\ thrown (poll_settled r s) = None
  /\ effects (poll_settled r s)
     = match r with
       | Rejected e => [ConsoleError "[Dashboard] Polling failed" (Some e)]
       | Response _ _ => []
       end
  /\ buffer (post (poll_settled r s)) = buffer s
  /\ displayedLogIds (post (poll_settled r s)) = displayedLogIds s
  /\ fetches (effects (poll_settled r s)) = 0%nat
  /\ timers (post (poll_settled r s)) = timers s.
Proof.
  intros Hfail. unfold poll_settled, poll_try.
  destruct r as [e|status json]; cbn [fetch_failed] in Hfail.
  - repeat split; reflexivity.
  - rewrite Hfail. repeat split; reflexivity.
Qed.

(** C9. Once an event has been accepted with the container in place, its
    key stays in the seen-set through everything that is accepted later:
    no call, and no turn of the loop, removes a key, whether or not it
    evicts entries. A later
    duplicate of the event is therefore discarded, and the length of the
    DisplayBuffer is unchanged by it, also when the entry of the event
    has been evicted in between. *)
Theorem seen_set_outlives_eviction (e : LogEvent) (logs : list JSValue)
        (s : Page) (el : LogsEl) :
  logsEl s = Some el ->
  let s2 := accept_all (toJS e :: logs) s in
  displayedLogIds s ⊆ displayedLogIds s2
  /\ logId e ∈ displayedLogIds s2
  /\ addLogEntry (toJS e) s2 = returns s2 []
  /\ length (buffer (post (addLogEntry (toJS e) s2))) = length (buffer s2)
  /\ (forall log s',
         displayedLogIds s' ⊆ displayedLogIds (post (addLogEntry log s')))
  /\ (forall ev s0 s1 fx,
         dispatch ev s0 = Some (s1, fx) ->
         displayedLogIds s0 ⊆ displayedLogIds s1).
Proof.
  intros Hel s2.
  assert (Hin : logId e ∈ displayedLogIds s2).
  { unfold s2. rewrite accept_all_cons. apply accept_all_seen_mono.
    apply (addLogEntry_records (toJS e) s el); [exact Hel|apply logId_of_toJS]. }
  assert (H : addLogEntry (toJS e) s2 = returns s2 []).
  { apply (addLogEntry_known (toJS e) s2 (logId e));
      [apply logId_of_toJS|exact Hin]. }
  split; [apply accept_all_seen_mono|]. split; [exact Hin|].
  split; [exact H|]. split; [rewrite H; reflexivity|].
  split; [intros log s'; apply addLogEntry_seen_mono|].
  intros ev s0 s1 fx. apply dispatch_seen_mono.
Qed.

(** C10. Without the [#logs] element [addLogEntry] returns at once: no
    exception, no effect, and the page -- seen-set, DisplayBuffer and
    scroll offset included -- is the one it was given, so the key of the
    event is not recorded. When the same event is delivered again after
    the element has come into existence, and its key has not been recorded
    by then, it is accepted as novel: its entry is appended at the tail
    and its key recorded. On a page loaded without the element nothing is
    ever recorded, so there this holds for every event. *)
Theorem absent_container_leaves_no_trace (e : LogEvent) (s : Page) :
  logsEl s = None ->
  addLogEntry (toJS e) s = returns s []
  /\ displayedLogIds (post (addLogEntry (toJS e) s)) = displayedLogIds s
  /\ buffer (post (addLogEntry (toJS e) s)) = buffer s
  /\ (forall el,
         logId e ∉ displayedLogIds s ->
         let s' := set_logsEl (Some el) (post (addLogEntry (toJS e) s)) in
         In (AppendChild (entry_of e)) (effects (addLogEntry (toJS e) s'))
         /\ last (buffer (post (addLogEntry (toJS e) s'))) = Some (entry_of e)
         /\ logId e ∈ displayedLogIds (post (addLogEntry (toJS e) s')))
  /\ (forall c evs s0 fx,
         run evs (post (DOMContentLoaded c (script_loaded None)))
         = Some (s0, fx) ->
         logsEl s0 = None /\ displayedLogIds s0 = ∅).
Proof.
  intros Hel.
  rewrite (addLogEntry_absent (toJS e) s Hel). cbn [post returns].
  split; [reflexivity|]. split; [reflexivity|]. split; [reflexivity|]. split.
  - intros el Hnew. cbv zeta. set (s' := set_logsEl (Some el) s).
    rewrite (addLogEntry_novel (toJS e) s' el (logId e) (entry_of e) eq_refl
               (logId_of_toJS e) Hnew (createEntry_toJS e)).
    cbn [post effects returns]. split; [left; reflexivity|].
    split.
    + unfold buffer. cbn [logsEl set_logsEl].
      rewrite children_after_append. apply last_lastn_snoc.
    + cbn. apply elem_of_union_l, elem_of_singleton_2. reflexivity.
  - intros c evs s0 fx. apply run_nothing_recorded.
    unfold DOMContentLoaded, initWebSocket. destruct c; split; reflexivity.
Qed.

(** ** Further properties of the pipeline *)

(** *** Logs the key derivation rejects *)

Lemma JSValue_nested_ind (P : JSValue -> Prop) :
  P JUndefined -> P JNull -> (forall b, P (JBool b)) ->
  (forall n, P (JNumber n)) -> (forall str, P (JString str)) ->
  (forall items, Forall P items -> P (JArray items)) ->
  (forall fields, P (JObject fields)) ->
  forall v, P v.
Proof.
  intros Hu Hn Hb Hz Hs Ha Ho.
  fix IH 1.
  intros [| | b | n | str | items | fields];
    [exact Hu | exact Hn | apply Hb | apply Hz | apply Hs | | apply Ho].
  apply Ha. induction items as [|x rest IHr]; constructor;
    [apply IH | exact IHr].
Qed.

Lemma ToString_throws_TypeError (v : JSValue) (e : JSError) :
  ToString v = Throw e -> e = TypeError.
Proof.
  revert e. induction v as [| | b | n | str | items IH | fields]
    using JSValue_nested_ind; intros e; cbn; try discriminate.
  - induction IH as [|x rest Hx _ IHrest]; [discriminate|].
    intros H.
    destruct (match x with
              | JUndefined | JNull => Normal ""
              | _ => ToString x
              end) as [sx|ex] eqn:Ex; cbn in H.
    + match type of IHrest with
      | ?j = _ -> _ => destruct j as [sr|er]
      end; destruct rest as [|y rest']; cbn in H; try discriminate.
      injection H as <-. apply IHrest. reflexivity.
    + injection H as <-. destruct x; try discriminate; apply Hx; exact Ex.
  - destruct (own_property "toString" fields); [|discriminate].
    intros H. injection H as <-. reflexivity.
Qed.

Lemma Get_throws_TypeError (v : JSValue) (k : string) (e : JSError) :
  Get v k = Throw e -> e = TypeError.
Proof. destruct v; cbn; intros H; try discriminate; congruence. Qed.

Lemma logId_of_throws_TypeError (log : JSValue) (e : JSError) :
  logId_of log = Throw e -> e = TypeError.
Proof.
  unfold logId_of. intros H.
  destruct (Get log "timestamp") as [ts|e1] eqn:E1; cbn in H;
    [|injection H as <-; eapply Get_throws_TypeError; eauto].
  destruct (ToString ts) as [ts_s|e2] eqn:E2; cbn in H;
    [|injection H as <-; eapply ToString_throws_TypeError; eauto].
  destruct (Get log "level") as [lv|e3] eqn:E3; cbn in H;
    [|injection H as <-; eapply Get_throws_TypeError; eauto].
  destruct (ToString lv) as [lv_s|e4] eqn:E4; cbn in H;
    [|injection H as <-; eapply ToString_throws_TypeError; eauto].
  destruct (Get log "message") as [msg|e5] eqn:E5; cbn in H;
    [|injection H as <-; eapply Get_throws_TypeError; eauto].
  destruct msg; cbn in H; try discriminate; congruence.
Qed.

(** A log with a key is an object that carries a string under
    [message]. *)
Lemma keyed_has_message (log : JSValue) :
  keyed log ->
  exists fields m,
    log = JObject fields /\ own_property "message" fields = Some (JString m).
Proof.
  intros [k H]. unfold logId_of in H.
  destruct (Get log "timestamp") as [ts|e1] eqn:E1; cbn in H; [|discriminate].
  destruct (ToString ts) as [ts_s|e2] eqn:E2; cbn in H; [|discriminate].
  destruct (Get log "level") as [lv|e3] eqn:E3; cbn in H; [|discriminate].
  destruct (ToString lv) as [lv_s|e4] eqn:E4; cbn in H; [|discriminate].
  destruct (Get log "message") as [msg|e5] eqn:E5; cbn in H; [|discriminate].
  destruct msg as [| | | | m | |]; cbn in H; try discriminate.
  destruct log as [| | | | | |fields]; cbn in E5; try discriminate.
  exists fields, m. split; [reflexivity|].
  destruct (own_property "message" fields) as [v|]; cbn in E5; congruence.
Qed.

Lemma addLogEntry_thrown (log : JSValue) (s : Page) (e : JSError) :
  thrown (addLogEntry log s) = Some e
  <-> logsEl s <> None /\ logId_of log = Throw e.
Proof.
  split.
  - intros H. destruct (logsEl s) as [el|] eqn:El.
    + split; [discriminate|].
      destruct (logId_of log) as [k|e'] eqn:Ek.
      * destruct (decide (k ∈ displayedLogIds s)) as [Hin|Hout].
        -- rewrite (addLogEntry_seen log s el k El Ek Hin) in H. discriminate.
        -- destruct (createEntry_total log k Ek) as (en & Hen & _).
           rewrite (addLogEntry_novel log s el k en El Ek Hout Hen) in H.
           discriminate.
      * rewrite (addLogEntry_throw log s el e' El Ek) in H.
        cbn in H. congruence.
    + rewrite (addLogEntry_absent log s El) in H. discriminate.
  - intros [Hel Hk]. destruct (logsEl s) as [el|] eqn:El; [|congruence].
    rewrite (addLogEntry_throw log s el e El Hk). reflexivity.
Qed.

Lemma addLogEntry_not_thrown (log : JSValue) (s : Page) :
  keyed log -> thrown (addLogEntry log s) = None.
Proof.
  intros [k Hk]. destruct (thrown (addLogEntry log s)) as [e|] eqn:E;
    [|reflexivity].
  apply addLogEntry_thrown in E as [_ E]. congruence.
Qed.

(** X1. [addLogEntry] throws exactly when the container exists and the
    key derivation fails; the exception is then a [TypeError], raised
    before anything was touched: the page is unchanged and no effect was
    made. A log that goes through with the container in place is an object
    with a string under [message]. *)
Theorem addLogEntry_fails_before_touching (log : JSValue) (s : Page)
        (e : JSError) :
  (thrown (addLogEntry log s) = Some e
   <-> logsEl s <> None /\ logId_of log = Throw e)
  /\ (thrown (addLogEntry log s) = Some e ->
      e = TypeError
      /\ post (addLogEntry log s) = s
      /\ effects (addLogEntry log s) = [])
  /\ (logsEl s <> None -> thrown (addLogEntry log s) = None ->
      exists fields m,
        log = JObject fields
        /\ own_property "message" fields = Some (JString m)).
Proof.
  split; [apply addLogEntry_thrown|]. split.
  - intros H. apply addLogEntry_thrown in H as [Hel Hk].
    split; [eapply logId_of_throws_TypeError; eauto|].
    destruct (logsEl s) as [el|] eqn:El; [|congruence].
    rewrite (addLogEntry_throw log s el e El Hk). split; reflexivity.
  - intros Hel Hok. apply keyed_has_message.
    destruct (logId_of log) as [k|e'] eqn:Ek; [exists k; exact Ek|].
    assert (Hthrown : thrown (addLogEntry log s) = Some e')
      by (apply addLogEntry_thrown; split; assumption).
    congruence.
Qed.

(** *** Displayed entries and their keys *)

Lemma keys_consistent_ext (s s' : Page) :
  buffer s' = buffer s -> displayedLogIds s ⊆ displayedLogIds s' ->
  keys_consistent s -> keys_consistent s'.
Proof.
  intros Hb Hids [Hnd Hall]. unfold keys_consistent. rewrite Hb.
  split; [exact Hnd|].
  eapply Forall_impl; [exact Hall|].
  intros en (k & Hk & Hin). exists k. split; [exact Hk|].
  apply Hids. exact Hin.
Qed.

Lemma addLogEntry_keys_consistent (log : JSValue) (s : Page) :
  keys_consistent s -> keys_consistent (post (addLogEntry log s)).
Proof.
  intros [Hnd Hall].
  destruct (addLogEntry_cases log s)
    as [[-> _] | (el & k & en & El & Ek & Hout & Hen & Hfrom & ->)];
    [split; assumption|].
  unfold keys_consistent, buffer in *. cbn [logsEl set_logsEl displayedLogIds
    set_displayedLogIds]. rewrite El in Hnd, Hall.
  rewrite children_after_append.
  assert (Hkey : entry_key en = Normal k)
    by (unfold entry_key; rewrite Hfrom; exact Ek).
  assert (Hall' : Forall (fun en0 => exists k0, entry_key en0 = Normal k0
                            /\ k0 ∈ {[k]} ∪ displayedLogIds s)
                         (children el ++ [en])).
  { apply Forall_app. split.
    - eapply Forall_impl; [exact Hall|].
      intros en0 (k0 & Hk0 & Hin). exists k0. split; [exact Hk0|].
      apply elem_of_union_r. exact Hin.
    - apply Forall_singleton. exists k. split; [exact Hkey|].
      apply elem_of_union_l, elem_of_singleton_2. reflexivity. }
  split.
  - rewrite <- lastn_map. unfold lastn.
    eapply sublist_NoDup; [|apply sublist_drop].
    rewrite map_app. apply NoDup_app. split; [exact Hnd|]. split.
    + intros x Hx Hx'. cbn in Hx'. apply list_elem_of_singleton in Hx'.
      subst x.
      change (entry_key en ∈ entry_key <$> children el) in Hx.
      apply list_elem_of_fmap in Hx as (en0 & Heq & Hin0).
      rewrite Forall_forall in Hall.
      destruct (Hall en0 Hin0) as (k0 & Hk0 & Hk0in).
      rewrite Hkey, Hk0 in Heq. injection Heq as ->. contradiction.
    + cbn. apply NoDup_singleton.
  - unfold lastn. apply Forall_drop. exact Hall'.
Qed.

Lemma forEach_keys_consistent (items : list JSValue) (s : Page) :
  keys_consistent s -> keys_consistent (post (forEach_addLogEntry items s)).
Proof.
  revert s. induction items as [|log rest IH]; intros s Hs; [exact Hs|].
  cbn [forEach_addLogEntry].
  destruct (thrown (addLogEntry log s)) eqn:E.
  - apply addLogEntry_keys_consistent. exact Hs.
  - cbn [post]. apply IH, addLogEntry_keys_consistent. exact Hs.
Qed.

Lemma poll_settled_keys_consistent (r : FetchResult) (s : Page) :
  keys_consistent s -> keys_consistent (post (poll_settled r s)).
Proof.
  intros Hs. rewrite poll_settled_post.
  assert (Hs0 : keys_consistent (set_inflight (Nat.pred (inflight s)) s))
    by exact Hs.
  destruct (poll_try_cases r (set_inflight (Nat.pred (inflight s)) s))
    as [[-> _] | [items ->]]; [exact Hs0|].
  apply forEach_keys_consistent. exact Hs0.
Qed.

Lemma toggle_buffer (checked : bool) (s : Page) :
  buffer (post (toggle_onchange checked s)) = buffer s
  /\ displayedLogIds (post (toggle_onchange checked s)) = displayedLogIds s.
Proof.
  unfold toggle_onchange, buffer.
  destruct checked; cbn; [|split; reflexivity].
  destruct (logsEl s) eqn:El; cbn; [|rewrite El]; split; reflexivity.
Qed.

Lemma run_callback_buffer (cb : Callback) (ctor : option JSError) (s : Page) :
  buffer (post (run_callback cb ctor s)) = buffer s
  /\ displayedLogIds (post (run_callback cb ctor s)) = displayedLogIds s.
Proof.
  destruct cb; cbn.
  - destruct ctor; split; reflexivity.
  - unfold poll_tick. destruct (poll_guard s); split; reflexivity.
Qed.

Lemma rearm_buffer (i : nat) (t : Timer) (s : Page) :
  buffer (rearm i t s) = buffer s
  /\ displayedLogIds (rearm i t s) = displayedLogIds s.
Proof. unfold rearm. destruct (period t); split; reflexivity. Qed.

Lemma dispatch_keys_consistent (ev : Event) (s s' : Page) (fx : list Effect) :
  keys_consistent s -> dispatch ev s = Some (s', fx) -> keys_consistent s'.
Proof.
  intros Hs H. destruct ev as [dt|i ctor| |data| |reason|r|checked]; cbn in H.
  - destruct (0 <=? dt); [|discriminate]. injection H as <- _. exact Hs.
  - destruct (timers s !! i) as [t|]; [|discriminate].
    destruct (due t <=? now s); [|discriminate]. injection H as <- _.
    destruct (run_callback_buffer (callback t) ctor (rearm i t s)) as [Hb Hi].
    destruct (rearm_buffer i t s) as [Hb' Hi'].
    eapply keys_consistent_ext; [| |exact Hs]; cbn [fst report].
    + rewrite Hb. exact Hb'.
    + rewrite Hi, Hi'. reflexivity.
  - destruct (ws s) as [[]|]; try discriminate. injection H as <- _. exact Hs.
  - destruct (ws s) as [[]|]; try discriminate. injection H as <- _.
    cbn [fst report]. unfold ws_onmessage.
    destruct (JSON_parse data); [|exact Hs].
    apply addLogEntry_keys_consistent. exact Hs.
  - destruct (ws s) as [[]|]; try discriminate; injection H as <- _; exact Hs.
  - destruct (ws s) as [[]|]; try discriminate; injection H as <- _; exact Hs.
  - destruct (inflight s); [discriminate|]. injection H as <- _.
    cbn [fst report]. apply poll_settled_keys_consistent. exact Hs.
  - injection H as <- _. cbn [fst report].
    destruct (toggle_buffer checked s) as [Hb Hi].
    eapply keys_consistent_ext; [exact Hb| |exact Hs].
    rewrite Hi. reflexivity.
Qed.

Lemma run_keys_consistent (evs : list Event) (s s' : Page) (fx : list Effect) :
  keys_consistent s -> run evs s = Some (s', fx) -> keys_consistent s'.
Proof.
  revert s fx. induction evs as [|ev rest IH]; intros s fx Hs H; cbn in H.
  - injection H as <- _. exact Hs.
  - destruct (dispatch ev s) as [[s1 fx1]|] eqn:E1; [|discriminate].
    destruct (run rest s1) as [[s2 fx2]|] eqn:E2; [|discriminate].
    injection H as <- _.
    eapply IH; [|exact E2]. eapply dispatch_keys_consistent; eauto.
Qed.

(** X2. On a page loaded with an empty (or no) container, whatever the
    loop has delivered since -- frames, polls with good or bad logs,
    timers, toggles, evictions -- every displayed entry was created from
    a log whose key is in the seen-set, and no two displayed entries were
    created from logs with the same key. *)
Theorem displayed_keys_are_distinct (c : option JSError)
        (logs : option LogsEl) (evs : list Event) (s : Page)
        (fx : list Effect) :
  buffer (script_loaded logs) = [] ->
  run evs (post (DOMContentLoaded c (script_loaded logs))) = Some (s, fx) ->
  (forall en, en ∈ buffer s ->
     exists k, logId_of (created_from en) = Normal k
               /\ k ∈ displayedLogIds s)
  /\ (forall i j en1 en2,
        buffer s !! i = Some en1 -> buffer s !! j = Some en2 ->
        logId_of (created_from en1) = logId_of (created_from en2) -> i = j).
Proof.
  intros Hempty Hrun.
  assert (H0 : keys_consistent (post (DOMContentLoaded c (script_loaded logs)))).
  { apply (keys_consistent_ext (script_loaded logs)).
    - destruct c; reflexivity.
    - destruct c; reflexivity.
    - unfold keys_consistent. rewrite Hempty. split; constructor. }
  destruct (run_keys_consistent evs _ s fx H0 Hrun) as [Hnd Hall].
  split.
  - intros en Hen. rewrite Forall_forall in Hall. exact (Hall en Hen).
  - intros i j en1 en2 Hi Hj Heq.
    apply (NoDup_lookup _ i j (entry_key en1) Hnd).
    + change (map entry_key (buffer s)) with (entry_key <$> buffer s).
      rewrite list_lookup_fmap, Hi. reflexivity.
    + change (map entry_key (buffer s)) with (entry_key <$> buffer s).
      rewrite list_lookup_fmap, Hj. cbn. unfold entry_key. congruence.
Qed.

(** *** The seen-set as a set *)

Lemma accept_all_seen_keys (es : list LogEvent) (s : Page) (el : LogsEl) :
  logsEl s = Some el ->
  displayedLogIds (accept_all (map toJS es) s)
  = list_to_set (map logId es) ∪ displayedLogIds s.
Proof.
  revert s el. induction es as [|e es IH]; intros s el El.
  - cbn. rewrite (left_id_L ∅ (∪)). reflexivity.
  - cbn [map]. rewrite accept_all_cons.
    destruct (decide (logId e ∈ displayedLogIds s)) as [Hin|Hout].
    + rewrite (addLogEntry_seen _ s el _ El (logId_of_toJS e) Hin).
      cbn [post returns]. rewrite (IH s el El). cbn [list_to_set foldr].
      clear - Hin. set_solver.
    + rewrite (addLogEntry_novel _ s el _ _ El (logId_of_toJS e) Hout
                 (createEntry_toJS e)).
      cbn [post returns]. erewrite IH; [|reflexivity].
      cbn [displayedLogIds set_logsEl set_displayedLogIds list_to_set foldr].
      clear. set_solver.
Qed.

(** X3. With the container in place, the seen-set after a batch of
    well-formed events is the set of their keys added to what was there:
    duplicates within the batch count once, and the order in which the
    events arrive does not matter (it does for the DisplayBuffer). *)
Theorem seen_set_is_order_independent (es es' : list LogEvent) (s : Page)
        (el : LogsEl) :
  logsEl s = Some el ->
  displayedLogIds (accept_all (map toJS es) s)
  = list_to_set (map logId es) ∪ displayedLogIds s
  /\ (es ≡ₚ es' ->
      displayedLogIds (accept_all (map toJS es') s)
      = displayedLogIds (accept_all (map toJS es) s)).
Proof.
  intros El. split; [apply (accept_all_seen_keys es s el El)|].
  intros Hperm.
  rewrite (accept_all_seen_keys es s el El), (accept_all_seen_keys es' s el El).
  f_equal. apply list_to_set_perm_L.
  change (logId <$> es' ≡ₚ logId <$> es). rewrite Hperm. reflexivity.
Qed.

(** *** What the key tells apart *)

Lemma string_app_inj_l (a b c : string) : a +:+ b = a +:+ c -> b = c.
Proof.
  induction a as [|x a IH]; [intros H; exact H|].
  rewrite !string_app_cons. intros H. injection H as H. exact (IH H).
Qed.

Lemma string_length_app (a b : string) :
  String.length (a +:+ b) = (String.length a + String.length b)%nat.
Proof.
  induction a as [|x a IH]; [reflexivity|].
  rewrite string_app_cons. cbn. rewrite IH. reflexivity.
Qed.

Lemma substring_0_short (n : nat) (str : string) :
  (String.length str <= n)%nat -> String.substring 0 n str = str.
Proof.
  tidy. revert n. induction str as [|x str IH]; intros n H.
  - destruct n; reflexivity.
  - destruct n; cbn in H; [lia|]. cbn. rewrite IH; [reflexivity|lia].
Qed.

Lemma no_dash_sep_inj (a1 a2 r1 r2 : string) :
  no_dash a1 = true -> no_dash a2 = true ->
  a1 +:+ String "-" r1 = a2 +:+ String "-" r2 -> a1 = a2 /\ r1 = r2.
Proof.
  revert a2. induction a1 as [|x a1 IH]; intros [|y a2] H1 H2;
    rewrite ?string_app_cons; intros H.
  - injection H as ->. split; reflexivity.
  - injection H as <- _. discriminate.
  - injection H as -> _. discriminate.
  - injection H as -> H. cbn in H1, H2.
    apply andb_true_iff in H1 as [_ H1]. apply andb_true_iff in H2 as [_ H2].
    destruct (IH a2 H1 H2 H) as [-> ->]. split; reflexivity.
Qed.

Lemma logId_fields (e1 e2 : LogEvent) :
  no_dash (level e1) = true -> no_dash (level e2) = true ->
  logId e1 = logId e2 ->
  timestamp e1 = timestamp e2 /\ level e1 = level e2
  /\ String.substring 0 50 (message e1) = String.substring 0 50 (message e2).
Proof.
  intros H1 H2 H.
  pose proof (logId_timestamp e1 e2 H) as Hts. split; [exact Hts|].
  unfold logId in H. rewrite Hts in H. apply string_app_inj_l in H.
  rewrite !string_app_cons in H. injection H as H.
  change ("" +:+ ?x) with x in H.
  exact (no_dash_sep_inj _ _ _ _ H1 H2 H).
Qed.

Lemma addLogEntry_container (log : JSValue) (s : Page) (el : LogsEl) :
  logsEl s = Some el ->
  exists el', logsEl (post (addLogEntry log s)) = Some el'.
Proof.
  intros El.
  destruct (addLogEntry_cases log s)
    as [[-> _] | (el0 & k & en & _ & _ & _ & _ & _ & ->)]; eauto.
Qed.

Lemma addLogEntry_seen_upper (log : JSValue) (s : Page) (k : string) :
  logId_of log = Normal k ->
  displayedLogIds (post (addLogEntry log s)) ⊆ {[k]} ∪ displayedLogIds s.
Proof.
  intros Hk.
  destruct (addLogEntry_cases log s)
    as [[-> _] | (el0 & k0 & en & _ & Hk0 & _ & _ & _ & ->)].
  - apply union_subseteq_r.
  - cbn. rewrite Hk in Hk0. injection Hk0 as <-. reflexivity.
Qed.

(** X4. For events whose level contains no dash, the key tells
    everything it is made of: two events have the same key exactly when
    they agree on the timestamp, the level and the first 50 characters of
    the message. An event that differs from the one accepted just before
    it in any of the three, and whose key was not recorded earlier, is
    therefore displayed. *)
Theorem same_key_only_if_same_fields (e1 e2 : LogEvent) :
  no_dash (level e1) = true -> no_dash (level e2) = true ->
  (logId e1 = logId e2
   <-> timestamp e1 = timestamp e2 /\ level e1 = level e2
       /\ String.substring 0 50 (message e1)
          = String.substring 0 50 (message e2))
  /\ forall s el,
      logsEl s = Some el ->
      logId e2 ∉ displayedLogIds s ->
      timestamp e1 <> timestamp e2 \/ level e1 <> level e2
      \/ String.substring 0 50 (message e1)
         <> String.substring 0 50 (message e2) ->
      last (buffer (post (addLogEntry (toJS e2)
                            (post (addLogEntry (toJS e1) s)))))
      = Some (entry_of e2).
Proof.
  intros H1 H2. split.
  - split; [apply logId_fields; assumption|].
    intros (Hts & Hlv & Hm). unfold logId. rewrite Hts, Hlv, Hm. reflexivity.
  - intros s el El Hout Hdiff.
    assert (Hne : logId e1 <> logId e2).
    { intros Heq. destruct (logId_fields e1 e2 H1 H2 Heq) as (? & ? & ?).
      destruct Hdiff as [?|[?|?]]; contradiction. }
    destruct (addLogEntry_container (toJS e1) s el El) as [el1 El1].
    assert (Hout1 : logId e2 ∉ displayedLogIds (post (addLogEntry (toJS e1) s))).
    { intros Hin.
      apply (addLogEntry_seen_upper _ s _ (logId_of_toJS e1)) in Hin.
      apply elem_of_union in Hin as [Hin|Hin]; [|contradiction].
      apply elem_of_singleton in Hin. congruence. }
    rewrite (addLogEntry_novel _ _ el1 _ _ El1 (logId_of_toJS e2) Hout1
               (createEntry_toJS e2)).
    unfold buffer. cbn [post returns logsEl set_logsEl].
    rewrite children_after_append. apply (last_lastn_snoc 499).
Qed.

(** X5. The dash that separates the parts of the key is not escaped. An
    event whose level ends in [-a] and one whose message starts with [a-]
    get the same key when the rest agrees and the message is short, though
    they differ in level and in message: the second to arrive is taken for
    a duplicate and discarded. *)
Theorem dash_in_level_confuses_key (ts : Z) (l a b : string) :
  (String.length a + 1 + String.length b <= 50)%nat ->
  let e1 := {| timestamp := ts; level := l +:+ "-" +:+ a; message := b |} in
  let e2 := {| timestamp := ts; level := l; message := a +:+ "-" +:+ b |} in
  level e1 <> level e2
  /\ message e1 <> message e2
  /\ logId e1 = logId e2
  /\ forall between s,
      addLogEntry (toJS e2) (accept_all (toJS e1 :: between) s)
      = returns (accept_all (toJS e1 :: between) s) [].
Proof.
  intros Hlen e1 e2.
  assert (Hkey : logId e1 = logId e2).
  { unfold logId, e1, e2. cbn [timestamp level message].
    rewrite (substring_0_short 50 b) by lia.
    rewrite (substring_0_short 50 (a +:+ "-" +:+ b))
      by (rewrite !string_length_app; cbn; lia).
    rewrite !string_app_assoc. reflexivity. }
  split; [|split; [|split; [exact Hkey|]]].
  - cbn. intros H. apply (f_equal String.length) in H.
    rewrite !string_length_app in H. cbn in H. lia.
  - cbn. intros H. apply (f_equal String.length) in H.
    rewrite !string_length_app in H. cbn in H. lia.
  - intros between s.
    apply (addLogEntry_same_key_later (toJS e1) (toJS e2) (logId e1)).
    + apply logId_of_toJS.
    + rewrite Hkey. apply logId_of_toJS.
Qed.

(** *** Eviction in the steady state *)

Lemma filter_removals (cs : list Element) :
  List.filter is_removal (map RemoveChild cs) = map RemoveChild cs.
Proof. induction cs as [|c cs IH]; cbn; [|rewrite IH]; reflexivity. Qed.

(** X6. Into a container within the bound a novel entry evicts at most
    one entry: none while fewer than 500 are displayed, and exactly the
    oldest one once 500 are. The entry itself always stays: it is the last
    of the DisplayBuffer afterwards. *)
Theorem novel_entry_evicts_oldest (log : JSValue) (s : Page) (el : LogsEl)
        (k : string) :
  logsEl s = Some el -> logId_of log = Normal k -> k ∉ displayedLogIds s ->
  (length (children el) <= 500)%nat ->
  exists en,
    createEntry log = Normal en
    /\ List.filter is_removal (effects (addLogEntry log s))
       = (if (length (children el) =? 500)%nat
          then map RemoveChild (take 1 (children el))
          else [])
    /\ buffer (post (addLogEntry log s))
       = (if (length (children el) =? 500)%nat
          then tail (children el) ++ [en]
          else children el ++ [en])
    /\ last (buffer (post (addLogEntry log s))) = Some en.
Proof.
  intros El Ek Hout Hlen.
  destruct (createEntry_total log k Ek) as (en & Hen & _).
  exists en. split; [exact Hen|].
  rewrite (addLogEntry_novel log s el k en El Ek Hout Hen).
  unfold buffer. cbn [post returns effects logsEl set_logsEl].
  rewrite children_after_append.
  split; [|split; [|apply (last_lastn_snoc 499)]].
  - cbn [List.filter is_removal]. rewrite List.filter_app, filter_removals.
    replace (List.filter is_removal
               (if will_scroll s el
                then [SetScrollTop (scrollHeight (appendChild en el))]
                else [])) with (@nil Effect)
      by (destruct (will_scroll s el); reflexivity).
    cbn [app]. rewrite length_app. cbn [length].
    destruct (Nat.eqb_spec (length (children el)) 500) as [E|E].
    + rewrite E. replace (500 + 1 - 500)%nat with 1%nat by lia.
      destruct (children el); [discriminate|reflexivity].
    + replace (length (children el) + 1 - 500)%nat with 0%nat by lia.
      reflexivity.
  - destruct (Nat.eqb_spec (length (children el)) 500) as [E|E].
    + rewrite lastn_all_but_first
        by (rewrite length_app; cbn; lia).
      destruct (children el); [discriminate|reflexivity].
    + apply lastn_short. rewrite length_app. cbn. lia.
Qed.

(** *** The autoscroll toggle *)

Lemma scrolled_app (a b : list Effect) :
  scrolled (a ++ b) <-> scrolled a \/ scrolled b.
Proof.
  unfold scrolled. split.
  - intros [v Hv]. apply in_app_or in Hv as [Hv|Hv]; [left|right]; eauto.
  - intros [[v Hv]|[v Hv]]; exists v; apply in_or_app; [left|right]; exact Hv.
Qed.

Ltac unscrolled :=
  let v := fresh "v" in
  let Hv := fresh "Hv" in
  intros [v Hv]; cbn in Hv;
  repeat (destruct Hv as [Hv|Hv]; [discriminate|]); exact Hv.

Lemma report_scrolled (o : Outcome) :
  scrolled (effects o ++ match thrown o with
                         | Some e => [ReportUncaught e]
                         | None => []
                         end)
  <-> scrolled (effects o).
Proof.
  tidy. rewrite scrolled_app. split; [|tauto].
  intros [H|H]; [exact H|]. exfalso. revert H.
  destruct (thrown o); unscrolled.
Qed.

Lemma reported_outcome (o : Outcome) (s' : Page) (fx : list Effect) :
  Some (report o) = Some (s', fx) ->
  s' = post o
  /\ fx = effects o ++ match thrown o with
                       | Some e => [ReportUncaught e]
                       | None => []
                       end.
Proof. unfold report. intros H. injection H as <- <-. split; reflexivity. Qed.

Lemma addLogEntry_no_autoscroll (log : JSValue) (s : Page) :
  autoscrollEnabled s = false ->
  ~ scrolled (effects (addLogEntry log s))
  /\ scroll_offset (post (addLogEntry log s)) = scroll_offset s.
Proof.
  intros Hoff. destruct (logsEl s) as [el|] eqn:El.
  - destruct (logId_of log) as [k|e] eqn:Ek.
    + destruct (decide (k ∈ displayedLogIds s)) as [Hin|Hout].
      * rewrite (addLogEntry_seen log s el k El Ek Hin).
        split; [unscrolled|reflexivity].
      * destruct (createEntry_total log k Ek) as (en & Hen & _).
        rewrite (addLogEntry_novel log s el k en El Ek Hout Hen).
        assert (Hw : will_scroll s el = false)
          by (unfold will_scroll; rewrite Hoff; reflexivity).
        cbn [post effects returns]. split.
        -- rewrite scrolled_novel, Hw. discriminate.
        -- rewrite Hw. unfold scroll_offset. rewrite El. reflexivity.
    + rewrite (addLogEntry_throw log s el e El Ek).
      split; [unscrolled|reflexivity].
  - rewrite (addLogEntry_absent log s El). split; [unscrolled|reflexivity].
Qed.

Lemma forEach_no_autoscroll (items : list JSValue) (s : Page) :
  autoscrollEnabled s = false ->
  ~ scrolled (effects (forEach_addLogEntry items s))
  /\ scroll_offset (post (forEach_addLogEntry items s)) = scroll_offset s.
Proof.
  tidy.
  revert s. induction items as [|log rest IH]; intros s Hoff.
  - split; [unscrolled|reflexivity].
  - cbn [forEach_addLogEntry].
    destruct (addLogEntry_no_autoscroll log s Hoff) as [Hn Ho].
    destruct (thrown (addLogEntry log s)); [split; assumption|].
    cbn [post effects].
    destruct (addLogEntry_frame log s) as (_ & Ha & _).
    destruct (IH (post (addLogEntry log s))) as [Hn' Ho'];
      [rewrite Ha; exact Hoff|].
    split; [|rewrite Ho'; exact Ho].
    rewrite scrolled_app. tauto.
Qed.

Lemma poll_settled_no_autoscroll (r : FetchResult) (s : Page) :
  autoscrollEnabled s = false ->
  ~ scrolled (effects (poll_settled r s))
  /\ scroll_offset (post (poll_settled r s)) = scroll_offset s.
Proof.
  intros Hoff.
  set (s0 := set_inflight (Nat.pred (inflight s)) s).
  assert (H0 : ~ scrolled (effects (poll_try r s0))
               /\ scroll_offset (post (poll_try r s0)) = scroll_offset s).
  { destruct (poll_try_cases r s0) as [[-> ->] | [items ->]].
    - split; [unscrolled|reflexivity].
    - apply (forEach_no_autoscroll items s0). exact Hoff. }
  destruct H0 as [Hn Ho]. unfold poll_settled. fold s0.
  destruct (thrown (poll_try r s0)); [|split; assumption].
  cbn [post effects returns]. split; [|exact Ho].
  rewrite scrolled_app. intros [H|H]; [exact (Hn H)|]. revert H. unscrolled.
Qed.

Lemma dispatch_no_autoscroll (ev : Event) (s s' : Page) (fx : list Effect) :
  autoscrollEnabled s = false -> ev <> ToggleChanges true ->
  dispatch ev s = Some (s', fx) ->
  ~ scrolled fx /\ autoscrollEnabled s' = false
  /\ scroll_offset s' = scroll_offset s.
Proof.
  intros Hoff Hev H.
  destruct ev as [dt|i ctor| |data| |reason|r|checked]; unfold dispatch in H.
  - destruct (0 <=? dt); [|discriminate]. injection H as <- <-.
    split; [unscrolled|split; [exact Hoff|reflexivity]].
  - destruct (timers s !! i) as [t|]; [|discriminate].
    destruct (due t <=? now s); [|discriminate].
    apply reported_outcome in H as [-> ->]. rewrite report_scrolled.
    unfold rearm, run_callback, initWebSocket, poll_tick.
    destruct (period t), (callback t), ctor; cbn;
      try (destruct (poll_guard _)); cbn;
      (split; [unscrolled|split; [exact Hoff|reflexivity]]).
  - destruct (ws s) as [[]|]; try discriminate.
    apply reported_outcome in H as [-> ->]. rewrite report_scrolled.
    split; [unscrolled|split; [exact Hoff|reflexivity]].
  - destruct (ws s) as [[]|]; try discriminate.
    apply reported_outcome in H as [-> ->]. rewrite report_scrolled.
    unfold ws_onmessage.
    destruct (JSON_parse data) as [log|].
    + destruct (addLogEntry_no_autoscroll log s Hoff) as [Hn Ho].
      destruct (addLogEntry_frame log s) as (_ & Ha & _).
      split; [exact Hn|split; [rewrite Ha; exact Hoff|exact Ho]].
    + split; [unscrolled|split; [exact Hoff|reflexivity]].
  - destruct (ws s) as [[]|]; try discriminate;
      apply reported_outcome in H as [-> ->]; rewrite report_scrolled;
      (split; [unscrolled|split; [exact Hoff|reflexivity]]).
  - destruct (ws s) as [[]|]; try discriminate;
      apply reported_outcome in H as [-> ->]; rewrite report_scrolled;
      (split; [unscrolled|split; [exact Hoff|reflexivity]]).
  - destruct (inflight s); [discriminate|].
    apply reported_outcome in H as [-> ->]. rewrite report_scrolled.
    destruct (poll_settled_no_autoscroll r s Hoff) as [Hn Ho].
    destruct (poll_settled_frame r s) as (_ & Ha & _).
    split; [exact Hn|split; [rewrite Ha; exact Hoff|exact Ho]].
  - destruct checked; [congruence|].
    apply reported_outcome in H as [-> ->]. rewrite report_scrolled.
    split; [unscrolled|split; reflexivity].
Qed.

(** X7. While the autoscroll box is unticked the script never moves the
    viewport: in a run of the loop that does not tick the box again,
    whatever is delivered by the socket or by polls, nothing assigns
    [scrollTop], the offset of the container stays what it was and the
    flag stays off. Unticking itself touches nothing but the flag. *)
Theorem unticked_autoscroll_holds_viewport (evs : list Event) (s s' : Page)
        (fx : list Effect) :
  autoscrollEnabled s = false ->
  Forall (fun ev => ev <> ToggleChanges true) evs ->
  run evs s = Some (s', fx) ->
  ~ scrolled fx
  /\ scroll_offset s' = scroll_offset s
  /\ autoscrollEnabled s' = false
  /\ forall s0, toggle_onchange false s0
                = returns (set_autoscrollEnabled false s0) [].
Proof.
  intros Hoff Hevs Hrun.
  assert (H : ~ scrolled fx /\ scroll_offset s' = scroll_offset s
              /\ autoscrollEnabled s' = false).
  { revert s fx Hoff Hrun.
    induction Hevs as [|ev rest Hev _ IH]; intros s fx Hoff Hrun;
      cbn in Hrun.
    - injection Hrun as <- <-. split; [unscrolled|split; [reflexivity|exact Hoff]].
    - destruct (dispatch ev s) as [[s1 fx1]|] eqn:E1; [|discriminate].
      destruct (run rest s1) as [[s2 fx2]|] eqn:E2; [|discriminate].
      injection Hrun as <- <-.
      destruct (dispatch_no_autoscroll ev s s1 fx1 Hoff Hev E1)
        as (Hn1 & Hoff1 & Ho1).
      destruct (IH s1 fx2 Hoff1 E2) as (Hn2 & Ho2 & Hoff2).
      split; [|split; [rewrite Ho2; exact Ho1|exact Hoff2]].
      rewrite scrolled_app. tauto. }
  destruct H as (H1 & H2 & H3).
  split; [exact H1|split; [exact H2|split; [exact H3|reflexivity]]].
Qed.

(** X8. Ticking the autoscroll box takes the viewport to the bottom at
    once and leaves the entries and the seen-set alone; the viewport is
    then near the bottom, so the next novel entry is followed, too. *)
Theorem ticking_autoscroll_follows_again (s : Page) (el : LogsEl) :
  logsEl s = Some el -> 0 <= clientHeight el ->
  let s1 := post (toggle_onchange true s) in
  exists el1,
    logsEl s1 = Some el1
    /\ scrollTop el1 = bottom el
    /\ children el1 = children el
    /\ displayedLogIds s1 = displayedLogIds s
    /\ autoscrollEnabled s1 = true
    /\ near_bottom el1
    /\ forall log k,
        logId_of log = Normal k -> k ∉ displayedLogIds s ->
        scrolled (effects (addLogEntry log s1)).
Proof.
  intros El Hch s1.
  exists (assign_scrollTop (scrollHeight el) el).
  assert (El1 : logsEl s1 = Some (assign_scrollTop (scrollHeight el) el)).
  { unfold s1, toggle_onchange. cbn. rewrite El. reflexivity. }
  assert (Hids : displayedLogIds s1 = displayedLogIds s).
  { unfold s1, toggle_onchange. cbn. rewrite El. reflexivity. }
  assert (Hauto : autoscrollEnabled s1 = true).
  { unfold s1, toggle_onchange. cbn. rewrite El. reflexivity. }
  assert (Htop : scrollTop (assign_scrollTop (scrollHeight el) el) = bottom el).
  { unfold assign_scrollTop, bottom, scrollHeight. cbn.
    generalize (contentHeight (children el)). intros h. clear - Hch. lia. }
  assert (Hnear : near_bottom (assign_scrollTop (scrollHeight el) el)).
  { unfold near_bottom. rewrite Htop. unfold bottom, scrollHeight. cbn.
    generalize (contentHeight (children el)). intros h. clear - Hch. lia. }
  split; [exact El1|]. split; [exact Htop|]. split; [reflexivity|].
  split; [exact Hids|]. split; [exact Hauto|]. split; [exact Hnear|].
  intros log k Ek Hout.
  destruct (createEntry_total log k Ek) as (en & Hen & _).
  rewrite <- Hids in Hout.
  rewrite (addLogEntry_novel log s1 _ k en El1 Ek Hout Hen).
  cbn [effects returns]. rewrite scrolled_novel.
  apply will_scroll_spec. split; [exact Hauto|]. left. exact Hnear.
Qed.

(** *** Batches of logs from a poll *)

Lemma forEach_keyed (items : list JSValue) (s : Page) :
  Forall keyed items ->
  post (forEach_addLogEntry items s) = accept_all items s
  /\ thrown (forEach_addLogEntry items s) = None.
Proof.
  intros H. revert s. induction H as [|log rest Hk _ IH]; intros s.
  - split; reflexivity.
  - cbn [forEach_addLogEntry]. rewrite (addLogEntry_not_thrown log s Hk).
    cbn [post thrown]. rewrite accept_all_cons. apply IH.
Qed.

Lemma forEach_container (items : list JSValue) (s : Page) (el : LogsEl) :
  logsEl s = Some el ->
  exists el', logsEl (post (forEach_addLogEntry items s)) = Some el'.
Proof.
  revert s el. induction items as [|log rest IH]; intros s el El;
    [eauto|].
  cbn [forEach_addLogEntry].
  destruct (addLogEntry_container log s el El) as [el1 El1].
  destruct (thrown (addLogEntry log s)); [eauto|].
  cbn [post]. eapply IH. exact El1.
Qed.

Lemma forEach_app (a b : list JSValue) (s : Page) :
  thrown (forEach_addLogEntry a s) = None ->
  post (forEach_addLogEntry (a ++ b) s)
  = post (forEach_addLogEntry b (post (forEach_addLogEntry a s)))
  /\ effects (forEach_addLogEntry (a ++ b) s)
     = effects (forEach_addLogEntry a s)
       ++ effects (forEach_addLogEntry b (post (forEach_addLogEntry a s)))
  /\ thrown (forEach_addLogEntry (a ++ b) s)
     = thrown (forEach_addLogEntry b (post (forEach_addLogEntry a s))).
Proof.
  revert s. induction a as [|log rest IH]; intros s H.
  - split; [|split]; reflexivity.
  - cbn [app forEach_addLogEntry] in *.
    destruct (thrown (addLogEntry log s)) eqn:E; [congruence|].
    cbn [post effects thrown] in *.
    destruct (IH _ H) as (-> & -> & ->).
    rewrite app_assoc. split; [|split]; reflexivity.
Qed.

(** X9. A poll hands its logs to [addLogEntry] inside one [try]: when a
    log of the batch has no key (and the container exists), the logs in
    front of it have been accepted, the logs behind it are never looked
    at, and the failure is written to the console. The response is
    treated as the one that ends before the bad log, plus one error
    line. *)
Theorem poll_batch_stops_at_bad_log (good rest : list JSValue)
        (bad : JSValue) (e : JSError) (status : Z) (s : Page) (el : LogsEl) :
  logsEl s = Some el -> Forall keyed good -> logId_of bad = Throw e ->
  res_ok status = true ->
  let r := Response status
             (Normal (JObject [("logs", JArray (good ++ bad :: rest))])) in
  let r_good := Response status (Normal (JObject [("logs", JArray good)])) in
  post (poll_settled r s) = post (poll_settled r_good s)
  /\ effects (poll_settled r s)
     = effects (poll_settled r_good s)
       ++ [ConsoleError "[Dashboard] Polling failed" (Some e)]
  /\ thrown (poll_settled r s) = None
  /\ post (poll_settled r_good s)
     = accept_all good (set_inflight (Nat.pred (inflight s)) s).
Proof.
  intros El Hgood Hbad Hok r r_good.
  set (s0 := set_inflight (Nat.pred (inflight s)) s).
  assert (El0 : logsEl s0 = Some el) by exact El.
  destruct (forEach_keyed good s0 Hgood) as [Hpost Hthrown].
  destruct (forEach_container good s0 el El0) as [el1 El1].
  destruct (forEach_app good (bad :: rest) s0 Hthrown) as (Hp & Hf & Ht).
  assert (Hb : forEach_addLogEntry (bad :: rest)
                 (post (forEach_addLogEntry good s0))
               = throws (post (forEach_addLogEntry good s0)) [] e).
  { cbn [forEach_addLogEntry].
    rewrite (addLogEntry_throw bad _ el1 e El1 Hbad). reflexivity. }
  rewrite Hb in Hp, Hf, Ht. cbn [post effects thrown throws] in Hp, Hf, Ht.
  unfold poll_settled, r, r_good. fold s0. rewrite !poll_try_logs by exact Hok.
  rewrite Ht, Hthrown. cbn [post effects thrown returns].
  rewrite Hp, Hf, app_nil_r.
  split; [reflexivity|split; [reflexivity|split; [reflexivity|exact Hpost]]].
Qed.

Lemma set_inflight_same (s : Page) : set_inflight (inflight s) s = s.
Proof. destruct s. reflexivity. Qed.

Lemma frames_as_batch (frames : list string) (logs : list JSValue) (s : Page) :
  Forall2 (fun d log => JSON_parse d = Some log) frames logs ->
  Forall keyed logs -> ws s = Some OPEN ->
  run (map SocketMessage frames) s
  = Some (post (forEach_addLogEntry logs s),
          effects (forEach_addLogEntry logs s)).
Proof.
  intros H. revert s. induction H as [|d log frames logs Hd _ IH];
    intros s Hk Hopen; [reflexivity|].
  apply Forall_cons in Hk as [Hk Hks].
  cbn [map run dispatch forEach_addLogEntry]. rewrite Hopen.
  unfold report, ws_onmessage. rewrite Hd.
  rewrite (addLogEntry_not_thrown log s Hk). rewrite app_nil_r.
  destruct (addLogEntry_frame log s) as (Hws & _).
  rewrite (IH (post (addLogEntry log s)) Hks) by (rewrite Hws; exact Hopen).
  reflexivity.
Qed.

(** X10. For logs that all have a key the two transports do the same
    thing: the frames of the socket handled one by one, and one poll
    response carrying the same logs in its [logs] array, leave the same
    page behind (the DisplayBuffer, the seen-set, the scroll offset) after
    the same calls to the DOM, with no exception in either. *)
Theorem poll_and_socket_deliver_alike (frames : list string)
        (logs : list JSValue) (status : Z) (s : Page) :
  Forall2 (fun d log => JSON_parse d = Some log) frames logs ->
  Forall keyed logs -> res_ok status = true -> ws s = Some OPEN ->
  let o := poll_settled
             (Response status (Normal (JObject [("logs", JArray logs)])))
             (set_inflight (S (inflight s)) s) in
  run (map SocketMessage frames) s = Some (post o, effects o)
  /\ thrown o = None
  /\ post o = accept_all logs s.
Proof.
  intros Hparse Hk Hok Hopen o.
  assert (Ho : o = forEach_addLogEntry logs s).
  { unfold o, poll_settled. rewrite poll_try_logs by exact Hok.
    cbn [inflight set_inflight Nat.pred].
    change (set_inflight (inflight s) (set_inflight (S (inflight s)) s))
      with (set_inflight (inflight s) s).
    rewrite set_inflight_same.
    destruct (forEach_keyed logs s Hk) as [_ ->]. reflexivity. }
  rewrite Ho. destruct (forEach_keyed logs s Hk) as [Hp Ht].
  split; [apply frames_as_batch; assumption|].
  split; [exact Ht|exact Hp].
Qed.

(** *** When the socket cannot be created *)

Lemma dispatch_given_up (ev : Event) (s s' : Page) (fx : list Effect) :
  given_up s -> dispatch ev s = Some (s', fx) ->
  given_up s' /\ connects fx = 0%nat /\ ws s' = ws s.
Proof.
  intros [Hws Hno] H. unfold given_up.
  destruct ev as [dt|i ctor| |data| |reason|r|checked]; unfold dispatch in H.
  - destruct (0 <=? dt); [|discriminate]. injection H as <- <-.
    split; [split|split]; auto.
  - destruct (timers s !! i) as [t|] eqn:Et; [|discriminate].
    destruct (due t <=? now s); [|discriminate].
    reported H (run_callback (callback t) ctor (rearm i t s)).
    pose proof Hno as Hno'. unfold no_reconnect_pending in Hno'.
    rewrite Forall_lookup in Hno'. specialize (Hno' i t Et).
    destruct (callback t) eqn:Ecb; [congruence|].
    rewrite Hconn. cbn [run_callback].
    destruct (poll_tick_frame (rearm i t s)) as [Ht Hw].
    destruct (rearm_frame i t s) as [_ Hw'].
    unfold no_reconnect_pending. rewrite Ht, Hw, Hw'.
    split; [split; [exact Hws|]|].
    + unfold rearm. destruct (period t) as [p|]; cbn [timers set_timers].
      * apply Forall_insert; [exact Hno|]. cbn. congruence.
      * apply Forall_delete. exact Hno.
    + split; [|reflexivity].
      unfold poll_tick. destruct (poll_guard _); reflexivity.
  - destruct Hws as [Hws|Hws]; rewrite Hws in H; discriminate.
  - destruct Hws as [Hws|Hws]; rewrite Hws in H; discriminate.
  - destruct Hws as [Hws|Hws]; rewrite Hws in H; discriminate.
  - destruct Hws as [Hws|Hws]; rewrite Hws in H; discriminate.
  - destruct (inflight s); [discriminate|].
    reported H (poll_settled r s).
    destruct (poll_settled_frame r s) as (Hw & _ & _ & Ht & _ & Hc & _).
    unfold no_reconnect_pending. rewrite Hw, Ht, Hconn, Hc.
    split; [split|split]; auto.
  - reported H (toggle_onchange checked s).
    destruct (toggle_frame checked s) as (Hw & _ & Ht & Hc & _).
    unfold no_reconnect_pending. rewrite Hw, Ht, Hconn, Hc.
    split; [split|split]; auto.
Qed.

Lemma run_given_up (evs : list Event) (s s' : Page) (fx : list Effect) :
  given_up s -> run evs s = Some (s', fx) ->
  given_up s' /\ connects fx = 0%nat /\ ws s' = ws s.
Proof.
  revert s fx. induction evs as [|ev rest IH]; intros s fx Hs H; cbn in H.
  - injection H as <- <-. split; [exact Hs|split; reflexivity].
  - destruct (dispatch ev s) as [[s1 fx1]|] eqn:E1; [|discriminate].
    destruct (run rest s1) as [[s2 fx2]|] eqn:E2; [|discriminate].
    injection H as <- <-.
    destruct (dispatch_given_up ev s s1 fx1 Hs E1) as (Hs1 & Hc1 & Hw1).
    destruct (IH s1 fx2 Hs1 E2) as (Hs2 & Hc2 & Hw2).
    split; [exact Hs2|]. rewrite connects_app, Hc1, Hc2, Hw2, Hw1.
    split; reflexivity.
Qed.

(** X11. When [new WebSocket] throws, [initWebSocket] only logs the
    error: it sets no timer. From then on -- the first attempt at load, or
    a reconnect attempt three seconds after a close -- no turn of the loop
    ever creates a socket again, [ws] stays what it was, and every poll
    tick finds the channel not open and fetches: the view is fed by polling
    alone until the page is reloaded. *)
Theorem failed_constructor_is_never_retried (evs : list Event) (s s' : Page)
        (fx : list Effect) :
  given_up s -> run evs s = Some (s', fx) ->
  (connects fx = 0%nat /\ ws s' = ws s /\ given_up s'
   /\ poll_guard s' = true)
  /\ (forall e logs,
         given_up (post (DOMContentLoaded (Some e) (script_loaded logs))))
  /\ (forall e s0 d d',
         timers s0 = [poll_at d; reconnect_at d'] -> ws s0 = Some CLOSED ->
         d' <= now s0 ->
         exists s1 fx1,
           dispatch (TimerFires 1 (Some e)) s0 = Some (s1, fx1)
           /\ connects fx1 = 1%nat
           /\ In (ConsoleError "[Dashboard] WS Init Error" (Some e)) fx1
           /\ given_up s1).
Proof.
  intros Hs Hrun.
  destruct (run_given_up evs s s' fx Hs Hrun) as (Hs' & Hc & Hw).
  split; [|split].
  - split; [exact Hc|split; [exact Hw|split; [exact Hs'|]]].
    apply poll_guard_spec. destruct Hs' as [[H|H] _]; rewrite H; discriminate.
  - intros e logs. split; [left; reflexivity|].
    unfold no_reconnect_pending. cbn.
    apply Forall_singleton. discriminate.
  - intros e s0 d d' Ht Hclosed Hdue.
    unfold dispatch. rewrite Ht. cbn [lookup list_lookup reconnect_at due].
    destruct (Z.leb_spec d' (now s0)) as [_|Hlt]; [|lia].
    eexists _, _. split; [reflexivity|].
    cbn [callback period rearm run_callback initWebSocket report returns
         post effects thrown fst snd app reconnect_at].
    split; [reflexivity|]. split; [right; right; left; reflexivity|].
    split; [right; exact Hclosed|].
    unfold no_reconnect_pending. cbn [timers set_timers]. rewrite Ht.
    cbn. apply Forall_singleton. discriminate.
Qed.

(** X12. On a page reached from a load at most one reconnect timer is
    pending, and only while the socket it is to replace is closed: so
    [initWebSocket] is never called while a socket is connecting, open or
    closing, and no socket is dropped while it is still live. *)
Theorem reconnect_only_replaces_closed_socket (c : option JSError)
        (logs : option LogsEl) (evs : list Event) (s : Page)
        (fx : list Effect) :
  run evs (post (DOMContentLoaded c (script_loaded logs))) = Some (s, fx) ->
  (length (List.filter
             (fun t => bool_decide (callback t = CbInitWebSocket))
             (timers s)) <= 1)%nat
  /\ forall i t,
      timers s !! i = Some t -> callback t = CbInitWebSocket ->
      ws s = Some CLOSED /\ ~ live s /\ period t = None.
Proof.
  intros Hrun.
  pose proof (run_in_shape evs _ s fx (loaded_in_shape c logs) Hrun)
    as [[d Ht] | (d & d' & Ht & Hw)]; rewrite Ht.
  - split; [vm_compute; lia|].
    intros [|[|i]] t Hi Hcb; cbn in Hi; try discriminate.
    injection Hi as <-. discriminate.
  - split; [vm_compute; lia|].
    intros [|[|[|i]]] t Hi Hcb; cbn in Hi; try discriminate;
      injection Hi as <-; try discriminate.
    split; [exact Hw|]. split; [|reflexivity].
    unfold live. rewrite Hw. intros [H|[H|H]]; discriminate.
Qed.

(** *** Delivery order, and polls that bring nothing new *)

Lemma accept_all_in_order (logs : list JSValue) (s : Page) (el : LogsEl) :
  logsEl s = Some el -> (length (children el) <= 500)%nat ->
  exists added,
    buffer (accept_all logs s) = lastn 500 (children el ++ added)
    /\ map created_from added `sublist_of` logs
    /\ Forall keyed (map created_from added).
Proof.
  revert s el. induction logs as [|log rest IH]; intros s el El Hlen.
  - exists []. unfold buffer. cbn [accept_all fold_left]. rewrite El, app_nil_r.
    split; [symmetry; apply lastn_short; exact Hlen|].
    split; constructor.
  - rewrite accept_all_cons.
    destruct (addLogEntry_cases log s)
      as [[Hpost _] | (el0 & k & en & El0 & Ek & _ & _ & Hfrom & Hpost)];
      rewrite Hpost.
    + destruct (IH s el El Hlen) as (added & Hbuf & Hsub & Hkeyed).
      exists added. split; [exact Hbuf|].
      split; [apply sublist_cons; exact Hsub|exact Hkeyed].
    + rewrite El in El0. injection El0 as <-.
      destruct (IH (set_logsEl (Some (after_append (will_scroll s el) en el))
                      (set_displayedLogIds ({[k]} ∪ displayedLogIds s) s))
                   (after_append (will_scroll s el) en el) eq_refl)
        as (added & Hbuf & Hsub & Hkeyed).
      { rewrite children_after_append, length_lastn. lia. }
      exists (en :: added). rewrite Hbuf, children_after_append.
      rewrite lastn_app_lastn, <- app_assoc. cbn [map app].
      split; [reflexivity|]. rewrite Hfrom.
      split; [apply sublist_skip; exact Hsub|].
      constructor; [exists k; exact Ek|exact Hkeyed].
Qed.

(** X19. Whatever is delivered -- well-formed logs, duplicates, logs
    without a key -- the DisplayBuffer afterwards is the last 500 of: the
    entries that were there, followed by entries created from some of the
    delivered logs, in the order of delivery. No entry ever overtakes
    another, and every entry comes from a log that has a key. *)
Theorem entries_keep_delivery_order (logs : list JSValue) (s : Page)
        (el : LogsEl) :
  logsEl s = Some el -> (length (children el) <= 500)%nat ->
  exists added,
    buffer (accept_all logs s) = lastn 500 (children el ++ added)
    /\ map created_from added `sublist_of` logs
    /\ Forall keyed (map created_from added)
    /\ (length (buffer (accept_all logs s)) <= 500)%nat.
Proof.
  intros El Hlen.
  destruct (accept_all_in_order logs s el El Hlen)
    as (added & Hbuf & Hsub & Hkeyed).
  exists added. split; [exact Hbuf|]. split; [exact Hsub|].
  split; [exact Hkeyed|]. rewrite Hbuf, length_lastn. lia.
Qed.

Lemma forEach_again (items : list JSValue) (s s' : Page) (el : LogsEl) :
  logsEl s = Some el ->
  displayedLogIds (post (forEach_addLogEntry items s)) ⊆ displayedLogIds s' ->
  post (forEach_addLogEntry items s') = s'
  /\ effects (forEach_addLogEntry items s') = [].
Proof.
  revert s el. induction items as [|log rest IH]; intros s el El Hsub.
  - split; reflexivity.
  - cbn [forEach_addLogEntry] in *.
    destruct (logsEl s') as [el'|] eqn:El'.
    + destruct (logId_of log) as [k|e] eqn:Ek.
      * rewrite (addLogEntry_not_thrown log s (ex_intro _ k Ek)) in Hsub.
        cbn [post] in Hsub.
        destruct (addLogEntry_container log s el El) as [el1 El1].
        assert (Hk : k ∈ displayedLogIds s').
        { apply Hsub.
          apply (forEach_seen_mono rest (post (addLogEntry log s))).
          apply (addLogEntry_records log s el k El Ek). }
        rewrite (addLogEntry_known log s' k Ek Hk).
        cbn [thrown post effects returns app].
        exact (IH _ el1 El1 Hsub).
      * rewrite (addLogEntry_throw log s' el' e El' Ek).
        split; reflexivity.
    + rewrite (addLogEntry_absent log s' El'). cbn [thrown post effects returns app].
      split; [apply forEach_nothing_recorded; exact El'|].
      clear - El'. induction rest as [|x rest IHr]; [reflexivity|].
      cbn [forEach_addLogEntry]. rewrite (addLogEntry_absent x s' El').
      cbn [thrown post effects returns app]. exact IHr.
Qed.

Lemma poll_try_shape (r : FetchResult) :
  (forall s, post (poll_try r s) = s /\ effects (poll_try r s) = [])
  \/ exists items, forall s, poll_try r s = forEach_addLogEntry items s.
Proof.
  destruct r as [e|status [data|e]]; cbn [poll_try];
    try (left; intros s; destruct (res_ok status); split; reflexivity);
    try (left; intros s; split; reflexivity).
  destruct (res_ok status); [|left; intros s; split; reflexivity].
  destruct (Get data "logs") as [logs|e];
    [|left; intros s; split; reflexivity].
  destruct (ToBoolean logs); [|left; intros s; split; reflexivity].
  destruct logs as [| |b|n|str|items|fields];
    try (left; intros s; split; reflexivity).
  right. exists items. intros s. reflexivity.
Qed.

(** X20. A poll whose logs have been through [addLogEntry] before --
    the same response once more, or any response after which the seen-set
    has only grown -- changes nothing: no entry is appended, the
    DisplayBuffer, the seen-set and the scroll offset stay as they are.
    This holds for every response, well-formed or not. *)
Theorem repeated_poll_changes_nothing (r : FetchResult) (s s2 : Page)
        (el : LogsEl) :
  logsEl s = Some el ->
  displayedLogIds (post (poll_settled r s)) ⊆ displayedLogIds s2 ->
  post (poll_settled r s2) = set_inflight (Nat.pred (inflight s2)) s2
  /\ (forall en, ~ In (AppendChild en) (effects (poll_settled r s2)))
  /\ ~ scrolled (effects (poll_settled r s2))
  /\ post (poll_settled r (post (poll_settled r s)))
     = set_inflight (Nat.pred (inflight (post (poll_settled r s))))
         (post (poll_settled r s)).
Proof.
  intros El Hsub.
  assert (H : forall s3,
             displayedLogIds (post (poll_settled r s)) ⊆ displayedLogIds s3 ->
             post (poll_try r (set_inflight (Nat.pred (inflight s3)) s3))
             = set_inflight (Nat.pred (inflight s3)) s3
             /\ effects (poll_try r (set_inflight (Nat.pred (inflight s3)) s3))
                = []).
  { intros s3 Hsub3. rewrite poll_settled_post in Hsub3.
    destruct (poll_try_shape r) as [Hsame | [items Hitems]];
      [apply Hsame|].
    rewrite Hitems in Hsub3. rewrite Hitems.
    exact (forEach_again items (set_inflight (Nat.pred (inflight s)) s)
             (set_inflight (Nat.pred (inflight s3)) s3) el El Hsub3). }
  assert (H' : forall s3,
             displayedLogIds (post (poll_settled r s)) ⊆ displayedLogIds s3 ->
             post (poll_settled r s3)
             = set_inflight (Nat.pred (inflight s3)) s3
             /\ (forall en, ~ In (AppendChild en) (effects (poll_settled r s3)))
             /\ ~ scrolled (effects (poll_settled r s3))).
  { intros s3 Hsub3. destruct (H s3 Hsub3) as [Hp Hf].
    split; [rewrite poll_settled_post; exact Hp|].
    unfold poll_settled.
    destruct (thrown (poll_try r (set_inflight (Nat.pred (inflight s3)) s3)));
      cbn [effects returns]; rewrite Hf; cbn [app]; split.
    - intros en [Hin|[]]. discriminate.
    - unscrolled.
    - intros en [].
    - unscrolled. }
  destruct (H' s2 Hsub) as (H1 & H2 & H3).
  split; [exact H1|]. split; [exact H2|]. split; [exact H3|].
  apply H'. reflexivity.
Qed.

End Pipeline.

(** ** The properties on the sample browser *)

Example sample_entry_is_entry_of (e : LogEvent) :
  entry_of sample_time e = sample_entry e.
Proof. reflexivity. Qed.

(** The redelivery scenario end to end: one entry, not two. *)
Example redelivery_keeps_one_entry :
  exists s fx,
    run "http:" "localhost:8080" sample_parse sample_time sample_height
        redelivery
        (post (DOMContentLoaded "http:" "localhost:8080" None
                 (script_loaded (Some empty_logs))))
    = Some (s, fx)
    /\ buffer s = [sample_entry event_A]
    /\ now s = 10000
    /\ ws s = Some CONNECTING.
Proof. eexists _, _. vm_compute. repeat split. Qed.

(** 501 events into the empty container of a fresh page. *)
Lemma buffer_bounded_fifo_witness :
  increasing (events_from 0 501) = true
  /\ length (events_from 0 501) = 501%nat
  /\ let final := accept_all sample_time sample_height
                    (map toJS (events_from 0 501))
                    (script_loaded (Some empty_logs)) in
     length (buffer final) = 500%nat
     /\ buffer final = map sample_entry (events_from 1 500)
     /\ sample_entry (event_nr 0) ∉ buffer final.
Proof.
  assert (Hinc : increasing (events_from 0 501) = true)
    by (vm_compute; reflexivity).
  split; [exact Hinc|]. split; [vm_compute; reflexivity|].
  destruct (buffer_bounded_fifo sample_time sample_height
              (events_from 0 501) (script_loaded (Some empty_logs))
              empty_logs eq_refl (Nat.le_0_l 500)
              (fun e _ => not_elem_of_empty (logId e)) Hinc)
    as (_ & _ & _ & H).
  destruct (H eq_refl ltac:(vm_compute; reflexivity)) as (Hlen & Hbuf & Hhd).
  split; [exact Hlen|]. split; [exact Hbuf|].
  exact (proj1 (Hhd (event_nr 0) eq_refl)).
Defined.

(** Two messages that differ after the 50th character, with another
    event between them. *)
Lemma same_prefix_is_duplicate_witness :
  message event_long1 <> message event_long2
  /\ timestamp event_long1 = timestamp event_long2
  /\ level event_long1 = level event_long2
  /\ String.substring 0 50 (message event_long1)
     = String.substring 0 50 (message event_long2)
  /\ let s1 := accept_all sample_time sample_height
                 [toJS event_long1; toJS event_A]
                 (script_loaded (Some empty_logs)) in
     buffer s1 = [sample_entry event_long1; sample_entry event_A]
     /\ addLogEntry sample_time sample_height (toJS event_long2) s1
        = returns s1 [].
Proof.
  split; [vm_compute; discriminate|].
  split; [reflexivity|]. split; [reflexivity|].
  split; [vm_compute; reflexivity|].
  split; [vm_compute; reflexivity|].
  exact (proj1 (proj2 (same_prefix_is_duplicate sample_time sample_height
                         event_long1 event_long2 [toJS event_A]
                         (script_loaded (Some empty_logs))
                         eq_refl eq_refl ltac:(vm_compute; reflexivity)))).
Defined.

(** A reader at the top of thirty entries is not moved by the next one. *)
Lemma autoscroll_decision_witness :
  logsEl reading_page = Some reading_logs
  /\ (logId (event_nr 30) ∉ displayedLogIds reading_page)
  /\ autoscrollEnabled reading_page = true
  /\ ~ near_bottom sample_height reading_logs
  /\ exists el',
      logsEl (post (addLogEntry sample_time sample_height
                      (toJS (event_nr 30)) reading_page)) = Some el'
      /\ scrollTop el' = 0
      /\ ~ scrolled (effects (addLogEntry sample_time sample_height
                                (toJS (event_nr 30)) reading_page)).
Proof.
  assert (Hnew : logId (event_nr 30) ∉ displayedLogIds reading_page).
  { apply (bool_decide_eq_false_1
             (logId (event_nr 30) ∈ displayedLogIds reading_page)).
    vm_compute. reflexivity. }
  assert (Hfar : ~ near_bottom sample_height reading_logs).
  { unfold near_bottom. vm_compute. intros H. apply H. reflexivity. }
  split; [reflexivity|]. split; [exact Hnew|]. split; [reflexivity|].
  split; [exact Hfar|].
  destruct (autoscroll_decision sample_time sample_height
              (toJS (event_nr 30)) reading_page reading_logs
              (logId (event_nr 30)) eq_refl eq_refl Hnew
              ltac:(vm_compute; discriminate))
    as (en & el' & _ & Hel' & _ & _ & _ & Hread & _).
  exists el'. split; [exact Hel'|].
  destruct (Hread eq_refl Hfar ltac:(vm_compute; discriminate)) as [Hns Htop].
  split; [exact Htop|exact Hns].
Defined.

(** Three closes in a row on the page as it is after loading: three new
    sockets, nine seconds. *)
Lemma reconnect_after_three_seconds_witness :
  let p := post (DOMContentLoaded "http:" "localhost:8080" None
                   (script_loaded (Some empty_logs))) in
  live p /\ no_reconnect_pending p
  /\ exists s' fx,
      run "http:" "localhost:8080" sample_parse sample_time sample_height
          (reconnect_rounds 3 1 "gone") p = Some (s', fx)
      /\ connects fx = 3%nat
      /\ now s' = 9000.
Proof.
  cbv zeta.
  set (p := post (DOMContentLoaded "http:" "localhost:8080" None
                    (script_loaded (Some empty_logs)))).
  assert (Hlive : live p) by (left; reflexivity).
  assert (Hnone : no_reconnect_pending p)
    by (repeat constructor; discriminate).
  split; [exact Hlive|]. split; [exact Hnone|].
  destruct (reconnect_after_three_seconds "http:" "localhost:8080"
              sample_parse sample_time sample_height "gone" p Hlive Hnone)
    as (_ & _ & Hrounds & _).
  destruct (Hrounds 3%nat) as (s' & fx & Hrun & Hc & Hnow & _).
  exists s', fx. split; [exact Hrun|]. split; [exact Hc|exact Hnow].
Defined.

(** A tick on a page whose socket is open, and a response that arrives
    on that page for a pull started before the socket opened. *)
Lemma poll_idle_while_open_witness :
  timers open_page !! 0%nat = Some poll_interval
  /\ 10000 <= now open_page
  /\ (exists s' fx,
      dispatch "http:" "localhost:8080" sample_parse sample_time sample_height
               (TimerFires 0 None) open_page = Some (s', fx)
      /\ fx = []
      /\ buffer s' = buffer open_page
      /\ timers s' !! 0%nat = Some (poll_at 20000))
  /\ exists s1 fx1,
      dispatch "http:" "localhost:8080" sample_parse sample_time sample_height
               (FetchSettles (logs_response 200 event_A))
               (set_inflight 1 open_page) = Some (s1, fx1)
      /\ ws s1 = Some OPEN
      /\ last (buffer s1) = Some (entry_of sample_time event_A).
Proof.
  split; [reflexivity|]. split; [vm_compute; discriminate|].
  destruct (poll_idle_while_open "http:" "localhost:8080" sample_parse
              sample_time sample_height 0 10000 None open_page eq_refl
              ltac:(vm_compute; discriminate))
    as (s' & fx & Hd & Ht & Hopen & _ & Hbuf & _ & _ & _ & Hlate).
  split.
  - exists s', fx. split; [exact Hd|].
    split; [exact (proj1 (Hopen eq_refl))|]. split; [exact Hbuf|exact Ht].
  - destruct (Hlate 200 event_A (set_inflight 1 open_page) empty_logs 0%nat
                eq_refl eq_refl eq_refl eq_refl
                (not_elem_of_empty (logId event_A)))
      as (s1 & fx1 & Hdis & Hws & _ & Hlst).
    exists s1, fx1. split; [exact Hdis|]. split; [exact Hws|exact Hlst].
Defined.

(** C6 as the specification words it does not hold: on the page below
    the channel is open and has delivered [event_A] when the response to
    a pull started earlier arrives, and the event it carries is appended
    by the poll callback while the channel is open. *)
Lemma late_pull_feeds_while_channel_open :
  exists s fx s' fx',
    run "http:" "localhost:8080" sample_parse sample_time sample_height
        pull_overtaken
        (post (DOMContentLoaded "http:" "localhost:8080" None
                 (script_loaded (Some empty_logs))))
    = Some (s, fx)
    /\ ws s = Some OPEN
    /\ buffer s = [sample_entry event_A]
    /\ dispatch "http:" "localhost:8080" sample_parse sample_time
                sample_height
                (FetchSettles (logs_response 200 (event_nr 1))) s
       = Some (s', fx')
    /\ ws s' = Some OPEN
    /\ In (AppendChild (sample_entry (event_nr 1))) fx'
    /\ buffer s' = [sample_entry event_A; sample_entry (event_nr 1)].
Proof.
  eexists _, _, _, _.
  split; [vm_compute; reflexivity|].
  split; [reflexivity|]. split; [reflexivity|].
  split; [vm_compute; reflexivity|].
  split; [reflexivity|]. split; [left; reflexivity|]. reflexivity.
Qed.

(** A frame that is not JSON, followed by one that is. *)
Lemma malformed_frame_dropped_witness :
  sample_parse "not json" = None
  /\ ws open_page = Some OPEN
  /\ dispatch "http:" "localhost:8080" sample_parse sample_time sample_height
              (SocketMessage "not json") open_page
     = Some (open_page, [ReportUncaught SyntaxError])
  /\ exists s fx,
      run "http:" "localhost:8080" sample_parse sample_time sample_height
          [SocketMessage "not json"; SocketMessage frame_A] open_page
      = Some (s, ReportUncaught SyntaxError :: fx)
      /\ buffer s = [sample_entry event_A].
Proof.
  destruct (malformed_frame_dropped "http:" "localhost:8080" sample_parse
              sample_time sample_height "not json" open_page
              ltac:(vm_compute; reflexivity) eq_refl)
    as (_ & Hd & Hrest).
  split; [vm_compute; reflexivity|]. split; [reflexivity|].
  split; [exact Hd|].
  eexists _, _. rewrite Hrest. vm_compute. split; reflexivity.
Defined.

(** A 503 whose body carries an event: nothing is appended, and nothing
    is written to the console. *)
Lemma failed_poll_skips_tick_witness :
  let p := set_inflight 1 (script_loaded (Some empty_logs)) in
  fetch_failed (logs_response 503 event_A)
  /\ effects (poll_settled sample_time sample_height
                (logs_response 503 event_A) p) = []
  /\ buffer (post (poll_settled sample_time sample_height
                     (logs_response 503 event_A) p)) = []
  /\ displayedLogIds (post (poll_settled sample_time sample_height
                              (logs_response 503 event_A) p)) = ∅.
Proof.
  cbv zeta. set (p := set_inflight 1 (script_loaded (Some empty_logs))).
  assert (Hfail : fetch_failed (logs_response 503 event_A)) by reflexivity.
  destruct (failed_poll_skips_tick sample_time sample_height
              (logs_response 503 event_A) p Hfail)
    as (_ & _ & Hfx & Hbuf & Hids & _).
  split; [exact Hfail|]. split; [exact Hfx|]. split; [exact Hbuf|exact Hids].
Defined.

(** C8 as the specification words it does not hold: the pull below failed
    with a status outside 200..299, and the callback wrote nothing to the
    console. *)
Lemma non_2xx_poll_is_not_logged :
  fetch_failed (logs_response 503 event_A)
  /\ ~ poll_failure_logged sample_time sample_height
        (logs_response 503 event_A)
        (set_inflight 1 (script_loaded (Some empty_logs))).
Proof.
  split; [reflexivity|].
  intros (msg & err & Hin). vm_compute in Hin. exact Hin.
Qed.

(** The first of 501 events is evicted by the last, and a duplicate of it
    is still discarded. *)
Lemma seen_set_outlives_eviction_witness :
  let s2 := accept_all sample_time sample_height
              (toJS (event_nr 0) :: map toJS (events_from 1 500))
              (script_loaded (Some empty_logs)) in
  logsEl (script_loaded (Some empty_logs)) = Some empty_logs
  /\ length (buffer s2) = 500%nat
  /\ (sample_entry (event_nr 0) ∉ buffer s2)
  /\ addLogEntry sample_time sample_height (toJS (event_nr 0)) s2
     = returns s2 [].
Proof.
  cbv zeta.
  set (s2 := accept_all sample_time sample_height
               (toJS (event_nr 0) :: map toJS (events_from 1 500))
               (script_loaded (Some empty_logs))).
  assert (Hinc : increasing (events_from 0 501) = true)
    by (vm_compute; reflexivity).
  destruct (accept_all_novel sample_time sample_height (events_from 0 501)
              (script_loaded (Some empty_logs)) empty_logs eq_refl
              (Nat.le_0_l 500) (increasing_NoDup _ Hinc)
              (fun e _ => not_elem_of_empty (logId e)))
    as [Hbuf _].
  change (accept_all sample_time sample_height
            (map toJS (events_from 0 501)) (script_loaded (Some empty_logs)))
    with s2 in Hbuf.
  cbn [children empty_logs app] in Hbuf.
  rewrite lastn_map, (lastn_all_but_first 500 (events_from 0 501))
    in Hbuf by (vm_compute; reflexivity).
  change (tail (events_from 0 501)) with (events_from 1 500) in Hbuf.
  destruct (seen_set_outlives_eviction "http:" "localhost:8080" sample_parse
              sample_time sample_height (event_nr 0)
              (map toJS (events_from 1 500))
              (script_loaded (Some empty_logs)) empty_logs eq_refl)
    as (_ & _ & Hdup & _).
  split; [reflexivity|].
  split; [rewrite Hbuf, length_map; vm_compute; reflexivity|].
  split; [|exact Hdup].
  rewrite Hbuf. exact (head_entry_not_later sample_time (event_nr 0)
                         (events_from 1 500) Hinc).
Defined.

(** An event that arrives before the container exists, and again after. *)
Lemma absent_container_leaves_no_trace_witness :
  logsEl (script_loaded None) = None
  /\ addLogEntry sample_time sample_height (toJS event_A) (script_loaded None)
     = returns (script_loaded None) []
  /\ last (buffer (post (addLogEntry sample_time sample_height (toJS event_A)
                           (script_loaded (Some empty_logs)))))
     = Some (sample_entry event_A).
Proof.
  destruct (absent_container_leaves_no_trace "http:" "localhost:8080"
              sample_parse sample_time sample_height
              event_A (script_loaded None) eq_refl)
    as (H1 & _ & _ & H4 & _).
  split; [reflexivity|]. split; [exact H1|].
  exact (proj1 (proj2 (H4 empty_logs (not_elem_of_empty (logId event_A))))).
Defined.

(** ** The further properties on the sample browser *)

(** The redelivery scenario ends with one entry, whose key is recorded. *)
Lemma displayed_keys_are_distinct_witness :
  exists s fx,
    run "http:" "localhost:8080" sample_parse sample_time sample_height
        redelivery
        (post (DOMContentLoaded "http:" "localhost:8080" None
                 (script_loaded (Some empty_logs))))
    = Some (s, fx)
    /\ buffer s = [sample_entry event_A]
    /\ forall en, en ∈ buffer s ->
         exists k, logId_of (created_from en) = Normal k
                   /\ k ∈ displayedLogIds s.
Proof.
  destruct (run "http:" "localhost:8080" sample_parse sample_time
              sample_height redelivery
              (post (DOMContentLoaded "http:" "localhost:8080" None
                       (script_loaded (Some empty_logs)))))
    as [[s fx]|] eqn:E; [|vm_compute in E; discriminate].
  exists s, fx. split; [reflexivity|].
  pose proof (displayed_keys_are_distinct "http:" "localhost:8080"
                sample_parse sample_time sample_height None
                (Some empty_logs) redelivery s fx eq_refl E) as [H _].
  split; [|exact H].
  vm_compute in E. injection E as <- _. reflexivity.
Defined.

(** Three deliveries of two events, in two orders. *)
Lemma seen_set_is_order_independent_witness :
  logsEl (script_loaded (Some empty_logs)) = Some empty_logs
  /\ displayedLogIds
       (accept_all sample_time sample_height
          (map toJS [event_nr 1; event_A; event_A])
          (script_loaded (Some empty_logs)))
     = displayedLogIds
         (accept_all sample_time sample_height
            (map toJS [event_A; event_nr 1; event_A])
            (script_loaded (Some empty_logs))).
Proof.
  split; [reflexivity|].
  exact (proj2 (seen_set_is_order_independent sample_time sample_height
                  [event_A; event_nr 1; event_A]
                  [event_nr 1; event_A; event_A]
                  (script_loaded (Some empty_logs)) empty_logs eq_refl)
               (perm_swap (event_nr 1) event_A [event_A])).
Defined.

(** Two events that differ in the timestamp: the second is displayed. *)
Lemma same_key_only_if_same_fields_witness :
  no_dash (level event_A) = true
  /\ no_dash (level (event_nr 1)) = true
  /\ timestamp event_A <> timestamp (event_nr 1)
  /\ last (buffer (post (addLogEntry sample_time sample_height
                           (toJS (event_nr 1))
                           (post (addLogEntry sample_time sample_height
                                    (toJS event_A)
                                    (script_loaded (Some empty_logs)))))))
     = Some (entry_of sample_time (event_nr 1)).
Proof.
  assert (Hts : timestamp event_A <> timestamp (event_nr 1))
    by (vm_compute; discriminate).
  split; [reflexivity|]. split; [reflexivity|]. split; [exact Hts|].
  exact (proj2 (same_key_only_if_same_fields sample_time sample_height
                  event_A (event_nr 1) eq_refl eq_refl)
               (script_loaded (Some empty_logs)) empty_logs eq_refl
               (not_elem_of_empty (logId (event_nr 1)))
               (or_introl Hts)).
Defined.

(** [warn-db] / [down] and [warn] / [db-down]. *)
Lemma dash_in_level_confuses_key_witness :
  let e1 := {| timestamp := 1000; level := "warn-db"; message := "down" |} in
  let e2 := {| timestamp := 1000; level := "warn"; message := "db-down" |} in
  logId e1 = logId e2
  /\ addLogEntry sample_time sample_height (toJS e2)
       (accept_all sample_time sample_height [toJS e1]
          (script_loaded (Some empty_logs)))
     = returns (accept_all sample_time sample_height [toJS e1]
                  (script_loaded (Some empty_logs))) [].
Proof.
  cbv zeta.
  destruct (dash_in_level_confuses_key sample_time sample_height
              1000 "warn" "db" "down" ltac:(vm_compute; lia))
    as (_ & _ & Hkey & Hdup).
  split; [exact Hkey|]. exact (Hdup [] (script_loaded (Some empty_logs))).
Defined.

(** The thirty-first entry evicts nothing. *)
Lemma novel_entry_evicts_oldest_witness :
  logsEl reading_page = Some reading_logs
  /\ (length (children reading_logs) <= 500)%nat
  /\ List.filter is_removal
       (effects (addLogEntry sample_time sample_height
                   (toJS (event_nr 30)) reading_page)) = []
  /\ length (buffer (post (addLogEntry sample_time sample_height
                             (toJS (event_nr 30)) reading_page))) = 31%nat.
Proof.
  assert (Hnew : logId (event_nr 30) ∉ displayedLogIds reading_page).
  { apply (bool_decide_eq_false_1
             (logId (event_nr 30) ∈ displayedLogIds reading_page)).
    vm_compute. reflexivity. }
  assert (Hlen : (length (children reading_logs) <= 500)%nat)
    by (vm_compute; lia).
  split; [reflexivity|]. split; [exact Hlen|].
  destruct (novel_entry_evicts_oldest sample_time sample_height
              (toJS (event_nr 30)) reading_page reading_logs
              (logId (event_nr 30)) eq_refl eq_refl Hnew Hlen)
    as (en & _ & Hfx & Hbuf & _).
  split; [exact Hfx|]. rewrite Hbuf. vm_compute. reflexivity.
Defined.

(** With autoscroll unticked a frame is appended without a scroll. *)
Lemma unticked_autoscroll_holds_viewport_witness :
  let p := set_autoscrollEnabled false open_page in
  autoscrollEnabled p = false
  /\ exists s' fx,
      run "http:" "localhost:8080" sample_parse sample_time sample_height
          [SocketMessage frame_A; ToggleChanges false] p = Some (s', fx)
      /\ buffer s' = [sample_entry event_A]
      /\ ~ scrolled fx
      /\ scroll_offset s' = Some 0.
Proof.
  cbv zeta. set (p := set_autoscrollEnabled false open_page).
  split; [reflexivity|].
  destruct (run "http:" "localhost:8080" sample_parse sample_time
              sample_height [SocketMessage frame_A; ToggleChanges false] p)
    as [[s' fx]|] eqn:E; [|vm_compute in E; discriminate].
  exists s', fx. split; [reflexivity|].
  destruct (unticked_autoscroll_holds_viewport "http:" "localhost:8080"
              sample_parse sample_time sample_height
              [SocketMessage frame_A; ToggleChanges false] p s' fx eq_refl
              ltac:(repeat constructor; discriminate) E)
    as (Hn & Ho & _).
  split; [|split; [exact Hn|exact Ho]].
  vm_compute in E. injection E as <- _. reflexivity.
Defined.

(** Ticking the box takes the reader from the top of thirty entries to
    the bottom, and the next entry is followed. *)
Lemma ticking_autoscroll_follows_again_witness :
  logsEl reading_page = Some reading_logs
  /\ 0 <= clientHeight reading_logs
  /\ exists el1,
      logsEl (post (toggle_onchange sample_height true reading_page))
      = Some el1
      /\ scrollTop el1 = 300
      /\ scrolled (effects (addLogEntry sample_time sample_height
                              (toJS (event_nr 30))
                              (post (toggle_onchange sample_height true
                                       reading_page)))).
Proof.
  assert (Hnew : logId (event_nr 30) ∉ displayedLogIds reading_page).
  { apply (bool_decide_eq_false_1
             (logId (event_nr 30) ∈ displayedLogIds reading_page)).
    vm_compute. reflexivity. }
  assert (Hch : 0 <= clientHeight reading_logs) by (vm_compute; discriminate).
  split; [reflexivity|]. split; [exact Hch|].
  destruct (ticking_autoscroll_follows_again sample_time sample_height
              reading_page reading_logs eq_refl Hch)
    as (el1 & Hel1 & Htop & _ & _ & _ & _ & Hnext).
  exists el1. split; [exact Hel1|]. split.
  - rewrite Htop. vm_compute. reflexivity.
  - exact (Hnext (toJS (event_nr 30)) (logId (event_nr 30)) eq_refl Hnew).
Defined.

(** A batch of three logs whose second has no message: the first is
    displayed, the third is not. *)
Lemma poll_batch_stops_at_bad_log_witness :
  let p := set_inflight 1 (script_loaded (Some empty_logs)) in
  let r := Response 200
             (Normal (JObject [("logs",
                JArray ([toJS event_A]
                        ++ log_without_message :: [toJS (event_nr 1)]))])) in
  logId_of log_without_message = Throw TypeError
  /\ buffer (post (poll_settled sample_time sample_height r p))
     = [sample_entry event_A]
  /\ thrown (poll_settled sample_time sample_height r p) = None.
Proof.
  cbv zeta.
  assert (Hbad : logId_of log_without_message = Throw TypeError)
    by (vm_compute; reflexivity).
  destruct (poll_batch_stops_at_bad_log sample_time sample_height
              [toJS event_A] [toJS (event_nr 1)] log_without_message
              TypeError 200 (set_inflight 1 (script_loaded (Some empty_logs)))
              empty_logs eq_refl
              (Forall_cons_2 _ _ _
                 (ex_intro _ (logId event_A) (logId_of_toJS event_A))
                 (Forall_nil_2 _))
              Hbad eq_refl)
    as (Hpost & _ & Hthrown & _).
  split; [exact Hbad|]. split; [|exact Hthrown].
  rewrite Hpost. vm_compute. reflexivity.
Defined.

(** One frame, and one response with the same log. *)
Lemma poll_and_socket_deliver_alike_witness :
  sample_parse frame_A = Some (toJS event_A)
  /\ ws open_page = Some OPEN
  /\ exists fx,
      run "http:" "localhost:8080" sample_parse sample_time sample_height
          [SocketMessage frame_A] open_page
      = Some (accept_all sample_time sample_height [toJS event_A] open_page,
              fx)
      /\ effects (poll_settled sample_time sample_height
                    (logs_response 200 event_A)
                    (set_inflight 1 open_page)) = fx.
Proof.
  assert (Hparse : sample_parse frame_A = Some (toJS event_A))
    by (vm_compute; reflexivity).
  split; [exact Hparse|]. split; [reflexivity|].
  destruct (poll_and_socket_deliver_alike "http:" "localhost:8080"
              sample_parse sample_time sample_height
              [frame_A] [toJS event_A] 200 open_page
              ltac:(constructor; [exact Hparse|constructor])
              (Forall_cons_2 _ _ _
                 (ex_intro _ (logId event_A) (logId_of_toJS event_A))
                 (Forall_nil_2 _))
              eq_refl eq_refl)
    as (Hrun & _ & Hpost).
  eexists. split; [|reflexivity].
  cbn [map] in Hrun. rewrite Hrun, Hpost. reflexivity.
Defined.

(** After a load on which [new WebSocket] threw, a poll feeds the view
    and no socket is created. *)
Lemma failed_constructor_is_never_retried_witness :
  let p := post (DOMContentLoaded "http:" "localhost:8080"
                   (Some DOMException) (script_loaded (Some empty_logs))) in
  given_up p
  /\ exists s' fx,
      run "http:" "localhost:8080" sample_parse sample_time sample_height
          polling_alone p = Some (s', fx)
      /\ connects fx = 0%nat
      /\ fetches fx = 1%nat
      /\ buffer s' = [sample_entry event_A]
      /\ ws s' = None.
Proof.
  cbv zeta.
  set (p := post (DOMContentLoaded "http:" "localhost:8080"
                    (Some DOMException) (script_loaded (Some empty_logs)))).
  assert (Hp : given_up p).
  { split; [left; reflexivity|]. repeat constructor; discriminate. }
  split; [exact Hp|].
  destruct (run "http:" "localhost:8080" sample_parse sample_time
              sample_height polling_alone p)
    as [[s' fx]|] eqn:E; [|vm_compute in E; discriminate].
  exists s', fx. split; [reflexivity|].
  destruct (failed_constructor_is_never_retried "http:" "localhost:8080"
              sample_parse sample_time sample_height polling_alone p s' fx
              Hp E)
    as ((Hc & Hw & _) & _).
  split; [exact Hc|].
  vm_compute in E. injection E as <- <-.
  split; [reflexivity|]. split; reflexivity.
Defined.

(** After a close the one pending reconnect waits for a closed socket. *)
Lemma reconnect_only_replaces_closed_socket_witness :
  exists s fx,
    run "http:" "localhost:8080" sample_parse sample_time sample_height
        [SocketOpens; SocketCloses "gone"]
        (post (DOMContentLoaded "http:" "localhost:8080" None
                 (script_loaded (Some empty_logs))))
    = Some (s, fx)
    /\ timers s !! 1%nat = Some (reconnect_at 3000)
    /\ ws s = Some CLOSED.
Proof.
  destruct (run "http:" "localhost:8080" sample_parse sample_time
              sample_height [SocketOpens; SocketCloses "gone"]
              (post (DOMContentLoaded "http:" "localhost:8080" None
                       (script_loaded (Some empty_logs)))))
    as [[s fx]|] eqn:E; [|vm_compute in E; discriminate].
  exists s, fx. split; [reflexivity|].
  assert (Ht : timers s !! 1%nat = Some (reconnect_at 3000))
    by (vm_compute in E; injection E as <- _; reflexivity).
  split; [exact Ht|].
  exact (proj1 (proj2 (reconnect_only_replaces_closed_socket
                         "http:" "localhost:8080" sample_parse sample_time
                         sample_height None (Some empty_logs)
                         [SocketOpens; SocketCloses "gone"] s fx E)
                      1%nat (reconnect_at 3000) Ht eq_refl)).
Defined.

(** A duplicate and a log without a message among four deliveries. *)
Lemma entries_keep_delivery_order_witness :
  let final := accept_all sample_time sample_height
                 [toJS event_A; log_without_message; toJS event_A;
                  toJS (event_nr 1)]
                 (script_loaded (Some empty_logs)) in
  buffer final = [sample_entry event_A; sample_entry (event_nr 1)]
  /\ (length (buffer final) <= 500)%nat.
Proof.
  cbv zeta.
  destruct (entries_keep_delivery_order sample_time sample_height
              [toJS event_A; log_without_message; toJS event_A;
               toJS (event_nr 1)]
              (script_loaded (Some empty_logs)) empty_logs eq_refl
              (Nat.le_0_l 500))
    as (added & _ & _ & _ & Hlen).
  split; [vm_compute; reflexivity|exact Hlen].
Defined.

(** The same response twice. *)
Lemma repeated_poll_changes_nothing_witness :
  let p := set_inflight 2 (script_loaded (Some empty_logs)) in
  let p1 := post (poll_settled sample_time sample_height
                    (logs_response 200 event_A) p) in
  buffer p1 = [sample_entry event_A]
  /\ buffer (post (poll_settled sample_time sample_height
                     (logs_response 200 event_A) p1))
     = [sample_entry event_A]
  /\ inflight (post (poll_settled sample_time sample_height
                       (logs_response 200 event_A) p1)) = 0%nat.
Proof.
  cbv zeta.
  set (p := set_inflight 2 (script_loaded (Some empty_logs))).
  set (p1 := post (poll_settled sample_time sample_height
                     (logs_response 200 event_A) p)).
  destruct (repeated_poll_changes_nothing sample_time sample_height
              (logs_response 200 event_A) p p1 empty_logs eq_refl
              (reflexivity _))
    as (Hpost & _).
  split; [vm_compute; reflexivity|].
  rewrite Hpost. split; vm_compute; reflexivity.
Defined.

(** ** Properties of the uptime label *)

Lemma pretty_nonneg_digits (n : Z) : 0 <= n -> all_digits (pretty n) = true.
Proof.
  destruct n as [|p|p]; intros H; [reflexivity| |lia].
  exact (proj1 (pretty_N_digits (Npos p))).
Qed.

Lemma digits_prefix_inj (d1 d2 r1 r2 : string) (u1 u2 : ascii) :
  all_digits d1 = true -> all_digits d2 = true ->
  is_digit u1 = false -> is_digit u2 = false ->
  d1 +:+ String u1 r1 = d2 +:+ String u2 r2 ->
  d1 = d2 /\ u1 = u2 /\ r1 = r2.
Proof.
  revert d2. induction d1 as [|c1 d1 IH]; intros [|c2 d2] H1 H2 Hu1 Hu2 Heq;
    rewrite ?string_app_cons in Heq.
  - injection Heq as -> ->. repeat split.
  - injection Heq as -> _. cbn in H2. rewrite Hu1 in H2. discriminate.
  - injection Heq as -> _. cbn in H1. rewrite Hu2 in H1. discriminate.
  - injection Heq as <- Heq. cbn [all_digits] in H1, H2.
    apply andb_prop in H1 as [_ H1]. apply andb_prop in H2 as [_ H2].
    destruct (IH d2 H1 H2 Hu1 Hu2 Heq) as (-> & -> & ->). repeat split.
Qed.

(** The label of a non-empty list of tokens: the first number, its unit,
    and the rest after a space. *)
Lemma join_tokens_cons (t : Z * ascii) (rest : list (Z * ascii)) :
  join_space (map token (t :: rest))
  = pretty (fst t)
    +:+ String (snd t)
          match rest with
          | [] => ""
          | _ => String " " (join_space (map token rest))
          end.
Proof.
  destruct rest as [|t' rest]; [reflexivity|].
  cbn [map join_space]. unfold token at 1.
  rewrite string_app_assoc, !string_app_cons. reflexivity.
Qed.

Lemma join_tokens_inj (l1 l2 : list (Z * ascii)) :
  Forall token_ok l1 -> Forall token_ok l2 ->
  join_space (map token l1) = join_space (map token l2) -> l1 = l2.
Proof.
  intros H1. revert l2. induction H1 as [|[n1 u1] r1 [Hn1 Hu1] Hr1 IH];
    intros l2 H2 Heq.
  - destruct H2 as [|[n2 u2] r2 _ _]; [reflexivity|].
    rewrite join_tokens_cons in Heq. cbn [fst snd] in Heq.
    destruct (pretty n2); discriminate.
  - destruct H2 as [|[n2 u2] r2 [Hn2 Hu2] Hr2].
    + rewrite join_tokens_cons in Heq. cbn [fst snd] in Heq.
      destruct (pretty n1); discriminate.
    + rewrite !join_tokens_cons in Heq. cbn [fst snd] in *.
      apply digits_prefix_inj in Heq as (Hn & -> & Hrest);
        try (apply pretty_nonneg_digits); try assumption.
      apply (inj pretty) in Hn. subst n2. f_equal.
      destruct r1 as [|t1 r1'], r2 as [|t2 r2']; try discriminate;
        [reflexivity|].
      injection Hrest as Hrest. apply IH; assumption.
Qed.

Lemma uptime_tokens_ok (d h m s : Z) :
  0 <= d -> 0 <= h -> 0 <= m -> 0 <= s ->
  Forall token_ok (uptime_tokens d h m s).
Proof.
  intros Hd Hh Hm Hs. unfold uptime_tokens, tok.
  destruct (0 <? d), (0 <? h), (0 <? m), (0 <? s); cbn;
    repeat (constructor; [split; [assumption|reflexivity]|]);
    constructor.
Qed.

Lemma uptime_tokens_values (d h m s : Z) :
  0 <= d -> 0 <= h -> 0 <= m -> 0 <= s ->
  value_of "d" (uptime_tokens d h m s) = d
  /\ value_of "h" (uptime_tokens d h m s) = h
  /\ value_of "m" (uptime_tokens d h m s) = m
  /\ value_of "s" (uptime_tokens d h m s) = s.
Proof.
  intros Hd Hh Hm Hs. unfold uptime_tokens, tok.
  destruct (Z.ltb_spec 0 d), (Z.ltb_spec 0 h), (Z.ltb_spec 0 m),
    (Z.ltb_spec 0 s); cbn; repeat split; lia.
Qed.

Lemma formatUptime_tokens (d h m s : Z) :
  0 <= d -> 0 <= h < 24 -> 0 <= m < 60 -> 0 <= s < 60 ->
  formatUptime (uptime_of d h m s)
  = join_space (map token (uptime_tokens d h m s)).
Proof.
  intros Hd Hh Hm Hs. unfold formatUptime.
  destruct (Z.eqb_spec (uptime_of d h m s) 0) as [E|E].
  - unfold uptime_of in E.
    assert (d = 0 /\ h = 0 /\ m = 0 /\ s = 0) as (-> & -> & -> & ->) by lia.
    reflexivity.
  - change (24 * 3600) with 86400.
    assert (E1 : uptime_of d h m s / 86400 = d)
      by (unfold uptime_of; Z.to_euclidean_division_equations; lia).
    assert (E2 : Z.rem (uptime_of d h m s) 86400 = h * 3600 + m * 60 + s)
      by (unfold uptime_of; Z.to_euclidean_division_equations; lia).
    rewrite E1, E2.
    assert (E3 : (h * 3600 + m * 60 + s) / 3600 = h)
      by (Z.to_euclidean_division_equations; lia).
    assert (E4 : Z.rem (h * 3600 + m * 60 + s) 3600 = m * 60 + s)
      by (Z.to_euclidean_division_equations; lia).
    rewrite E3, E4.
    assert (E5 : (m * 60 + s) / 60 = m)
      by (Z.to_euclidean_division_equations; lia).
    assert (E6 : Z.rem (m * 60 + s) 60 = s)
      by (Z.to_euclidean_division_equations; lia).
    rewrite E5, E6. unfold uptime_tokens, tok.
    destruct (0 <? d), (0 <? h), (0 <? m), (0 <? s); reflexivity.
Qed.

(** X13. The label of an uptime of [d] days, [h] hours, [m] minutes and
    [s] seconds, below [2 ^ 53] seconds in all (where the numbers of the
    script are exact and print in decimal), lists the four numbers with
    their units, separated by spaces, leaving out those that are zero;
    the uptime of zero seconds reads [0s]. *)
Theorem uptime_label_lists_nonzero_parts (d h m s : Z) :
  0 <= d -> 0 <= h < 24 -> 0 <= m < 60 -> 0 <= s < 60 ->
  uptime_of d h m s < 2 ^ 53 ->
  formatUptime (uptime_of d h m s)
  = if uptime_of d h m s =? 0 then "0s"
    else join_space (part d "d" ++ part h "h" ++ part m "m" ++ part s "s").
Proof.
  intros Hd Hh Hm Hs _. rewrite formatUptime_tokens by assumption.
  unfold uptime_tokens, tok, part.
  destruct (Z.eqb_spec (uptime_of d h m s) 0) as [E|E].
  - unfold uptime_of in E.
    assert (d = 0 /\ h = 0 /\ m = 0 /\ s = 0) as (-> & -> & -> & ->) by lia.
    reflexivity.
  - unfold uptime_of in E.
    destruct (Z.ltb_spec 0 d), (Z.ltb_spec 0 h), (Z.ltb_spec 0 m),
      (Z.ltb_spec 0 s); try reflexivity; lia.
Qed.

Lemma uptime_fields (a : Z) :
  0 <= a ->
  exists d h m s,
    a = uptime_of d h m s /\ 0 <= d /\ 0 <= h < 24 /\ 0 <= m < 60
    /\ 0 <= s < 60.
Proof.
  intros Ha.
  exists (a / 86400), (a mod 86400 / 3600), (a mod 3600 / 60), (a mod 60).
  unfold uptime_of. Z.to_euclidean_division_equations. lia.
Qed.

(** X14. The label determines the uptime: two different non-negative
    whole numbers of seconds never get the same label. *)
Theorem uptime_label_is_injective (a b : Z) :
  0 <= a -> 0 <= b -> formatUptime a = formatUptime b -> a = b.
Proof.
  intros Ha Hb Heq.
  destruct (uptime_fields a Ha) as (d & h & m & s & -> & Hd & Hh & Hm & Hs).
  destruct (uptime_fields b Hb)
    as (d' & h' & m' & s' & -> & Hd' & Hh' & Hm' & Hs').
  rewrite !formatUptime_tokens in Heq by assumption.
  apply join_tokens_inj in Heq; [|apply uptime_tokens_ok; lia..].
  destruct (uptime_tokens_values d h m s) as (V1 & V2 & V3 & V4); try lia.
  destruct (uptime_tokens_values d' h' m' s') as (W1 & W2 & W3 & W4);
    try lia.
  rewrite Heq in V1, V2, V3, V4. congruence.
Qed.

(** X15. A negative number of seconds is not rejected: the days, hours
    and minutes, being negative or zero, are left out, and the label shows
    only the remainder of the division by 60, with its sign. *)
Theorem uptime_label_of_negative (a : Z) :
  a < 0 -> formatUptime a = pretty (Z.rem a 60) +:+ "s".
Proof.
  intros Ha. unfold formatUptime. change (24 * 3600) with 86400.
  destruct (Z.eqb_spec a 0) as [E|_]; [lia|].
  assert (E1 : (0 <? a / 86400) = false)
    by (apply Z.ltb_ge; Z.to_euclidean_division_equations; lia).
  assert (E2 : (0 <? Z.rem a 86400 / 3600) = false)
    by (apply Z.ltb_ge; Z.to_euclidean_division_equations; lia).
  assert (E3 : (0 <? Z.rem (Z.rem a 86400) 3600 / 60) = false)
    by (apply Z.ltb_ge; Z.to_euclidean_division_equations; lia).
  assert (E4 : Z.rem (Z.rem (Z.rem a 86400) 3600) 60 = Z.rem a 60)
    by (Z.to_euclidean_division_equations; lia).
  rewrite E1, E2, E3, E4. cbn [app length Nat.eqb orb].
  rewrite orb_true_r. reflexivity.
Qed.

(** ** Properties of the library table *)

Lemma totalPages_bounds (data : list JSValue) :
  50 * (totalPages data - 1) < Z.of_nat (length data) <= 50 * totalPages data.
Proof.
  unfold totalPages, LIBRARY_PAGE_SIZE.
  Z.to_euclidean_division_equations. lia.
Qed.

Lemma take_min_length {A} (n : nat) (l : list A) :
  take (Nat.min n (length l)) l = take n l.
Proof.
  destruct (Nat.le_ge_cases n (length l)) as [H|H].
  - rewrite Nat.min_l by exact H. reflexivity.
  - rewrite Nat.min_r by exact H. rewrite !take_ge by lia. reflexivity.
Qed.

(** From page 1 on, the slice is the window of 50 items that starts at
    item [50 * (p - 1)]. *)
Lemma pageData_window (p : Z) (data : list JSValue) :
  1 <= p -> pageData p data = take 50 (drop (Z.to_nat (50 * (p - 1))) data).
Proof.
  intros Hp. unfold pageData, js_slice, LIBRARY_PAGE_SIZE.
  set (len := Z.of_nat (length data)).
  destruct (Z.ltb_spec ((p - 1) * 50) 0) as [?|_]; [lia|].
  destruct (Z.ltb_spec ((p - 1) * 50 + 50) 0) as [?|_]; [lia|].
  replace (Z.to_nat (50 * (p - 1))) with (Z.to_nat ((p - 1) * 50)) by lia.
  destruct (Z.le_gt_cases ((p - 1) * 50) len) as [Hin|Hout].
  - rewrite (Z.min_l ((p - 1) * 50) len) by lia.
    rewrite <- (take_min_length 50 (drop _ data)). f_equal.
    rewrite length_drop. lia.
  - rewrite (Z.min_r ((p - 1) * 50) len) by lia.
    rewrite (Z.min_r ((p - 1) * 50 + 50) len) by lia.
    subst len. rewrite Z.sub_diag, !drop_ge by lia. reflexivity.
Qed.

Lemma chunks_concat {A} (l : list A) (n : nat) :
  concat (map (fun i => take 50 (drop (50 * i) l)) (seq 0 n))
  = take (50 * n) l.
Proof.
  induction n as [|n IH]; [reflexivity|].
  rewrite seq_S, map_app, concat_app, IH. cbn [map concat Nat.add].
  rewrite app_nil_r, take_take_drop. f_equal. lia.
Qed.

(** X16. The pages 1 to [totalPages] cut the library into consecutive
    runs of 50 items: put one after the other they give back the library,
    every item once and in order. Each of these pages has at least one and
    at most 50 items, all but the last exactly 50, and row [j] of page [p]
    is item [50 * (p - 1) + j] of the library. *)
Theorem library_pages_cover_the_library (data : list JSValue) :
  concat (map (fun p => pageData p data) (seqZ 1 (totalPages data))) = data
  /\ forall p,
      1 <= p <= totalPages data ->
      (1 <= length (pageData p data) <= 50)%nat
      /\ (p < totalPages data -> length (pageData p data) = 50%nat)
      /\ forall j, (j < 50)%nat ->
           pageData p data !! j = data !! (Z.to_nat (50 * (p - 1)) + j)%nat.
Proof.
  pose proof (totalPages_bounds data) as Hb. split.
  - unfold seqZ.
    change (map (fun p => pageData p data)
                ((fun i : nat => Z.of_nat i + 1) <$>
                   seq 0 (Z.to_nat (totalPages data))))
      with (map (fun p => pageData p data)
                (map (fun i : nat => Z.of_nat i + 1)
                     (seq 0 (Z.to_nat (totalPages data))))).
    rewrite map_map.
    rewrite (map_ext _ (fun i => take 50 (drop (50 * i) data))).
    + rewrite chunks_concat. apply take_ge. lia.
    + intros i. rewrite pageData_window by lia. do 2 f_equal. lia.
  - intros p Hp. rewrite pageData_window by lia.
    rewrite length_take, length_drop. split; [lia|]. split; [lia|].
    intros j Hj. rewrite lookup_take, lookup_drop.
    destruct (decide (j < 50)%nat); [reflexivity|lia].
Qed.

(** X17. With both elements in place, rendering a page between 1 and
    [totalPages] of a non-empty library puts exactly the rows of its
    window of 50 items into the table, and the page number, the page
    count and the item count into the pagination; rendering again changes
    nothing. When a row throws nothing is assigned. A library handed to
    [updateLibraryList] is on page 1, which is such a page. *)
Theorem library_page_shows_its_rows (row : JSValue -> Completion string)
        (v : Library) (l0 p0 : string) :
  library_list v = Some l0 -> library_pagination v = Some p0 ->
  libraryData v <> [] ->
  1 <= libraryPage v <= totalPages (libraryData v) ->
  let items :=
    take 50 (drop (Z.to_nat (50 * (libraryPage v - 1))) (libraryData v)) in
  let shown rows :=
    set_library_html rows
      (pagination_html (libraryPage v) (totalPages (libraryData v))
         (Z.of_nat (length (libraryData v)))) v in
  items <> []
  /\ (forall rows,
        map_join row items = Normal rows ->
        renderLibraryPage row v = Normal (shown rows)
        /\ renderLibraryPage row (shown rows) = Normal (shown rows))
  /\ (forall e, map_join row items = Throw e ->
                renderLibraryPage row v = Throw e)
  /\ (forall lib,
        lib <> [] ->
        1 <= libraryPage (updateLibraryList lib v)
          <= totalPages (libraryData (updateLibraryList lib v))).
Proof.
  intros Hl Hp Hdata Hpage items shown.
  pose proof (totalPages_bounds (libraryData v)) as Hb.
  assert (Hlen : (length (libraryData v) =? 0)%nat = false).
  { apply Nat.eqb_neq. destruct (libraryData v); [congruence|discriminate]. }
  assert (Hwin : pageData (libraryPage v) (libraryData v) = items)
    by (apply pageData_window; lia).
  split; [|split; [|split]].
  - intros H. apply (f_equal length) in H. unfold items in H.
    rewrite length_take, length_drop in H. cbn [length] in H. lia.
  - intros rows Hrows. split.
    + unfold renderLibraryPage. rewrite Hl, Hp, Hlen, Hwin, Hrows.
      reflexivity.
    + unfold renderLibraryPage, shown.
      cbn [library_list library_pagination libraryData libraryPage
           set_library_html].
      rewrite Hlen, Hwin, Hrows. reflexivity.
  - intros e He. unfold renderLibraryPage.
    rewrite Hl, Hp, Hlen, Hwin, He. reflexivity.
  - intros lib Hlib. cbn [libraryPage libraryData updateLibraryList].
    pose proof (totalPages_bounds lib) as Hb'.
    destruct lib; [congruence|]. cbn [length] in Hb'. lia.
Qed.

(** X18. [changeLibraryPage] adds the step to the page number without
    looking at the number of pages. Page 0 and the pages after the last
    have no rows (the table is rendered empty, between two enabled
    buttons); a negative page number makes the start of the slice
    negative, which counts from the end of the library: page [p < 0]
    shows the 50 items that start [50 * (1 - p)] before the end. *)
Theorem library_page_is_not_clamped (data : list JSValue) :
  (forall delta v,
      libraryPage (fst (changeLibraryPage delta v)) = libraryPage v + delta
      /\ libraryData (fst (changeLibraryPage delta v)) = libraryData v)
  /\ (forall p, p = 0 \/ totalPages data < p -> pageData p data = [])
  /\ (forall row v l0 p0,
         library_list v = Some l0 -> library_pagination v = Some p0 ->
         libraryData v <> [] -> libraryPage v = 0 ->
         renderLibraryPage row v
         = Normal (set_library_html ""
                     (pagination_html 0 (totalPages (libraryData v))
                        (Z.of_nat (length (libraryData v)))) v))
  /\ (forall p,
         p < 0 -> 50 * (1 - p) <= Z.of_nat (length data) ->
         pageData p data
         = take 50 (drop (length data - Z.to_nat (50 * (1 - p))) data)
         /\ length (pageData p data) = 50%nat).
Proof.
  pose proof (totalPages_bounds data) as Hb.
  assert (Hzero : forall d, pageData 0 d = []).
  { intros d. unfold pageData, js_slice, LIBRARY_PAGE_SIZE.
    change ((0 - 1) * 50) with (-50). change (-50 + 50) with 0.
    change (0 <? 0) with false. change (-50 <? 0) with true. cbv iota.
    replace (Z.to_nat (Z.min 0 (Z.of_nat (length d))
                       - Z.max (Z.of_nat (length d) + -50) 0))
      with 0%nat by lia.
    reflexivity. }
  split; [|split; [|split]].
  - intros delta v. split; reflexivity.
  - intros p [->|Hp]; [apply Hzero|].
    rewrite pageData_window by lia. rewrite drop_ge by lia. reflexivity.
  - intros row v l0 p0 Hl Hp Hdata Hpage.
    unfold renderLibraryPage. rewrite Hl, Hp, Hpage, Hzero.
    destruct (libraryData v); [congruence|]. reflexivity.
  - intros p Hp Hlen. unfold pageData, js_slice, LIBRARY_PAGE_SIZE.
    destruct (Z.ltb_spec ((p - 1) * 50) 0) as [_|?]; [|lia].
    destruct (Z.ltb_spec ((p - 1) * 50 + 50) 0) as [_|?]; [|lia].
    replace (Z.to_nat (Z.max (Z.of_nat (length data) + ((p - 1) * 50 + 50)) 0
                       - Z.max (Z.of_nat (length data) + (p - 1) * 50) 0))
      with 50%nat by lia.
    replace (Z.to_nat (Z.max (Z.of_nat (length data) + (p - 1) * 50) 0))
      with (length data - Z.to_nat (50 * (1 - p)))%nat by lia.
    split; [reflexivity|].
    rewrite length_take, length_drop. lia.
Qed.

(** ** The uptime label and the library table on sample values *)

(** One day, two hours, three minutes and four seconds. *)
Lemma uptime_label_lists_nonzero_parts_witness :
  uptime_of 1 2 3 4 = 93784
  /\ 93784 < 2 ^ 53
  /\ formatUptime 93784 = "1d 2h 3m 4s"
  /\ formatUptime (uptime_of 2 0 5 0) = "2d 5m".
Proof.
  split; [reflexivity|]. split; [vm_compute; reflexivity|].
  pose proof (uptime_label_lists_nonzero_parts 1 2 3 4
                ltac:(lia) ltac:(lia) ltac:(lia) ltac:(lia)
                ltac:(vm_compute; reflexivity)) as H1.
  pose proof (uptime_label_lists_nonzero_parts 2 0 5 0
                ltac:(lia) ltac:(lia) ltac:(lia) ltac:(lia)
                ltac:(vm_compute; reflexivity)) as H2.
  split; (etransitivity; [first [exact H1|exact H2]|]);
    vm_compute; reflexivity.
Defined.

(** An hour, a minute and a second, written in two ways. *)
Lemma uptime_label_is_injective_witness :
  formatUptime 3661 = formatUptime (uptime_of 0 1 1 1)
  /\ 3661 = uptime_of 0 1 1 1.
Proof.
  assert (H : formatUptime 3661 = formatUptime (uptime_of 0 1 1 1))
    by (vm_compute; reflexivity).
  split; [exact H|].
  exact (uptime_label_is_injective 3661 (uptime_of 0 1 1 1)
           ltac:(lia) ltac:(vm_compute; discriminate) H).
Defined.

(** Two minutes and five seconds below zero. *)
Lemma uptime_label_of_negative_witness :
  formatUptime (-125) = "-5s".
Proof.
  rewrite (uptime_label_of_negative (-125) ltac:(lia)).
  vm_compute. reflexivity.
Defined.

(** The third and last page of 120 items has the last 20 of them. *)
Lemma library_page_shows_its_rows_witness :
  totalPages sample_library = 3
  /\ exists rows,
      renderLibraryPage sample_row sample_library_view
      = Normal (set_library_html rows (pagination_html 3 3 120)
                  sample_library_view)
      /\ map_join sample_row
           (map (fun i => JNumber (Z.of_nat i)) (seq 100 20))
         = Normal rows.
Proof.
  split; [vm_compute; reflexivity|].
  destruct (library_page_shows_its_rows sample_row sample_library_view
              "" "" eq_refl eq_refl ltac:(vm_compute; discriminate)
              ltac:(vm_compute; split; discriminate))
    as (_ & Hshown & _).
  eexists. split.
  - refine (proj1 (Hshown _ _)). vm_compute. reflexivity.
  - vm_compute. reflexivity.
Defined.
